(* ===== verification/_CoqProject ===== *)
-Q . S2P
Prelude.v
Table.v
Greedy.v
Region.v
Splitter.v
Classifier.v
LabelFit.v
PaintCell.v
Tiling.v
Driver.v
Commands.v
