(* ===== verification/Prelude.v ===== *)
(** * The tetris treemap: a verification development of [src/tetris.py]

    ** The program

    [tetris.py] draws hierarchical treemaps ("tetris" or Voronoi-like
    diagrams) as SVG.  The script body (lines 206-278) opens a workbook,
    and for every row of its [Commands] sheet reads the grouping levels,
    an area column, a quality column, a colour sheet and up to six colour
    rules, builds the colour table of the SVG object and calls
    [tree_paint] (lines 15-72).  [tree_paint] checks the columns and
    paints one diagram row per prefix of the levels by calling
    [split_into_subtrees] (lines 74-144).  The splitter recursively cuts
    its rectangle in two, in proportion to the summed area weight of two
    buckets of groups: it sorts the rows by their index, descends one
    level when the current level has a single group, sorts the groups of
    the level by weight (largest first) and deals them greedily to the
    lighter bucket, cuts the region along its longer side at the first
    bucket's share, and recurses into each bucket of positive weight.  A
    single row, or the level past the last one, is painted by
    [paint_cell] (lines 146-204): the mean quality picks the colours from
    the rules (first match wins), and the label, the smallest value of
    the text column, is sized to fit the cell.  A non-empty drawing is
    saved to the job's file.

    ** The files

    - [Prelude] (this file): the [result] error monad for Python
      exceptions (with [OutOfFuel] for the fuel-bounded models) and the
      exceptions a computation may raise ([raises_only]), sums of
      rationals, a stable insertion sort [sort_by] (Python's [sorted] and
      the pandas sorts), Python dicts filled by a loop ([insert_all],
      with the reference lookup [assoc_find]: the last write wins), hint
      databases [tetris]/[tetris_rw], the [inv_bind] tactic, generic list
      lemmas.
    - [Table]: the DataFrame as a list of [row]s (index values, area,
      quality); [sort_index], [groupby] names ([group_names]), the slices
      [data_sorted[id:id]] ([group_slice]), [chunksizes]; grouping loses no
      row ([concat_group_slices]).
    - [Greedy]: the sort of the chunks ([sort_chunks]) and the bucket loop
      ([place_chunk], [fill_buckets]) of lines 106-126, generic in the
      payload of a chunk.
    - [Region]: the rectangle with the numeric kind of its bounds,
      [is_portrait], [split_region] (lines 129-143), areas, validity,
      sub-rectangles ([subregion], a preorder), guillotine cuts and the
      equivalence [region_equiv] (with [Proper] instances).
    - [Splitter]: [split_into_subtrees] as a [Fixpoint] with fuel,
      parameterised by the leaf painter (the arguments the code passes
      through unchanged are closed over by the painter); [group_level]
      (lines 95-100), [node_buckets] (102-126), [first_share] (129);
      [layout], the splitter with the painter that returns the cell;
      the interface [Painter] (a class: a painter never runs out of
      fuel) against which termination is proved, implemented by
      [layout]'s painter and by [paint_cell] ([Driver]); an induction
      principle on successful runs ([split_Ok_ind]).
    - [Classifier]: the colour rules ([border], [rule_matches],
      [classify_loop], [cell_colors], lines 151-178) and Python's
      [float()] with its infinities and nan ([parse_float], [pyfloat]).
    - [LabelFit]: orientation, font size and the exception of an empty
      label (lines 185-193, [empty_label_error]).
    - [PaintCell]: [paint_cell], the drawing instructions it emits
      ([svg_item]), [quality_mean] and [label_min].
    - [Tiling]: the abstract treemap contract ([treemap], over
      [Region.guillotine] cuts), its refinement by the splitter, and
      the tiling of the region ([tiles]).
    - [Driver]: [tree_paint] and [level_rows] (lines 15-72), with the
      canvas settings and header comments ([canvas_of], [doc_header],
      lines 16-27), the shape of
      the document ([doc_wf]) and the bands of the diagram rows
      ([rows_placed]); the levels cell parser ([parse_levels], line 237).
    - [Commands]: the script body (lines 206-278): sheet rows as dicts
      ([get] raises [KeyError]), the colour rules of a row
      ([borders_of_command]), the colour table ([color_table]), one job
      ([run_job]), the loop ([run_jobs]) and its step relation
      ([loop_step]), the saved files as a store, and [main].

    ** What is proved (claims C1-C31 of the manifest)

    - Splitter: termination with the fuel [split_measure] + 1
      ([split_terminates], C1); area conservation and proportionality of
      the painted cells ([layout_areas], C2); every row is painted once,
      except rows of weight 0 ([layout_conserves_rows], C3); every cell is
      a single row or a fully resolved group ([layout_cells_are_groups],
      C4).  Two lemmas carry these to the driver: any fuel above the bound
      gives the same result ([split_fuel_irrelevant]), and the splitter
      with any painter paints the layout's cells in order
      ([split_paint_all]).
    - Tiling: the abstract contract of a slice-and-dice treemap
      ([treemap]: rows split in two, the region cut by a guillotine cut at
      the first part's share of the weight) is refined by the splitter,
      which also returns on every input from level 1
      ([layout_refines_treemap], C6); every treemap tiles its region, so
      the painted cells do ([layout_tiling], C5).
    - Greedy: the longest-processing-time balance bound ([greedy_balance],
      C7); conservation of weights and rows ([greedy_conservation], C8);
      the sort is a stable descending permutation ([sort_chunks_spec],
      C10).
    - Region: the two halves of a split tile the region
      ([split_region_partition], C9).
    - Classifier: first match wins whatever follows
      ([classify_first_match], C11); the default colours are the last
      entry's background and black ([classify_default], C12); a malformed
      threshold raises [ValueError] only when reached
      ([classify_malformed], C13); a rule ["<op><decimal>"] holds exactly
      when the mean quality compares with the decimal's value by the
      operator ([rule_decimal_compares], C31).
    - PaintCell: a cell's painting does not depend on the order of its rows
      ([paint_cell_perm], C14).
    - LabelFit: the font size is at most 24 and at most 90% of the short
      side ([fit_label_bounds], C15); the empty label is the only failure,
      raising [OverflowError] on a cell whose two sides are numpy floats
      and [ZeroDivisionError] otherwise ([fit_label_error], C16).
    - Driver: [tree_paint] never runs out of fuel and raises only the
      exceptions of a cell, never the [groupby([])] error
      ([tree_paint_terminates], C17); its document is well formed
      ([tree_paint_doc_wf], C18); the rectangles of each diagram row stay
      in the row's band, no two of them overlap, and the bands are apart
      ([tree_paint_rows_stacked], C19); an empty rule list raises
      [IndexError] in the middle of drawing ([tree_paint_no_rules], C20);
      the levels parser round-trips ([parse_levels_roundtrip], C30).
    - Commands: the whole script, by the way it ends -- no input file,
      no [Commands] sheet, finished with every row's outcome and the
      last write of each file, or crashed on a row's Python exception
      ([main_spec], C21); the loop function agrees with the step relation
      ([run_jobs_steps], C22); an exception in one job ends the script
      ([run_jobs_abort], C23); the file store holds the last write of
      each name ([loop_files_last_writer], C24, by rule induction on the
      steps); liveness: from every configuration the loop reaches the end
      of the table or a row raising [KeyError] or a cell's exception,
      never a fuel exhaustion ([loop_eventually_final], C25); which rows
      write which files ([job_file_spec], C26); end to end, every file in
      the store was written by a row of the table and is a well-formed
      diagram of that row's levels ([loop_files_are_diagrams], C27); the
      colour table is the reference dict ([color_table_last_wins], C28);
      the colour rules of a row ([borders_of_command_spec], C29).

    ** Modelling choices, bounds and fuel

    - Numbers are rationals ([Q]): the program's floats are modelled
      exactly, so the geometric theorems hold for exact arithmetic.
      Python's [int()] is truncation ([py_int]), [min]/[max] keep their
      first argument on ties.  Weights are assumed non-negative where the
      theorems say so (the spec's data model).
    - Level values are strings ordered as Python orders [str]; rows carry
      all the job's level values; the text field is given by position.
    - [split_into_subtrees] recurses on data the type system cannot see
      shrink, so it takes fuel.  [split_measure] = rows * (levels + 2) +
      (levels + 1 - level) decreases on every recursive call (fewer rows,
      or the same rows one level deeper), so [split_measure + 1] is
      enough; the driver gives exactly that ([split_fuel]), and any larger
      fuel gives the same result ([split_fuel_irrelevant]).
    - The divisions of lines 129-130 are numpy divisions (the bucket
      totals are numpy scalars): a zero denominator gives [nan] or [inf],
      not an exception.  The model divides rationals, where [x / 0 = 0].
      The two agree on every run the theorems consider: with non-negative
      weights a half of positive weight has a positive total, and every
      region the splitter recurses into has positive sides
      ([layout_areas]).
    - Every coordinate after a cut is a numpy float (it is computed from
      [first_share], a numpy scalar), and the coordinates the driver
      passes are Python numbers.  A region records, per axis, whether a
      bound is a numpy float ([Region.x_numpy], [Region.y_numpy]);
      [split_region] sets it on the axis it cuts.  It decides the
      exception of an empty label ([LabelFit.empty_label_error]): Python
      numbers raise [ZeroDivisionError], numpy floats give infinities and
      [int()] then raises [OverflowError] (or [ValueError] on a nan).
    - [float()] is modelled on its grammar (whitespace, sign, ["inf"],
      ["infinity"], ["nan"] in any case, digits with ["_"] separators,
      fraction, exponent) with values in [Classifier.pyfloat]: a
      rational, an infinity or a nan; the comparisons of the rules follow
      IEEE.
    - The cells of the Commands sheet are strings ([nan] replaced by
      [""], line 228).  The colour sheets are read without that
      replacement (line 256), so an empty cell is a NaN key or value of
      [_colors] in the code; the model reads them as strings too, and so
      assumes colour sheets without empty cells.  The input sheets are
      given by their column names and the frame [tree_paint] builds from
      them, with numeric area and quality columns (a text quality column
      would make [mean()] raise, which the model does not represent).

    ** Not modelled

    The bytes of the workbook and the parsing done by pandas
    ([pd.read_excel], [pd.ExcelFile]): the model starts from the sheets'
    rows.  The external [kajsvg] canvas: the model stops at the drawing
    instructions and at the settings [tree_paint] makes on the canvas
    (paper, orientation, margins, title: [PaintCell.canvas_setup]); the
    text the canvas writes for them is not modelled.  Writing bytes to disk
    ([lib.save_as]): the model records the file's content in a store.
    Progress printing to [stdout].

    ** Possible extensions

    1. Level values of other types than strings (the month/date slices of
       line 118, where the author notes that [data_sorted[id:id]] comes
       out empty).
    2. A contract [treemap] strengthened with positive-weight cells, so
       that the area theorem [layout_areas] is proved once on the
       contract and carried to the splitter by the refinement. *)

From stdpp Require Export base list strings sets gmap.
From Stdlib Require Export QArith Qabs Qround Qminmax Lqa ZArith Sorted.

Declare Scope tetris_scope.
Delimit Scope tetris_scope with tetris.

(** ** Python-level failures

    The code of [tetris.py] can stop with an exception: [ValueError] from
    [float()] on a malformed threshold or from [int()] on a nan,
    [IndexError] from [borders[-1]], [ZeroDivisionError] from a division
    of a Python number by zero, [OverflowError] from [int()] on an
    infinity, [KeyError] from a dict or row lookup of a missing key.
    [NoGroupKeys] is the [ValueError("No group keys passed!")] pandas
    raises for [groupby([])]; the model keeps it apart from the other
    [ValueError]s so that the theorems can say it never happens (nothing
    in the script catches either).  [OutOfFuel] is not a Python
    exception: it is what the fuel-bounded models return when their fuel
    runs out, and the termination theorems show that the fuel the driver
    gives is always enough. *)
Inductive py_error :=
  | ValueError
  | NoGroupKeys
  | IndexError
  | ZeroDivisionError
  | OverflowError
  | KeyError
  | OutOfFuel.

#[export] Instance py_error_eq_dec : EqDecision py_error.
Proof. solve_decision. Defined.

Inductive result (A : Type) : Type :=
  | Ok (a : A)
  | Err (e : py_error).
Arguments Ok {A} a.
Arguments Err {A} e.

#[export] Instance result_ret : MRet result := λ A a, Ok a.
#[export] Instance result_bind : MBind result :=
  λ A B (f : A → result B) (m : result A),
    match m with Ok a => f a | Err e => Err e end.

(** Strict comparison of rationals as a boolean test ([a < b] in Python). *)
Definition Qlt_bool (a b : Q) : bool := negb (Qle_bool b a).

Lemma Qlt_bool_iff a b : Qlt_bool a b = true ↔ (a < b)%Q.
Proof.
  unfold Qlt_bool. rewrite negb_true_iff.
  split; intros H.
  - apply Qnot_le_lt. intros Hle. apply Qle_bool_iff in Hle. congruence.
  - destruct (Qle_bool b a) eqn:E; [|done].
    apply Qle_bool_iff in E. exfalso. eapply Qlt_not_le; eauto.
Qed.

Lemma Qlt_bool_false a b : Qlt_bool a b = false ↔ (b <= a)%Q.
Proof.
  unfold Qlt_bool. rewrite negb_false_iff. apply Qle_bool_iff.
Qed.

Lemma Qle_bool_false a b : Qle_bool a b = false ↔ (b < a)%Q.
Proof.
  split; intros H.
  - apply Qnot_le_lt. intros Hle. apply Qle_bool_iff in Hle. congruence.
  - destruct (Qle_bool a b) eqn:E; [|done].
    apply Qle_bool_iff in E. exfalso. eapply Qlt_not_le; eauto.
Qed.

#[export] Instance Qeq_decision (a b : Q) : Decision (a == b)%Q := Qeq_dec a b.
#[export] Instance Qlt_decision (a b : Q) : Decision (a < b)%Q :=
  match Qlt_le_dec a b with left H => left H | right H => right (Qle_not_lt b a H) end.

Notation "'raise' e" := (Err e) (at level 10) : tetris_scope.
Infix "<?q" := Qlt_bool (at level 70, no associativity) : tetris_scope.
Infix "<=?q" := Qle_bool (at level 70, no associativity) : tetris_scope.
Infix "==?q" := Qeq_bool (at level 70, no associativity) : tetris_scope.

Open Scope tetris_scope.

(** A result that is not the model's fuel exhaustion. *)
Definition not_out_of_fuel {A} (m : result A) : Prop := m ≠ Err OutOfFuel.

Create HintDb tetris discriminated.
Create Rewrite HintDb tetris_rw.

Section ResultLemmas.
Context {A B : Type}.

Lemma bind_Ok (m : result A) (f : A → result B) b :
  (m ≫= f) = Ok b ↔ ∃ a, m = Ok a ∧ f a = Ok b.
Proof.
  destruct m as [a|e]; simpl; split.
  - eauto.
  - intros (? & [= ->] & ?); done.
  - done.
  - by intros (? & ? & ?).
Qed.

(** An exception of [m ≫= f] comes from [m] or from [f]. *)
Lemma bind_Err (m : result A) (f : A → result B) e :
  (m ≫= f) = Err e → m = Err e ∨ ∃ a, m = Ok a ∧ f a = Err e.
Proof. destruct m; simpl; [right; eauto|intros [= ->]; by left]. Qed.

Lemma bind_ret (a : A) (f : A → result B) : (Ok a ≫= f) = f a.
Proof. done. Qed.

Lemma Ok_not_out_of_fuel (a : A) : not_out_of_fuel (Ok a).
Proof. by unfold not_out_of_fuel. Qed.

Lemma bind_not_out_of_fuel (m : result A) (f : A → result B) :
  not_out_of_fuel m → (∀ a, m = Ok a → not_out_of_fuel (f a)) →
  not_out_of_fuel (m ≫= f).
Proof. destruct m; simpl; unfold not_out_of_fuel in *; naive_solver. Qed.

(** Two computations that agree wherever the second does not run out of
    fuel: used to show that more fuel changes nothing. *)
Lemma bind_agree (m m' : result A) (k k' : A → result B) :
  (not_out_of_fuel m → m' = m) → (∀ a, not_out_of_fuel (k a) → k' a = k a) →
  not_out_of_fuel (m ≫= k) → (m' ≫= k') = (m ≫= k).
Proof.
  unfold not_out_of_fuel. intros Hm Hk Hn. destruct m as [a|e]; simpl in *.
  - rewrite Hm by done. simpl. by apply Hk.
  - rewrite Hm; [done|]. intros [= ->]. by apply Hn.
Qed.

(** A loop [mapM f l] whose body either returns [g x] or raises [e]
    raises [e] at the first element that fails, or returns [map g l]. *)
Lemma mapM_guarded (f : A → result B) (P : A → Prop) `{∀ x, Decision (P x)}
    (g : A → B) (e : py_error) l :
  (∀ x, x ∈ l → f x = if decide (P x) then Ok (g x) else Err e) →
  mapM f l = if decide (Forall P l) then Ok (map g l) else Err e.
Proof.
  induction l as [|x l IH]; intros Hf; [by rewrite decide_True|].
  cbn [mapM]. rewrite (Hf x) by set_solver. rewrite IH by (intros; apply Hf; set_solver).
  destruct (decide (P x)); simpl.
  - destruct (decide (Forall P l)); simpl.
    + by rewrite decide_True by by constructor.
    + rewrite decide_False; [done|]. intros [? ?]%Forall_cons; contradiction.
  - rewrite decide_False; [done|]. intros [? ?]%Forall_cons; contradiction.
Qed.
End ResultLemmas.

(** The exceptions a computation can raise are among [es]. *)
Definition raises_only {A} (es : list py_error) (m : result A) : Prop :=
  ∀ e, m = Err e → e ∈ es.

Lemma Ok_raises_only {A} es (a : A) : raises_only es (Ok a).
Proof. by intros e. Qed.

Lemma raise_raises_only {A} es e : e ∈ es → raises_only es (Err e : result A).
Proof. by intros He e' [= <-]. Qed.

Lemma bind_raises_only {A B} es (m : result A) (f : A → result B) :
  raises_only es m → (∀ a, m = Ok a → raises_only es (f a)) → raises_only es (m ≫= f).
Proof.
  intros Hm Hf e. destruct m as [a|e']; simpl; [by apply Hf|]. intros [= ->]. by apply Hm.
Qed.

Lemma raises_only_weaken {A} es es' (m : result A) :
  es ⊆ es' → raises_only es m → raises_only es' m.
Proof. intros Hs Hm e He. apply Hs, Hm, He. Qed.

(** A computation that raises only [es] and does not run out of fuel
    raises only the exceptions of [es] other than [OutOfFuel]. *)
Lemma raises_only_fuel {A} es (m : result A) :
  raises_only (OutOfFuel :: es) m → not_out_of_fuel m → raises_only es m.
Proof.
  intros Hm Hf e He. pose proof (Hm e He) as Hin.
  apply elem_of_cons in Hin as [->|Hin]; [|done]. exfalso. by apply Hf.
Qed.

Lemma mapM_raises_only {A B} es (f : A → result B) l :
  (∀ x, raises_only es (f x)) → raises_only es (mapM f l).
Proof.
  intros Hf. induction l as [|x l IH]; cbn [mapM]; [by intros ?|].
  apply bind_raises_only; [done|]. intros.
  apply bind_raises_only; [done|]. by intros ??.
Qed.

Lemma raises_only_not_out_of_fuel {A} es (m : result A) :
  OutOfFuel ∉ es → raises_only es m → not_out_of_fuel m.
Proof. intros Hn Hm He. by apply Hn, Hm. Qed.

#[export] Hint Resolve Ok_raises_only raise_raises_only mapM_raises_only : tetris.
#[export] Hint Extern 2 (_ ∈ _) => set_solver : tetris.
#[export] Hint Extern 2 (_ ⊆ _) => set_solver : tetris.

(** [omap id] after a map that keeps the elements passing a test is the
    filter of the mapped list. *)
Lemma omap_keep {A B} (P : B → Prop) `{∀ y, Decision (P y)} (h : A → B) l :
  omap id (map (λ x, if decide (P (h x)) then Some (h x) else None) l) = filter P (map h l).
Proof.
  induction l as [|x l IH]; [done|]. cbn [map].
  destruct (decide (P (h x))).
  - rewrite filter_cons_True by done. rewrite <- IH. done.
  - rewrite filter_cons_False by done. rewrite <- IH. done.
Qed.

#[export] Hint Rewrite @bind_ret : tetris_rw.
#[export] Hint Resolve Ok_not_out_of_fuel : tetris.

(** Invert every [m ≫= f = Ok b] hypothesis into its two halves. *)
Ltac inv_bind :=
  repeat match goal with
  | H : (_ ≫= _) = Ok _ |- _ =>
      apply bind_Ok in H; destruct H as (? & ? & H); cbv beta in H
  | H : Ok _ = Ok _ |- _ => injection H as H
  end.

(** ** Sums of rationals *)

Open Scope Q_scope.

Definition qsum (l : list Q) : Q := foldr Qplus 0 l.

Lemma qsum_nil : qsum [] = 0.
Proof. done. Qed.

Lemma qsum_cons q l : qsum (q :: l) = q + qsum l.
Proof. done. Qed.

Lemma qsum_app l1 l2 : qsum (l1 ++ l2) == qsum l1 + qsum l2.
Proof. induction l1 as [|q l1 IH]; simpl; [lra|]. rewrite IH. lra. Qed.

Lemma qsum_perm l1 l2 : l1 ≡ₚ l2 → qsum l1 == qsum l2.
Proof.
  induction 1 as [|q l1 l2 _ IH|q1 q2 l|l1 l2 l3 _ IH1 _ IH2]; simpl.
  - reflexivity.
  - rewrite IH. reflexivity.
  - lra.
  - by rewrite IH1, IH2.
Qed.

Lemma qsum_nonneg l : Forall (Qle 0) l → 0 <= qsum l.
Proof. induction 1; simpl; lra. Qed.

Lemma qsum_nonneg_zero l :
  Forall (Qle 0) l → qsum l <= 0 → Forall (λ q, q == 0) l.
Proof.
  induction 1 as [|q l Hq Hl IH]; simpl; intros Hs; constructor.
  - pose proof (qsum_nonneg l Hl). lra.
  - apply IH. pose proof (qsum_nonneg l Hl). lra.
Qed.

Lemma qsum_zero l : Forall (λ q, q == 0) l → qsum l == 0.
Proof. induction 1; simpl; lra. Qed.

Lemma qsum_concat ls : qsum (concat ls) == qsum (map qsum ls).
Proof. induction ls as [|l ls IH]; simpl; [lra|]. rewrite qsum_app, IH. lra. Qed.

#[export] Hint Resolve qsum_nonneg qsum_perm : tetris.

(** ** A stable insertion sort

    Python's [sorted] and the pandas sorts used by the program are
    modelled by one stable insertion sort, parameterised by the strict
    "must come before" test [before]: an element is inserted after every
    element that must come before it and before all the others, so that
    equal elements keep their input order (Python's [sorted] with
    [reverse=True] is stable in the same sense). *)
Section SortBy.
Context {A : Type} (before : A → A → bool).

Fixpoint insert_by (x : A) (l : list A) : list A :=
  match l with
  | [] => [x]
  | y :: ys => if before y x then y :: insert_by x ys else x :: y :: ys
  end.

Fixpoint sort_by (l : list A) : list A :=
  match l with
  | [] => []
  | x :: xs => insert_by x (sort_by xs)
  end.

Lemma insert_by_perm x l : insert_by x l ≡ₚ x :: l.
Proof.
  induction l as [|y ys IH]; simpl; [done|].
  destruct (before y x); [|done].
  rewrite IH. apply perm_swap.
Qed.

Lemma sort_by_perm l : sort_by l ≡ₚ l.
Proof.
  induction l as [|x xs IH]; simpl; [done|].
  by rewrite insert_by_perm, IH.
Qed.

Lemma sort_by_length l : length (sort_by l) = length l.
Proof. apply Permutation_length, sort_by_perm. Qed.

(** Stability: on a class of elements none of which must come before
    another, the sort keeps the input order. *)
Section Stable.
Context (P : A → Prop) `{∀ x, Decision (P x)}.
Hypothesis P_tied : ∀ x y, P x → P y → before y x = false.

Lemma filter_insert_by x l : filter P (insert_by x l) = filter P (x :: l).
Proof.
  induction l as [|y ys IH]; [done|]. cbn [insert_by].
  destruct (before y x) eqn:E; [|done].
  rewrite !filter_cons, IH, !filter_cons.
  repeat case_decide; try done.
  exfalso. rewrite P_tied in E; done.
Qed.

Lemma filter_sort_by l : filter P (sort_by l) = filter P l.
Proof.
  induction l as [|x xs IH]; [done|]. cbn [sort_by].
  by rewrite filter_insert_by, !filter_cons, IH.
Qed.
End Stable.

Hypothesis before_asym : ∀ a b, before a b = true → before b a = false.

Lemma insert_by_sorted x l :
  Sorted (λ a b, before b a = false) l →
  Sorted (λ a b, before b a = false) (insert_by x l).
Proof.
  induction 1 as [|y ys Hs IH Hhd]; simpl; [repeat constructor|].
  destruct (before y x) eqn:Eyx.
  - constructor; [done|].
    destruct ys as [|z zs]; simpl in *; [constructor; by apply before_asym|].
    inversion Hhd; subst.
    destruct (before z x); constructor; [done|by apply before_asym].
  - repeat constructor; done.
Qed.

Lemma sort_by_sorted l : Sorted (λ a b, before b a = false) (sort_by l).
Proof. induction l; simpl; [constructor|]. by apply insert_by_sorted. Qed.
End SortBy.

(** ** Generic list facts *)

Lemma filter_all {A} (P : A → Prop) `{∀ x, Decision (P x)} (l : list A) :
  (∀ x, x ∈ l → P x) → filter P l = l.
Proof.
  induction l as [|x l IH]; intros Hall; [done|].
  rewrite filter_cons_True by (apply Hall; by left).
  f_equal. apply IH. intros y Hy. apply Hall. by right.
Qed.

Lemma qsum_nonpos l : Forall (λ q, q <= 0) l → qsum l <= 0.
Proof. induction 1; simpl; lra. Qed.

Lemma Sorted_weaken {A} (R1 R2 : A → A → Prop) (l : list A) :
  (∀ a b, R1 a b → R2 a b) → Sorted R1 l → Sorted R2 l.
Proof.
  intros HR. induction 1 as [|x l _ IH Hhd]; constructor; [done|].
  destruct Hhd; constructor. by apply HR.
Qed.

Lemma concat_map_perm {A B} (f : A → list B) (l1 l2 : list A) :
  l1 ≡ₚ l2 → concat (map f l1) ≡ₚ concat (map f l2).
Proof.
  induction 1; simpl; try done.
  - by f_equiv.
  - solve_Permutation.
  - by etrans.
Qed.

(** ** Python dicts: the last write wins

    A dict filled by a loop of [d[k] = v] is a left fold of [insert] over
    the list of writes.  The reference lookup [assoc_find] reads an
    association list from its head; on the reversed list of writes it
    returns the value of the last write. *)

Section LastWins.
Context {K V : Type} `{Countable K}.

Fixpoint assoc_find (k : K) (l : list (K * V)) : option V :=
  match l with
  | [] => None
  | (k', v) :: l' => if decide (k = k') then Some v else assoc_find k l'
  end.

Definition insert_all (m : gmap K V) (l : list (K * V)) : gmap K V :=
  foldl (λ m kv, <[kv.1 := kv.2]> m) m l.

Lemma assoc_find_app k l1 l2 :
  assoc_find k (l1 ++ l2) = match assoc_find k l1 with Some v => Some v | None => assoc_find k l2 end.
Proof. induction l1 as [|[k' v] l1 IH]; simpl; [done|]. by case_decide. Qed.

Lemma insert_all_app m l1 l2 : insert_all m (l1 ++ l2) = insert_all (insert_all m l1) l2.
Proof. unfold insert_all. by rewrite foldl_app. Qed.

Lemma insert_all_lookup m l k :
  insert_all m l !! k = match assoc_find k (reverse l) with Some v => Some v | None => m !! k end.
Proof.
  revert m. induction l as [|[k' v] l IH]; intros m; [done|].
  change (insert_all m ((k', v) :: l)) with (insert_all (<[k' := v]> m) l).
  rewrite IH, reverse_cons, assoc_find_app. simpl.
  destruct (assoc_find k (reverse l)); [done|].
  case_decide as Hk; [subst; apply lookup_insert_eq|by apply lookup_insert_ne].
Qed.
Lemma assoc_find_elem k l v : assoc_find k l = Some v → (k, v) ∈ l.
Proof.
  induction l as [|[k' v'] l IH]; simpl; [done|].
  case_decide; [intros [= <-]; subst; by left|intros; right; auto].
Qed.

(** The dict filled from an empty one maps a key to its last write. *)
Lemma insert_all_empty_lookup l k : insert_all ∅ l !! k = assoc_find k (reverse l).
Proof. rewrite insert_all_lookup, lookup_empty. by destruct (assoc_find k (reverse l)). Qed.

(** A key of the dict filled from an empty one was written by the loop. *)
Lemma insert_all_empty_elem l k v : insert_all ∅ l !! k = Some v → (k, v) ∈ l.
Proof. rewrite insert_all_empty_lookup. intros E. apply elem_of_reverse, assoc_find_elem, E. Qed.
End LastWins.

(** Pairs of a concatenation: the pairs within each part and the pairs
    across the two parts. *)
Lemma ForallOrdPairs_app {A} (R : A → A → Prop) l1 l2 :
  ForallOrdPairs R l1 → ForallOrdPairs R l2 → Forall (λ x, Forall (R x) l2) l1 →
  ForallOrdPairs R (l1 ++ l2).
Proof.
  induction 1 as [|a l1 Ha Hl1 IH]; intros H2 Hx; simpl; [done|].
  apply Forall_cons in Hx as [Hal2 Hl1'].
  constructor; [apply Forall_app; by split|by apply IH].
Qed.

(** Pairwise properties carry over along a pointwise correspondence. *)
Lemma ForallOrdPairs_transport {A B} (R : A → A → Prop) (R' : B → B → Prop)
    (E : A → B → Prop) l1 l2 :
  (∀ a a' b b', E a b → E a' b' → R' b b' → R a a') →
  Forall2 E l1 l2 → ForallOrdPairs R' l2 → ForallOrdPairs R l1.
Proof.
  intros HE H12. induction H12 as [|a b l1 l2 Hab H12 IH]; intros H2; [constructor|].
  inversion H2 as [|? ? Hb H2']; subst. constructor; [|by apply IH].
  clear IH H2 H2'. induction H12; inversion Hb; constructor; eauto.
Qed.

(** A half of a splitter node is recursed into when its weight is
    positive and is empty otherwise: a property of the empty output and
    of the recursive output holds of the half. *)
Lemma half_cases {A} (P : list A → Prop) (t : Q) s :
  P [] → (0 < t → P s) → (t <= 0 → s = []) → P s.
Proof. intros Hnil IH Hs. destruct (Qlt_le_dec 0 t); [auto|]. by rewrite Hs. Qed.
