(* ===== verification/Table.v ===== *)
(** * The record table and the hierarchy grouper

    The pandas [DataFrame] that [tree_paint] builds ([data = df[cols]
    .set_index(levels)], [src/tetris.py] lines 61-65) is modelled as a
    list of rows.  A row carries the values of all grouping levels of the
    job, outermost first (the MultiIndex), its area weight and its quality
    value.  Level values are strings compared as Python compares [str]
    (code point by code point, [String.compare]), and index tuples are
    compared lexicographically, as pandas sorts a MultiIndex.

    The pandas operations [split_into_subtrees] uses are defined here:
    [data.sort_index()] (line 91), the group names of [groupby] (lines 97
    and 104, sorted and without duplicates), the per-group sums of the
    area column (lines 103-105) and the slice [data_sorted[id:id]] that
    selects one group (line 118). *)

From S2P Require Import Prelude.

Open Scope Q_scope.

(** ** Keys *)

Definition key := list string.

(** Lexicographic order of index tuples, on top of [String.compare]. *)
Fixpoint key_compare (a b : key) : comparison :=
  match a, b with
  | [], [] => Eq
  | [], _ :: _ => Lt
  | _ :: _, [] => Gt
  | x :: a', y :: b' =>
      match String.compare x y with
      | Eq => key_compare a' b'
      | c => c
      end
  end.

Definition key_before (a b : key) : bool :=
  match key_compare a b with Lt => true | _ => false end.

Lemma key_compare_antisym a b : key_compare a b = CompOpp (key_compare b a).
Proof.
  revert b; induction a as [|x a IH]; intros [|y b]; simpl; try done.
  rewrite (String.compare_antisym x y).
  destruct (String.compare y x); simpl; auto.
Qed.

Lemma key_before_asym a b : key_before a b = true → key_before b a = false.
Proof.
  unfold key_before. rewrite (key_compare_antisym b a).
  destruct (key_compare a b); done.
Qed.

(** ** Rows *)

Record row := mkRow {
  r_keys : list string;   (** the MultiIndex: one value per level *)
  r_area : Q;             (** the [area] column *)
  r_quality : Q           (** the [quality] column *)
}.

(** The index restricted to the first [n] levels: the group a row
    belongs to when grouping by [levels[0:n]]. *)
Definition prefix (n : nat) (r : row) : key := take n (r_keys r).

(** Sum of the area column over a set of rows ([group.sum()]). *)
Definition weight (rs : list row) : Q := qsum (map r_area rs).

(** [data.sort_index()]: rows in lexicographic order of their index. *)
Definition sort_index (data : list row) : list row :=
  sort_by (λ y x, key_before (r_keys y) (r_keys x)) data.

(** The group names of [data.groupby(levels[0:n])]: the distinct
    index prefixes, in sorted order. *)
Definition group_names (n : nat) (data : list row) : list key :=
  sort_by key_before (remove_dups (map (prefix n) data)).

(** [data_sorted[id:id]]: the rows of one group. *)
Definition group_slice (n : nat) (name : key) (data : list row) : list row :=
  filter (λ r, prefix n r = name) data.

(** Lines 103-105: [(group.sum(), name)] for every group, in group order. *)
Definition chunksizes (n : nat) (data : list row) : list (Q * key) :=
  map (λ name, (weight (group_slice n name data), name)) (group_names n data).

(** All rows agree on their first [n] index values. *)
Definition shares_prefix (n : nat) (data : list row) : Prop :=
  ∀ r1 r2, r1 ∈ data → r2 ∈ data → prefix n r1 = prefix n r2.

(** ** Weights *)

Lemma weight_app rs1 rs2 : weight (rs1 ++ rs2) == weight rs1 + weight rs2.
Proof. unfold weight. rewrite map_app. apply qsum_app. Qed.

Lemma weight_perm rs1 rs2 : rs1 ≡ₚ rs2 → weight rs1 == weight rs2.
Proof. intros H. unfold weight. apply qsum_perm. by rewrite H. Qed.

Lemma weight_nonneg rs : Forall (λ r, 0 <= r_area r) rs → 0 <= weight rs.
Proof. intros H. apply qsum_nonneg. by rewrite Forall_map. Qed.

Lemma weight_concat rss : weight (concat rss) == qsum (map weight rss).
Proof.
  induction rss as [|rs rss IH]; simpl; [reflexivity|].
  rewrite weight_app, IH. reflexivity.
Qed.

(** Rows of zero total weight, when all weights are non-negative, all
    weigh zero. *)
Lemma weight_nonpos_zero rs :
  Forall (λ r, 0 <= r_area r) rs → weight rs <= 0 → Forall (λ r, r_area r == 0) rs.
Proof.
  intros Hn Hw. pose proof (qsum_nonneg_zero (map r_area rs)) as H.
  rewrite !Forall_map in H. by apply H.
Qed.

#[export] Hint Resolve weight_nonneg weight_perm : tetris.

(** ** Groups *)

Lemma elem_of_group_names n name data :
  name ∈ group_names n data ↔ ∃ r, r ∈ data ∧ prefix n r = name.
Proof.
  unfold group_names. rewrite (sort_by_perm _ _).
  rewrite elem_of_remove_dups. change (map (prefix n) data) with (prefix n <$> data).
  rewrite list_elem_of_fmap. naive_solver.
Qed.

Lemma NoDup_group_names n data : NoDup (group_names n data).
Proof.
  unfold group_names. rewrite (sort_by_perm _ _). apply NoDup_remove_dups.
Qed.

Lemma group_names_perm n d1 d2 :
  d1 ≡ₚ d2 → group_names n d1 ≡ₚ group_names n d2.
Proof.
  intros Hp. apply NoDup_Permutation; try apply NoDup_group_names.
  intros name. rewrite !elem_of_group_names. by setoid_rewrite Hp.
Qed.

Lemma group_slice_perm n name d1 d2 :
  d1 ≡ₚ d2 → group_slice n name d1 ≡ₚ group_slice n name d2.
Proof. intros Hp. unfold group_slice. by rewrite Hp. Qed.

Lemma sort_index_perm data : sort_index data ≡ₚ data.
Proof. apply sort_by_perm. Qed.

Lemma group_slice_nonempty n name data :
  name ∈ group_names n data → group_slice n name data ≠ [].
Proof.
  rewrite elem_of_group_names. intros (r & Hr & Hk) Hnil.
  assert (r ∈ group_slice n name data) as Hin.
  { unfold group_slice. by apply list_elem_of_filter. }
  rewrite Hnil in Hin. by apply not_elem_of_nil in Hin.
Qed.

Lemma group_slice_shares n name data : shares_prefix n (group_slice n name data).
Proof.
  intros r1 r2. unfold group_slice. rewrite !list_elem_of_filter. naive_solver.
Qed.

(** The slices of a list of distinct group names split the rows whose
    group is one of the names. *)
Lemma concat_slices_filter n names data :
  NoDup names →
  concat (map (λ name, group_slice n name data) names)
    ≡ₚ filter (λ r, prefix n r ∈ names) data.
Proof.
  induction 1 as [|name names Hnotin Hnd IH]; simpl.
  { induction data as [|r data IHd]; simpl; [done|].
    rewrite filter_cons. case_decide as Hin; [by apply not_elem_of_nil in Hin|done]. }
  rewrite IH. unfold group_slice. clear IH Hnd.
  induction data as [|r data IHd]; simpl; [done|].
  rewrite !filter_cons.
  repeat case_decide; simpl;
    first [exfalso; set_solver | by rewrite IHd
          | by rewrite <- Permutation_middle, IHd].
Qed.

(** Grouping loses no row: the groups of [data] concatenated are a
    permutation of [data]. *)
Lemma concat_group_slices n data :
  concat (map (λ name, group_slice n name data) (group_names n data)) ≡ₚ data.
Proof.
  rewrite concat_slices_filter by apply NoDup_group_names.
  rewrite filter_all; [done|].
  intros r Hr. apply elem_of_group_names. eauto.
Qed.

Lemma group_names_nonempty n data : data ≠ [] → group_names n data ≠ [].
Proof.
  destruct data as [|r data']; [done|]. intros _ Hnil.
  assert (prefix n r ∈ group_names n (r :: data')) as Hin
    by (apply elem_of_group_names; exists r; split; [left|done]).
  rewrite Hnil in Hin. by apply not_elem_of_nil in Hin.
Qed.

Lemma shares_prefix_sub n d d' :
  shares_prefix n d → (∀ x, x ∈ d' → x ∈ d) → shares_prefix n d'.
Proof. intros H Hsub r1 r2 H1 H2. apply H; auto. Qed.

(** A single group name: all rows are in that group. *)
Lemma single_group_shares n data :
  length (group_names n data) = 1%nat → shares_prefix n data.
Proof.
  intros Hl r1 r2 H1 H2.
  assert (prefix n r1 ∈ group_names n data) as G1 by (apply elem_of_group_names; eauto).
  assert (prefix n r2 ∈ group_names n data) as G2 by (apply elem_of_group_names; eauto).
  destruct (group_names n data) as [|k [|]]; simpl in Hl; try lia.
  apply list_elem_of_singleton in G1, G2. congruence.
Qed.
