(* ===== verification/Greedy.v ===== *)
(** * The greedy two-bucket split

    Lines 106 and 110-126 of [src/tetris.py]: the chunks [(size, name)]
    are sorted by size, largest first ([sorted(..., reverse=True)], a
    stable sort), and then dealt one by one to the bucket whose running
    total is smaller, ties going to the first bucket
    ([if tree_1_size <= tree_2_size]).  Each bucket accumulates the rows
    of its chunks ([data_1 = pd.concat([data_1, this_data])]).

    The loop is generic in the payload of a chunk: [this_data id] is what
    gets appended for the chunk named [id] (in the splitter, the slice
    [data_sorted[id:id]]). *)

From S2P Require Import Prelude.

Open Scope Q_scope.

Section Greedy.
Context {K A : Type} (this_data : K → list A).

(** The loop state: the four variables of lines 110-112. *)
Record buckets := mkBuckets {
  tree_1_size : Q;
  data_1 : list A;
  tree_2_size : Q;
  data_2 : list A
}.

Definition empty_buckets : buckets := mkBuckets 0 [] 0 [].

(** One iteration of the [for chunk in sorted_chunks] loop. *)
Definition place_chunk (b : buckets) (chunk : Q * K) : buckets :=
  let '(size, id) := chunk in
  if tree_1_size b <=?q tree_2_size b
  then mkBuckets (tree_1_size b + size) (data_1 b ++ this_data id)
                 (tree_2_size b) (data_2 b)
  else mkBuckets (tree_1_size b) (data_1 b)
                 (tree_2_size b + size) (data_2 b ++ this_data id).

Definition fill_buckets (sorted_chunks : list (Q * K)) : buckets :=
  foldl place_chunk empty_buckets sorted_chunks.

(** Everything the chunks carry, in chunk order. *)
Definition chunk_rows (chunks : list (Q * K)) : list A :=
  concat (map (λ c, this_data (snd c)) chunks).

Definition chunk_total (chunks : list (Q * K)) : Q := qsum (map fst chunks).

(** The largest chunk size (0 for no chunk). *)
Definition max_size (chunks : list (Q * K)) : Q :=
  foldr (λ c m, Qmax (fst c) m) 0 chunks.

(** ** Totals and payloads *)

Lemma place_chunk_total b c :
  tree_1_size (place_chunk b c) + tree_2_size (place_chunk b c)
    == tree_1_size b + tree_2_size b + fst c.
Proof.
  destruct c as [size id]; unfold place_chunk.
  destruct (_ <=?q _); simpl; lra.
Qed.

Lemma foldl_place_total chunks b :
  tree_1_size (foldl place_chunk b chunks) + tree_2_size (foldl place_chunk b chunks)
    == tree_1_size b + tree_2_size b + chunk_total chunks.
Proof.
  revert b; induction chunks as [|c chunks IH]; intros b; simpl; unfold chunk_total in *; simpl.
  - lra.
  - rewrite IH, place_chunk_total. lra.
Qed.

Lemma foldl_place_rows chunks b :
  data_1 (foldl place_chunk b chunks) ++ data_2 (foldl place_chunk b chunks)
    ≡ₚ data_1 b ++ data_2 b ++ chunk_rows chunks.
Proof.
  unfold chunk_rows.
  revert b; induction chunks as [|[size id] chunks IH]; intros b; cbn [foldl map concat].
  - by rewrite app_nil_r.
  - rewrite IH. unfold place_chunk. destruct (_ <=?q _); simpl; solve_Permutation.
Qed.

(** Each bucket only grows. *)
Lemma foldl_place_extends chunks b :
  ∃ e1 e2, data_1 (foldl place_chunk b chunks) = data_1 b ++ e1 ∧
           data_2 (foldl place_chunk b chunks) = data_2 b ++ e2.
Proof.
  revert b; induction chunks as [|[size id] chunks IH]; intros b; cbn [foldl].
  - exists [], []. by rewrite !app_nil_r.
  - destruct (IH (place_chunk b (size, id))) as (e1 & e2 & -> & ->).
    unfold place_chunk. destruct (_ <=?q _); simpl.
    + exists (this_data id ++ e1), e2. by rewrite <- !(assoc_L (++)).
    + exists e1, (this_data id ++ e2). by rewrite <- !(assoc_L (++)).
Qed.

(** While the second bucket stays empty of rows, its total does not
    move (chunks carry at least one row each). *)
Lemma foldl_place_data_2_nil chunks b :
  Forall (λ c, this_data (snd c) ≠ []) chunks →
  data_2 (foldl place_chunk b chunks) = [] →
  tree_2_size (foldl place_chunk b chunks) = tree_2_size b ∧ data_2 b = [].
Proof.
  intros Hall; revert b; induction Hall as [|[size id] chunks Hne _ IH]; intros b Hd;
    cbn [foldl] in *.
  - done.
  - destruct (IH _ Hd) as [-> Hd2]. unfold place_chunk in *.
    destruct (_ <=?q _); simpl in *; [done|].
    apply app_eq_nil in Hd2 as [_ ?]. done.
Qed.

Lemma max_size_ge chunks : Forall (λ c, fst c <= max_size chunks) chunks.
Proof.
  induction chunks as [|c chunks IH]; simpl; constructor.
  - apply Q.le_max_l.
  - eapply Forall_impl; [exact IH|]. intros c' H. simpl in H.
    eapply Qle_trans; [exact H|]. apply Q.le_max_r.
Qed.

Lemma max_size_nonneg chunks : 0 <= max_size chunks.
Proof.
  induction chunks as [|c chunks IH]; simpl; [lra|].
  eapply Qle_trans; [exact IH|]. apply Q.le_max_r.
Qed.

(** The invariant of the balance bound: the difference of the two
    totals never exceeds a bound on the chunk sizes. *)
Lemma foldl_place_balance chunks b M :
  Forall (λ c, 0 <= fst c <= M) chunks →
  - M <= tree_1_size b - tree_2_size b <= M →
  - M <= tree_1_size (foldl place_chunk b chunks) - tree_2_size (foldl place_chunk b chunks) <= M.
Proof.
  intros Hall; revert b; induction Hall as [|[size id] chunks Hc _ IH]; intros b Hb; simpl; [done|].
  apply IH. simpl in Hc. unfold place_chunk.
  destruct (_ <=?q _) eqn:E; simpl.
  - apply Qle_bool_iff in E. lra.
  - apply Qle_bool_false in E. lra.
Qed.

(** The first chunk always goes to the first bucket. *)
Lemma place_first (size : Q) (id : K) :
  place_chunk empty_buckets (size, id) = mkBuckets (0 + size) ([] ++ this_data id) 0 [].
Proof. done. Qed.

(** If the second chunk of a descending list still goes to the first
    bucket, the first chunk, and so every chunk, weighs at most 0: the
    first bucket ends with a total of at most 0. *)
Lemma fill_buckets_all_first c1 c2 rest :
  StronglySorted (λ a b, fst b <= fst a) (c1 :: c2 :: rest) →
  Forall (λ c, this_data (snd c) ≠ []) (c2 :: rest) →
  data_2 (fill_buckets (c1 :: c2 :: rest)) = [] →
  tree_1_size (fill_buckets (c1 :: c2 :: rest)) <= 0.
Proof.
  intros Hs Hne Hd. destruct c1 as [s1 id1].
  change (fill_buckets ((s1, id1) :: c2 :: rest))
    with (foldl place_chunk (place_chunk empty_buckets (s1, id1)) (c2 :: rest)) in *.
  set (b1 := place_chunk empty_buckets (s1, id1)) in *.
  assert (tree_1_size b1 == s1 ∧ tree_2_size b1 = 0 ∧ data_2 b1 = [])
    as (Hb1 & Hb2 & Hd1) by (subst b1; simpl; split; [lra|done]).
  destruct (foldl_place_data_2_nil _ _ Hne Hd) as [Ht2 _].
  assert (s1 <= 0) as Hs1.
  { destruct c2 as [s2 id2].
    change (foldl place_chunk b1 ((s2, id2) :: rest))
      with (foldl place_chunk (place_chunk b1 (s2, id2)) rest) in Hd.
    destruct (foldl_place_extends rest (place_chunk b1 (s2, id2))) as (e1 & e2 & _ & He2).
    rewrite He2 in Hd. apply app_eq_nil in Hd as [Hd _].
    unfold place_chunk in Hd.
    destruct (tree_1_size b1 <=?q tree_2_size b1) eqn:E.
    - apply Qle_bool_iff in E. rewrite Hb2 in E. lra.
    - rewrite Hd1 in Hd. simpl in Hd.
      inversion Hne as [|? ? Hc2 _]; subst. simpl in *. contradiction. }
  pose proof (foldl_place_total (c2 :: rest) b1) as Htot. rewrite Ht2, Hb2 in Htot.
  apply StronglySorted_inv in Hs as [_ Hall]. simpl in Hall.
  assert (chunk_total (c2 :: rest) <= 0).
  { apply qsum_nonpos. rewrite Forall_map.
    eapply Forall_impl; [exact Hall|]. intros c Hc. simpl in Hc. lra. }
  lra.
Qed.

(** The running totals are the weights of the rows each bucket holds,
    for any additive weight that gives each chunk its size. *)
Section Weights.
Context (w : list A → Q).
Hypothesis w_nil : w [] == 0.
Hypothesis w_app : ∀ l1 l2, w (l1 ++ l2) == w l1 + w l2.

Lemma foldl_place_weights chunks b :
  Forall (λ c, fst c == w (this_data (snd c))) chunks →
  tree_1_size b == w (data_1 b) → tree_2_size b == w (data_2 b) →
  tree_1_size (foldl place_chunk b chunks) == w (data_1 (foldl place_chunk b chunks)) ∧
  tree_2_size (foldl place_chunk b chunks) == w (data_2 (foldl place_chunk b chunks)).
Proof.
  intros Hall; revert b; induction Hall as [|[size id] chunks Hc _ IH];
    intros b H1 H2; cbn [foldl]; [done|].
  apply IH; unfold place_chunk; destruct (_ <=?q _); simpl in *;
    rewrite ?w_app; lra.
Qed.

Lemma fill_buckets_weights chunks :
  Forall (λ c, fst c == w (this_data (snd c))) chunks →
  tree_1_size (fill_buckets chunks) == w (data_1 (fill_buckets chunks)) ∧
  tree_2_size (fill_buckets chunks) == w (data_2 (fill_buckets chunks)).
Proof. intros H. apply foldl_place_weights; simpl; [done| |]; by rewrite w_nil. Qed.
End Weights.
End Greedy.

Arguments buckets : clear implicits.

(** [sorted(chunksizes, key = lambda x: x[0], reverse=True)]. *)
Definition sort_chunks {K} (chunks : list (Q * K)) : list (Q * K) :=
  sort_by (λ y x, fst x <?q fst y) chunks.

Lemma sort_chunks_perm {K} (chunks : list (Q * K)) : sort_chunks chunks ≡ₚ chunks.
Proof. apply sort_by_perm. Qed.

Lemma sort_chunks_sorted {K} (chunks : list (Q * K)) :
  StronglySorted (λ a b, fst b <= fst a) (sort_chunks chunks).
Proof.
  apply Sorted_StronglySorted; [intros a b c ? ?; lra|].
  eapply Sorted_weaken; [|apply sort_by_sorted].
  - intros a b H. by apply Qlt_bool_false in H.
  - intros a b H%Qlt_bool_iff. apply Qlt_bool_false. lra.
Qed.

Section GreedyTheorems.
Context {K A : Type} (this_data : K → list A).

(** C8. The greedy deal conserves the chunks: the two bucket totals add
    up to the total size of the chunks, and the two buckets together
    hold exactly the rows of all chunks. *)
Theorem greedy_conservation (chunks : list (Q * K)) :
  tree_1_size (fill_buckets this_data chunks) + tree_2_size (fill_buckets this_data chunks)
    == chunk_total chunks ∧
  data_1 (fill_buckets this_data chunks) ++ data_2 (fill_buckets this_data chunks)
    ≡ₚ chunk_rows this_data chunks.
Proof.
  split.
  - unfold fill_buckets. rewrite foldl_place_total. simpl. lra.
  - unfold fill_buckets. by rewrite foldl_place_rows.
Qed.

(** C7. Greedy balance (the longest-processing-time bound): for chunks
    of non-negative size, the two bucket totals differ by at most the
    largest chunk size. *)
Theorem greedy_balance (chunks : list (Q * K)) :
  Forall (λ c, 0 <= fst c) chunks →
  Qabs (tree_1_size (fill_buckets this_data chunks)
        - tree_2_size (fill_buckets this_data chunks)) <= max_size chunks.
Proof.
  intros Hnn. apply Qabs_Qle_condition.
  apply foldl_place_balance.
  - apply Forall_and. split; [done|apply max_size_ge].
  - pose proof (max_size_nonneg chunks). simpl. lra.
Qed.
End GreedyTheorems.

(** C10. [sorted(chunksizes, key=lambda x: x[0], reverse=True)]: the
    result is a permutation of the chunks, in non-increasing order of
    size, and chunks of equal size keep their input order (Python's sort
    is stable, also with [reverse=True]). *)
Theorem sort_chunks_spec {K} (chunks : list (Q * K)) :
  sort_chunks chunks ≡ₚ chunks ∧
  StronglySorted (λ a b, fst b <= fst a) (sort_chunks chunks) ∧
  ∀ q, filter (λ c, fst c == q) (sort_chunks chunks) = filter (λ c, fst c == q) chunks.
Proof.
  split; [apply sort_chunks_perm|]. split; [apply sort_chunks_sorted|].
  intros q. apply filter_sort_by.
  intros x y Hx Hy. apply Qlt_bool_false. rewrite Hx, Hy. apply Qle_refl.
Qed.

(** Witness of [greedy_balance]: chunks 5, 3, 3 end in buckets 5 and 6. *)
Lemma greedy_balance_witness :
  Forall (λ c : Q * string, 0 <= fst c) [(5, "a"); (3, "b"); (3, "c")] ∧
  Qabs (tree_1_size (fill_buckets (λ _ : string, [] : list nat) [(5, "a"); (3, "b"); (3, "c")])
        - tree_2_size (fill_buckets (λ _ : string, [] : list nat) [(5, "a"); (3, "b"); (3, "c")]))
    <= max_size [(5, "a"); (3, "b"); (3, "c")].
Proof.
  split; [repeat constructor; simpl; lra|].
  apply greedy_balance. repeat constructor; simpl; lra.
Defined.
