(* ===== verification/Region.v ===== *)
(** * Regions and their bisection

    A region is the rectangle [(x0, y0, x1, y1)] that [split_into_subtrees]
    and [paint_cell] receive as four numbers ([src/tetris.py] lines 74,
    146).  Lines 129-143 cut it in two at [first_share] of its height
    (portrait: [aspect_ratio > 1]) or of its width (otherwise).

    Coordinates are rationals: the program computes them in floating
    point, and the theorems below hold for exact arithmetic (they hold up
    to rounding for floats).  [aspect_ratio] divides by the width; the
    model divides in [Q], where dividing by 0 gives 0, while numpy gives
    an infinity and Python raises.  The width is never 0 on the regions the splitter
    reaches when the weights are non-negative ([Splitter.layout_valid]),
    so the two agree on every run the theorems speak about. *)

From S2P Require Import Prelude.

Open Scope Q_scope.

(** The four coordinates, and whether the bounds on each axis hold a
    numpy float: [x_numpy] when [x0] or [x1] is one, [y_numpy] when [y0]
    or [y1] is one.  The driver passes Python numbers (lines 29-37); the
    cut coordinates [x_mid] and [y_mid] are numpy floats, because the
    bucket totals and so [first_share] are numpy scalars (lines 106-129).
    The kind decides what a division by zero does (numpy gives an
    infinity or a nan, Python raises), which matters in [fit_label]. *)
Record region := mkRegion {
  x0 : Q; y0 : Q; x1 : Q; y1 : Q;
  x_numpy : bool; y_numpy : bool
}.

Definition width (r : region) : Q := x1 r - x0 r.
Definition height (r : region) : Q := y1 r - y0 r.
Definition area (r : region) : Q := width r * height r.

(** [x0 < x1] and [y0 < y1]. *)
Definition valid (r : region) : Prop := x0 r < x1 r ∧ y0 r < y1 r.

(** Line 130-131: [IsPortrait = (y1 - y0) / (x1 - x0) > 1]. *)
Definition is_portrait (r : region) : bool :=
  let aspect_ratio := (y1 r - y0 r) / (x1 r - x0 r) in
  1 <?q aspect_ratio.

(** Lines 132-143: the two sub-regions, first the one at the low
    coordinate ([x0..x_mid] or [y0..y_mid]). *)
Definition split_region (first_share : Q) (r : region) : region * region :=
  if is_portrait r then
    let y_mid := y0 r + first_share * (y1 r - y0 r) in
    (mkRegion (x0 r) (y0 r) (x1 r) y_mid (x_numpy r) true,
     mkRegion (x0 r) y_mid (x1 r) (y1 r) (x_numpy r) true)
  else
    let x_mid := x0 r + first_share * (x1 r - x0 r) in
    (mkRegion (x0 r) (y0 r) x_mid (y1 r) true (y_numpy r),
     mkRegion x_mid (y0 r) (x1 r) (y1 r) true (y_numpy r)).

(** A point of the closed rectangle, and of its interior. *)
Definition inside (p : Q * Q) (r : region) : Prop :=
  x0 r <= p.1 <= x1 r ∧ y0 r <= p.2 <= y1 r.
Definition interior (p : Q * Q) (r : region) : Prop :=
  x0 r < p.1 < x1 r ∧ y0 r < p.2 < y1 r.

(** [x0 <= x1] and [y0 <= y1]: a rectangle, possibly flat. *)
Definition well_formed (r : region) : Prop := x0 r <= x1 r ∧ y0 r <= y1 r.

(** [c] lies in [r]. *)
Definition subregion (c r : region) : Prop :=
  x0 r <= x0 c ∧ x1 c <= x1 r ∧ y0 r <= y0 c ∧ y1 c <= y1 r.

Definition disjoint_interiors (c c' : region) : Prop :=
  ∀ p, ¬ (interior p c ∧ interior p c').

(** A guillotine cut of [r] at share [s], the contract of a slice-and-dice
    treemap node: the lower and upper parts (a cut across the height) or
    the left and right parts (a cut across the width), the first part
    taking the share [s] of the cut side.  [split_region] makes one of the
    two cuts, chosen by the aspect ratio.  The contract is about the
    geometry only: the kinds of the coordinates are free. *)
Inductive guillotine (s : Q) (r : region) : region → region → Prop :=
| cut_height k1 k2 k3 k4 : guillotine s r
    (mkRegion (x0 r) (y0 r) (x1 r) (y0 r + s * (y1 r - y0 r)) k1 k2)
    (mkRegion (x0 r) (y0 r + s * (y1 r - y0 r)) (x1 r) (y1 r) k3 k4)
| cut_width k1 k2 k3 k4 : guillotine s r
    (mkRegion (x0 r) (y0 r) (x0 r + s * (x1 r - x0 r)) (y1 r) k1 k2)
    (mkRegion (x0 r + s * (x1 r - x0 r)) (y0 r) (x1 r) (y1 r) k3 k4).

(** Two regions with the same coordinates as numbers (rationals have many
    representations of one value). *)
Definition region_equiv (r r' : region) : Prop :=
  x0 r == x0 r' ∧ y0 r == y0 r' ∧ x1 r == x1 r' ∧ y1 r == y1 r'.

(** ** Lemmas *)

#[export] Instance region_equiv_equivalence : Equivalence region_equiv.
Proof.
  unfold region_equiv. split.
  - intros r. split_and!; reflexivity.
  - intros r r' (? & ? & ? & ?). split_and!; by symmetry.
  - intros r r' r'' (? & ? & ? & ?) (? & ? & ? & ?). split_and!; etrans; eauto.
Qed.

#[export] Instance area_proper : Proper (region_equiv ==> Qeq) area.
Proof.
  intros r r' (H0 & H1 & H2 & H3). unfold area, width, height.
  by rewrite H0, H1, H2, H3.
Qed.

#[export] Instance valid_proper : Proper (region_equiv ==> iff) valid.
Proof.
  intros r r' (H0 & H1 & H2 & H3). unfold valid.
  by rewrite H0, H1, H2, H3.
Qed.

Lemma share_scale s h : 0 <= s <= 1 → 0 <= h → 0 <= s * h <= h.
Proof. intros [Hs0 Hs1] Hh. split; nra. Qed.

Lemma share_scale_strict s h : 0 < s < 1 → 0 < h → 0 < s * h < h.
Proof. intros [Hs0 Hs1] Hh. split; nra. Qed.

(** On a region of positive width, the portrait test is "taller than
    wide". *)
Lemma is_portrait_iff r :
  0 < width r → is_portrait r = true ↔ width r < height r.
Proof.
  unfold is_portrait, width, height. intros Hw.
  rewrite Qlt_bool_iff.
  rewrite <- (Qmult_lt_r _ _ _ Hw).
  unfold Qdiv. rewrite <- Qmult_assoc, (Qmult_comm (/ _)), Qmult_inv_r
    by (intros E; rewrite E in Hw; apply (Qlt_irrefl 0 Hw)).
  split; intros; lra.
Qed.

Lemma split_region_area s r :
  area (split_region s r).1 == s * area r ∧
  area (split_region s r).2 == (1 - s) * area r.
Proof.
  unfold split_region, area, width, height.
  destruct (is_portrait r); simpl; split; ring.
Qed.

Lemma split_region_valid s r :
  valid r → 0 < s <= 1 → valid (split_region s r).1.
Proof.
  unfold valid, split_region. intros [Hx Hy] Hs.
  destruct (is_portrait r); simpl; split; try done.
  - pose proof (Qmult_lt_0_compat s (y1 r - y0 r)). nra.
  - pose proof (Qmult_lt_0_compat s (x1 r - x0 r)). nra.
Qed.

Lemma split_region_valid_2 s r :
  valid r → 0 <= s < 1 → valid (split_region s r).2.
Proof.
  unfold valid, split_region. intros [Hx Hy] Hs.
  destruct (is_portrait r); simpl; split; try done; nra.
Qed.

#[export] Instance subregion_preorder : PreOrder subregion.
Proof. unfold subregion. split; [intros r; lra|intros a b c Hab Hbc; lra]. Qed.

#[export] Instance subregion_proper : Proper (region_equiv ==> region_equiv ==> iff) subregion.
Proof.
  intros c c' (Hc0 & Hc1 & Hc2 & Hc3) r r' (Hr0 & Hr1 & Hr2 & Hr3). unfold subregion.
  by rewrite Hc0, Hc1, Hc2, Hc3, Hr0, Hr1, Hr2, Hr3.
Qed.

#[export] Instance interior_proper : Proper (eq ==> region_equiv ==> iff) interior.
Proof.
  intros p ? <- r r' (H0 & H1 & H2 & H3). unfold interior.
  by rewrite H0, H1, H2, H3.
Qed.

#[export] Instance disjoint_interiors_proper :
  Proper (region_equiv ==> region_equiv ==> iff) disjoint_interiors.
Proof.
  intros c c' Hc r r' Hr. unfold disjoint_interiors.
  split; intros H p; [rewrite <- Hc, <- Hr|rewrite Hc, Hr]; apply H.
Qed.

Lemma subregion_interior c r p : subregion c r → interior p c → interior p r.
Proof. unfold subregion, interior. lra. Qed.

(** The interiors of the two halves are apart, whatever the share. *)
Lemma split_region_apart s r :
  disjoint_interiors (split_region s r).1 (split_region s r).2.
Proof.
  unfold disjoint_interiors, interior, split_region. intros [px py].
  destruct (is_portrait r); simpl; lra.
Qed.

(** A share in [0, 1] cuts a well-formed region into two well-formed
    halves that lie in it. *)
Lemma split_region_guillotine s r : guillotine s r (split_region s r).1 (split_region s r).2.
Proof. unfold split_region. destruct (is_portrait r); constructor. Qed.

(** The parts of a guillotine cut at a share in [0, 1] are rectangles in
    the region, with interiors apart. *)
Lemma guillotine_sub s r r1 r2 :
  0 <= s <= 1 → well_formed r → guillotine s r r1 r2 →
  (subregion r1 r ∧ well_formed r1) ∧ (subregion r2 r ∧ well_formed r2) ∧
  disjoint_interiors r1 r2.
Proof.
  unfold well_formed, subregion, disjoint_interiors, interior. intros Hs [Hx Hy].
  destruct 1; simpl;
    [pose proof (share_scale s (y1 r - y0 r) Hs ltac:(lra))
    |pose proof (share_scale s (x1 r - x0 r) Hs ltac:(lra))];
    split_and!; try lra; intros [px py]; simpl; lra.
Qed.

Lemma split_region_sub s r :
  0 <= s <= 1 → well_formed r →
  (subregion (split_region s r).1 r ∧ well_formed (split_region s r).1) ∧
  (subregion (split_region s r).2 r ∧ well_formed (split_region s r).2).
Proof.
  intros Hs Hwf. by destruct (guillotine_sub s r _ _ Hs Hwf (split_region_guillotine s r))
    as (? & ? & _).
Qed.

(** C9. Partition exactness: for a share between 0 and 1, the two
    sub-regions cover the region exactly (every point of the region lies
    in one of them, and they lie in it) and their interiors do not
    overlap. *)
Theorem split_region_partition s r :
  valid r → 0 <= s <= 1 →
  (∀ p, inside p r ↔ inside p (split_region s r).1 ∨ inside p (split_region s r).2) ∧
  (∀ p, ¬ (interior p (split_region s r).1 ∧ interior p (split_region s r).2)).
Proof.
  unfold valid, inside, interior, split_region. intros [Hx Hy] Hs.
  destruct (is_portrait r); simpl;
    [pose proof (share_scale s (y1 r - y0 r) Hs ltac:(lra))
    |pose proof (share_scale s (x1 r - x0 r) Hs ltac:(lra))];
    split; intros [px py]; simpl; [split|..]; intros; lra.
Qed.

(** Witness of [split_region_partition] on the region (0,0)-(100,50) cut
    at 70%. *)
Lemma split_region_partition_witness :
  valid (mkRegion 0 0 100 50 false false) ∧ 0 <= 7 # 10 <= 1 ∧
  (∀ p, inside p (mkRegion 0 0 100 50 false false) ↔
        inside p (split_region (7 # 10) (mkRegion 0 0 100 50 false false)).1 ∨
        inside p (split_region (7 # 10) (mkRegion 0 0 100 50 false false)).2) ∧
  (∀ p, ¬ (interior p (split_region (7 # 10) (mkRegion 0 0 100 50 false false)).1 ∧
           interior p (split_region (7 # 10) (mkRegion 0 0 100 50 false false)).2)).
Proof.
  split_and!; [split; simpl; lra|lra|lra| |];
    apply split_region_partition; first [split; simpl; lra|split; lra].
Defined.
