(* ===== verification/Splitter.v ===== *)
(** * The weighted binary splitter: [split_into_subtrees]

    [src/tetris.py] lines 74-144.  The function is modelled with its own
    arguments: the rows, the list of levels currently painted, the
    recursion level and the region.  The text field, the area and quality
    column names and the colour rules are passed unchanged to every
    recursive call and to [paint_cell]; they are closed over by the leaf
    painter [paint_cell], the parameter of the section (instantiated by
    [PaintCell.paint_cell] in the driver).

    The recursion is bounded by [fuel]; [split_measure] bounds the depth
    of the recursion and [split_terminates] shows that fuel above it is
    enough; [split_fuel_irrelevant] shows that any such fuel gives the
    same result.  [layout] is the splitter with a painter that returns the
    leaf itself: its result is the list of painted cells, and the
    theorems about the treemap (areas, weights, regions) are stated on
    it.  [split_paint_all] shows that the splitter with any painter paints
    exactly those cells, in that order, which carries these theorems to
    the painter of the driver. *)

From S2P Require Import Prelude Table Greedy Region.

Open Scope Q_scope.

(** Lines 95-100: the level after the optional descent, when the current
    level has a single group. *)
Definition group_level (data : list row) (levels : list string) (level : nat) : nat :=
  let current_level := take level levels in
  let entries := length (group_names (length current_level) (sort_index data)) in
  if decide (entries = 1%nat) then S level else level.

(** Lines 102-126: the chunks of the (possibly deeper) level, sorted by
    size, dealt to the two buckets; each bucket gets the slices
    [data_sorted[id:id]] of its chunks. *)
Definition node_buckets (data : list row) (levels : list string) (level : nat) : buckets row :=
  let n := length (take level levels) in
  let data_sorted := sort_index data in
  fill_buckets (λ id, group_slice n id data_sorted) (sort_chunks (chunksizes n data)).

(** Line 129. *)
Definition first_share (b : buckets row) : Q :=
  tree_1_size b / (tree_1_size b + tree_2_size b).

Section Splitter.
Context {A : Type} (paint_cell : list row → region → result (list A)).

Fixpoint split_into_subtrees (fuel : nat) (data : list row) (levels : list string)
    (level : nat) (r : region) : result (list A) :=
  match fuel with
  | O => raise OutOfFuel
  | S fuel' =>
      let rows := length data in
      if decide (rows = 0%nat) then Ok []
      else if decide (rows = 1%nat) then paint_cell data r
      else if decide (level = length levels + 1)%nat then paint_cell data r
      (* [groupby([])] raises "No group keys passed!" *)
      else if decide (take level levels = []) then raise NoGroupKeys
      else
        let level := group_level data levels level in
        let b := node_buckets data levels level in
        let '(r1, r2) := split_region (first_share b) r in
        s1 ← (if 0 <?q tree_1_size b
              then split_into_subtrees fuel' (data_1 b) levels level r1 else Ok []);
        s2 ← (if 0 <?q tree_2_size b
              then split_into_subtrees fuel' (data_2 b) levels level r2 else Ok []);
        Ok (s1 ++ s2)
  end.
End Splitter.

(** The painted cells: the splitter with a painter that returns the leaf's
    rows and region. *)
Definition layout (fuel : nat) (data : list row) (levels : list string) (level : nat)
    (r : region) : result (list (list row * region)) :=
  split_into_subtrees (λ d r', Ok [(d, r')]) fuel data levels level r.

(** The splitter's interface to its leaf painter ([paint_cell] in the
    code): a painter returns its drawing or raises a Python exception; it
    never runs out of fuel.  The splitter's termination is proved against
    this interface; the painter of [layout] and [PaintCell.paint_cell]
    (in [Driver]) implement it. *)
Class Painter {A : Type} (paint_cell : list row → region → result (list A)) : Prop := {
  painter_total : ∀ d r, not_out_of_fuel (paint_cell d r)
}.

#[export] Instance layout_painter :
  Painter (A := list row * region) (λ d r', Ok [(d, r')]).
Proof. split. intros d r. discriminate. Qed.

(** The depth bound: every call that recurses either removes rows or
    goes one level deeper, and the level never exceeds [len(levels)+1]. *)
Definition split_measure (data : list row) (levels : list string) (level : nat) : nat :=
  (length data * (length levels + 2) + (length levels + 1 - level))%nat.

(** ** One node of the recursion *)

Section Node.
Context (data : list row) (levels : list string) (level : nat).

Lemma node_chunks_length :
  length (sort_chunks (chunksizes (length (take level levels)) data))
    = length (group_names (length (take level levels)) data).
Proof. unfold sort_chunks, chunksizes. by rewrite sort_by_length, length_map. Qed.

Lemma node_chunk_of c :
  c ∈ sort_chunks (chunksizes (length (take level levels)) data) →
  snd c ∈ group_names (length (take level levels)) (sort_index data) ∧
  fst c == weight (group_slice (length (take level levels)) (snd c) (sort_index data)).
Proof.
  intros Hc. rewrite (sort_chunks_perm _) in Hc. unfold chunksizes in Hc.
  apply list_elem_of_In, in_map_iff in Hc as (name & <- & Hn). simpl.
  split.
  - rewrite <- (group_names_perm _ _ _ (symmetry (sort_index_perm data))).
    by apply list_elem_of_In.
  - apply weight_perm, group_slice_perm. symmetry. apply sort_index_perm.
Qed.

Lemma node_payload_nonempty :
  Forall (λ c, group_slice (length (take level levels)) (snd c) (sort_index data) ≠ [])
    (sort_chunks (chunksizes (length (take level levels)) data)).
Proof.
  apply Forall_forall. intros c Hc.
  apply group_slice_nonempty, (node_chunk_of c Hc).
Qed.

Lemma node_rows :
  data_1 (node_buckets data levels level) ++ data_2 (node_buckets data levels level) ≡ₚ data.
Proof.
  unfold node_buckets, fill_buckets. rewrite foldl_place_rows. simpl.
  unfold chunk_rows. rewrite (concat_map_perm _ _ _ (sort_chunks_perm _)).
  unfold chunksizes. rewrite map_map. simpl.
  rewrite (concat_map_perm _ _ _ (group_names_perm _ _ _ (symmetry (sort_index_perm data)))).
  rewrite concat_group_slices. apply sort_index_perm.
Qed.

Lemma node_lengths :
  (length (data_1 (node_buckets data levels level))
   + length (data_2 (node_buckets data levels level)) = length data)%nat.
Proof. rewrite <- length_app. apply Permutation_length, node_rows. Qed.

Lemma node_weights :
  tree_1_size (node_buckets data levels level) == weight (data_1 (node_buckets data levels level)) ∧
  tree_2_size (node_buckets data levels level) == weight (data_2 (node_buckets data levels level)).
Proof.
  apply fill_buckets_weights; [reflexivity|apply weight_app|].
  apply Forall_forall. intros c Hc. apply (node_chunk_of c Hc).
Qed.

Lemma node_total :
  tree_1_size (node_buckets data levels level) + tree_2_size (node_buckets data levels level)
    == weight data.
Proof.
  destruct node_weights as [-> ->]. rewrite <- weight_app.
  apply weight_perm, node_rows.
Qed.

(** The first chunk, which holds at least one row, always goes to the
    first bucket: the second bucket has fewer rows than the node. *)
Lemma node_data_2_shorter :
  data ≠ [] → (length (data_2 (node_buckets data levels level)) < length data)%nat.
Proof.
  intros Hne. pose proof node_lengths as Hl. pose proof node_payload_nonempty as Hp.
  unfold node_buckets in *.
  destruct (sort_chunks (chunksizes (length (take level levels)) data)) as [|[s1 id1] rest] eqn:E.
  - exfalso. pose proof node_chunks_length as Hc. rewrite E in Hc.
    apply (group_names_nonempty (length (take level levels))) in Hne.
    destruct (group_names _ _); done.
  - unfold fill_buckets in *. cbn [foldl] in *. rewrite place_first in *.
    destruct (foldl_place_extends (λ id, group_slice (length (take level levels)) id (sort_index data)) rest (mkBuckets (0 + s1) ([] ++ group_slice (length (take level levels)) id1 (sort_index data)) 0 [])) as (e1 & e2 & He1 & _).
    rewrite He1, !length_app in Hl. simpl in Hl |- *.
    inversion Hp as [|? ? Hp1 _]; subst. simpl in Hp1.
    assert (length (group_slice (length (take level levels)) id1 (sort_index data)) ≠ 0%nat)
      by (destruct (group_slice _ _ _); simpl; [done|lia]).
    lia.
Qed.

(** With two chunks or more, a first bucket of positive total leaves
    some chunk to the second bucket, so it has fewer rows than the node. *)
Lemma node_data_1_shorter :
  (2 <= length (group_names (length (take level levels)) data))%nat →
  0 < tree_1_size (node_buckets data levels level) →
  (length (data_1 (node_buckets data levels level)) < length data)%nat.
Proof.
  intros H2 Ht1. pose proof node_lengths as Hl. pose proof node_payload_nonempty as Hp.
  rewrite <- node_chunks_length in H2. unfold node_buckets in *.
  pose proof (sort_chunks_sorted (chunksizes (length (take level levels)) data)) as Hs.
  destruct (sort_chunks (chunksizes (length (take level levels)) data)) as [|c1 [|c2 rest]];
    simpl in H2; try lia.
  destruct (data_2 (fill_buckets _ (c1 :: c2 :: rest))) as [|x d2] eqn:Ed2.
  - exfalso. inversion Hp as [|? ? _ Hp']; subst.
    pose proof (fill_buckets_all_first
      (λ id, group_slice (length (take level levels)) id (sort_index data))
      c1 c2 rest Hs Hp' Ed2). lra.
  - simpl in Hl. lia.
Qed.
End Node.

(** Lines 95-100: if the current level still has two groups or more,
    the level is kept; a single group of the chosen level means the
    descent happened. *)
Lemma group_level_single data levels level :
  data ≠ [] →
  (length (group_names (length (take (group_level data levels level) levels)) data) < 2)%nat →
  group_level data levels level = S level.
Proof.
  intros Hne Hlt. unfold group_level in *.
  destruct (decide _) as [|Hone]; [done|exfalso].
  rewrite <- (Permutation_length (group_names_perm _ _ _ (symmetry (sort_index_perm data)))) in Hone.
  apply (group_names_nonempty (length (take level levels))) in Hne.
  destruct (group_names _ _) as [|? [|? ?]]; simpl in *; [done|done|lia].
Qed.

Lemma group_level_cases data levels level :
  group_level data levels level = level ∨ group_level data levels level = S level.
Proof. unfold group_level. case_decide; auto. Qed.

Lemma measure_fewer_rows a b L l l' :
  (a < b)%nat → (a * (L + 2) + (L + 1 - l') < b * (L + 2) + (L + 1 - l))%nat.
Proof.
  intros H. assert (S a * (L + 2) <= b * (L + 2))%nat by (apply Nat.mul_le_mono_r; lia).
  simpl in *. lia.
Qed.

Lemma measure_deeper a b L l :
  (a <= b)%nat → (l <= L)%nat →
  (a * (L + 2) + (L + 1 - S l) < b * (L + 2) + (L + 1 - l))%nat.
Proof.
  intros H Hl. assert (a * (L + 2) <= b * (L + 2))%nat by (apply Nat.mul_le_mono_r; lia).
  lia.
Qed.

(** The measure drops on the recursive call into the first bucket. *)
Lemma measure_data_1 data levels level :
  (2 <= length data)%nat → (level <= length levels)%nat →
  0 < tree_1_size (node_buckets data levels (group_level data levels level)) →
  (split_measure (data_1 (node_buckets data levels (group_level data levels level))) levels
     (group_level data levels level) < split_measure data levels level)%nat.
Proof.
  intros H2 Hlev Ht1. unfold split_measure.
  set (l' := group_level data levels level).
  pose proof (node_lengths data levels l') as Hl.
  assert (data ≠ []) as Hne by (destruct data; simpl in *; [lia|done]).
  destruct (decide (2 <= length (group_names (length (take l' levels)) data))%nat) as [Hg|Hg].
  - pose proof (node_data_1_shorter data levels l' Hg Ht1).
    by apply measure_fewer_rows.
  - pose proof (group_level_single data levels level Hne) as E. fold l' in E.
    specialize (E ltac:(lia)).
    rewrite E in Hl |- *. apply measure_deeper; lia.
Qed.

Lemma measure_data_2 data levels level :
  (2 <= length data)%nat → (level <= length levels)%nat →
  (split_measure (data_2 (node_buckets data levels (group_level data levels level))) levels
     (group_level data levels level) < split_measure data levels level)%nat.
Proof.
  intros H2 Hlev. unfold split_measure.
  assert (data ≠ []) as Hne by (destruct data; simpl in *; [lia|done]).
  pose proof (node_data_2_shorter data levels (group_level data levels level) Hne).
  by apply measure_fewer_rows.
Qed.

(** Enough fuel: the induction on the fuel behind [split_terminates]. *)
Lemma split_fuel_enough {A} (paint_cell : list row → region → result (list A))
    `{!Painter paint_cell} fuel data levels level r :
  (level <= length levels + 1)%nat →
  (split_measure data levels level < fuel)%nat →
  not_out_of_fuel (split_into_subtrees paint_cell fuel data levels level r).
Proof.
  revert data level r.
  induction fuel as [|f IH]; intros data level r Hlev Hm; [lia|].
  cbn [split_into_subtrees].
  case_decide; [auto with tetris|].
  case_decide; [apply painter_total|].
  case_decide; [apply painter_total|].
  case_decide; [by unfold not_out_of_fuel|].
  destruct (split_region _ _) as [r1 r2].
  assert (2 <= length data)%nat by lia.
  assert (level <= length levels)%nat by lia.
  assert (group_level data levels level <= length levels + 1)%nat
    by (destruct (group_level_cases data levels level) as [->| ->]; lia).
  apply bind_not_out_of_fuel.
  { destruct (0 <?q _) eqn:E; [|auto with tetris]. apply Qlt_bool_iff in E.
    apply IH; [done|]. pose proof (measure_data_1 data levels level ltac:(done) ltac:(done) E); lia. }
  intros s1 _. apply bind_not_out_of_fuel; [|auto with tetris].
  destruct (0 <?q _) eqn:E; [|auto with tetris].
  apply IH; [done|]. pose proof (measure_data_2 data levels level ltac:(done) ltac:(done)); lia.
Qed.

(** With a painter that always raises [e], a node whose rows weigh more
    than zero raises [e]: the splitter paints at least one cell of it,
    since one of the two buckets of a positive node is positive. *)
Lemma split_positive_paints {A} (paint_cell : list row → region → result (list A)) e
    fuel data levels level r :
  (∀ d r', paint_cell d r' = Err e) →
  (1 <= level <= length levels + 1)%nat → 0 < weight data →
  (split_measure data levels level < fuel)%nat →
  split_into_subtrees paint_cell fuel data levels level r = Err e.
Proof.
  intros Hp. revert data level r.
  induction fuel as [|f IH]; intros data level r Hlev Hw Hm; [lia|].
  cbn [split_into_subtrees].
  case_decide; [destruct data; [unfold weight in Hw; simpl in Hw; lra|done]|].
  case_decide; [apply Hp|]. case_decide; [apply Hp|].
  case_decide as Ht; [destruct levels, level; simpl in *; try discriminate; lia|].
  destruct (split_region _ _) as [r1 r2].
  assert (2 <= length data)%nat by lia.
  assert (level <= length levels)%nat by lia.
  assert (1 <= group_level data levels level <= length levels + 1)%nat
    by (destruct (group_level_cases data levels level) as [->| ->]; lia).
  pose proof (node_total data levels (group_level data levels level)) as Htot.
  destruct (node_weights data levels (group_level data levels level)) as [W1 W2].
  destruct (0 <?q tree_1_size (node_buckets data levels (group_level data levels level))) eqn:E1.
  - apply Qlt_bool_iff in E1.
    rewrite (IH (data_1 (node_buckets data levels (group_level data levels level))));
      [reflexivity|done|rewrite <- W1; done|].
    pose proof (measure_data_1 data levels level ltac:(lia) ltac:(lia) E1). lia.
  - apply Qlt_bool_false in E1. simpl.
    rewrite (proj2 (Qlt_bool_iff _ _)) by lra.
    rewrite (IH (data_2 (node_buckets data levels (group_level data levels level))));
      [reflexivity|done|rewrite <- W2; lra|].
    pose proof (measure_data_2 data levels level ltac:(lia) ltac:(lia)). lia.
Qed.

(** From level 1 on a non-empty level list, the splitter raises only
    what its painter raises, or runs out of fuel: the [groupby([])]
    guard (line 97) never fires, since the level never decreases. *)
Lemma split_raises {A} (paint_cell : list row → region → result (list A)) es
    fuel data levels level r :
  (∀ d r', raises_only es (paint_cell d r')) → (1 <= level)%nat → levels ≠ [] →
  raises_only (OutOfFuel :: es) (split_into_subtrees paint_cell fuel data levels level r).
Proof.
  intros Hp. revert data level r.
  induction fuel as [|f IH]; intros data level r Hl Hne; cbn [split_into_subtrees];
    [apply raise_raises_only; set_solver|].
  case_decide; [auto with tetris|].
  case_decide; [eapply raises_only_weaken, Hp; set_solver|].
  case_decide; [eapply raises_only_weaken, Hp; set_solver|].
  case_decide as Ht.
  { apply (f_equal length) in Ht. rewrite length_take in Ht. destruct levels; simpl in *; [done|lia]. }
  destruct (split_region _ _) as [r1 r2].
  assert (1 <= group_level data levels level)%nat
    by (destruct (group_level_cases data levels level) as [->| ->]; lia).
  apply bind_raises_only; [case_match; auto with tetris|]. intros s1 _.
  apply bind_raises_only; [case_match; auto with tetris|]. auto with tetris.
Qed.

(** C1. Termination: with more fuel than [split_measure], the splitter
    never runs out of fuel, whatever the rows, for any starting level up
    to [len(levels)+1] and any painter that does not itself run out:
    every call that recurses has strictly fewer rows, or the same rows
    one level deeper. *)
Theorem split_terminates {A} (paint_cell : list row → region → result (list A))
    `{!Painter paint_cell} fuel data levels level r :
  (level <= length levels + 1)%nat →
  (split_measure data levels level < fuel)%nat →
  not_out_of_fuel (split_into_subtrees paint_cell fuel data levels level r).
Proof. intros Hl Hm. by apply (split_fuel_enough paint_cell). Qed.

(** More fuel gives the same result, once the result is not a fuel
    exhaustion. *)
Lemma split_fuel_mono {A} (paint_cell : list row → region → result (list A)) f :
  ∀ f' data levels level r, (f <= f')%nat →
  not_out_of_fuel (split_into_subtrees paint_cell f data levels level r) →
  split_into_subtrees paint_cell f' data levels level r =
    split_into_subtrees paint_cell f data levels level r.
Proof.
  induction f as [|g IH]; intros f' data levels level r Hle Hn; [by destruct Hn|].
  destruct f' as [|g']; [lia|]. cbn [split_into_subtrees] in *.
  do 4 (case_decide; [done|]).
  destruct (split_region _ _) as [r1 r2].
  apply bind_agree; [| |done].
  - destruct (0 <?q tree_1_size _); [|intros; done]. intros. apply IH; [lia|done].
  - intros s1 Hs1. apply bind_agree; [|intros; done|done].
    destruct (0 <?q tree_2_size _); [|intros; done]. intros. apply IH; [lia|done].
Qed.

(** Any two fuels above [split_measure] give the splitter the same
    result, which is therefore the result of the unbounded recursion of
    the code: the fuel is a device of the model, not a behaviour. *)
Lemma split_fuel_irrelevant {A} (paint_cell : list row → region → result (list A))
    `{!Painter paint_cell} f1 f2 data levels level r :
  (level <= length levels + 1)%nat →
  (split_measure data levels level < f1)%nat → (split_measure data levels level < f2)%nat →
  split_into_subtrees paint_cell f1 data levels level r =
    split_into_subtrees paint_cell f2 data levels level r.
Proof.
  intros Hl H1 H2.
  destruct (Nat.le_ge_cases f1 f2).
  - symmetry. apply split_fuel_mono; [done|]. by apply (split_fuel_enough paint_cell).
  - apply split_fuel_mono; [done|]. by apply (split_fuel_enough paint_cell).
Qed.

(** ** Induction on successful runs

    A property of the splitter's successful results follows from three
    cases, one per way the function returns: no row, a painted leaf, and
    a node whose two halves satisfy it. *)
Section SplitInd.
Context {A : Type} (paint_cell : list row → region → result (list A)) (levels : list string).
Context (P : list row → nat → region → list A → Prop).

Hypothesis P_nil : ∀ level r, P [] level r [].
Hypothesis P_leaf : ∀ data level r out,
  data ≠ [] → (length data = 1 ∨ level = length levels + 1)%nat →
  paint_cell data r = Ok out → P data level r out.
Hypothesis P_node : ∀ data level r s1 s2,
  (2 <= length data)%nat → level ≠ (length levels + 1)%nat → take level levels ≠ [] →
  let b := node_buckets data levels (group_level data levels level) in
  (0 < tree_1_size b →
     P (data_1 b) (group_level data levels level) (split_region (first_share b) r).1 s1) →
  (tree_1_size b <= 0 → s1 = []) →
  (0 < tree_2_size b →
     P (data_2 b) (group_level data levels level) (split_region (first_share b) r).2 s2) →
  (tree_2_size b <= 0 → s2 = []) →
  P data level r (s1 ++ s2).

Lemma split_Ok_ind fuel : ∀ data level r out,
  split_into_subtrees paint_cell fuel data levels level r = Ok out → P data level r out.
Proof.
  induction fuel as [|f IH]; intros data level r out H; [discriminate|].
  cbn [split_into_subtrees] in H.
  case_decide as H0.
  { injection H as <-. destruct data; [apply P_nil|discriminate]. }
  case_decide as H1; [apply P_leaf; auto; by destruct data|].
  case_decide as H2; [apply P_leaf; auto; by destruct data|].
  case_decide as H3; [discriminate|].
  destruct (split_region _ _) as [r1 r2] eqn:Er.
  apply bind_Ok in H as (s1 & Hs1 & H). apply bind_Ok in H as (s2 & Hs2 & H).
  injection H as <-.
  apply P_node; try done; [lia|..]; rewrite ?Er; simpl.
  - intros Ht. rewrite (proj2 (Qlt_bool_iff _ _) Ht) in Hs1. eauto.
  - intros Ht. rewrite (proj2 (Qlt_bool_false _ _) Ht) in Hs1. by injection Hs1.
  - intros Ht. rewrite (proj2 (Qlt_bool_iff _ _) Ht) in Hs2. eauto.
  - intros Ht. rewrite (proj2 (Qlt_bool_false _ _) Ht) in Hs2. by injection Hs2.
Qed.
End SplitInd.

(** ** The painted cells *)

Lemma first_share_facts b :
  0 <= tree_1_size b → 0 <= tree_2_size b → 0 < tree_1_size b + tree_2_size b →
  first_share b * (tree_1_size b + tree_2_size b) == tree_1_size b ∧
  (1 - first_share b) * (tree_1_size b + tree_2_size b) == tree_2_size b ∧
  0 <= first_share b <= 1.
Proof.
  unfold first_share. intros H1 H2 HT.
  assert (tree_1_size b / (tree_1_size b + tree_2_size b) * (tree_1_size b + tree_2_size b)
          == tree_1_size b) as Hs.
  { unfold Qdiv. rewrite <- Qmult_assoc, (Qmult_comm (/ _)), Qmult_inv_r; [ring|].
    intros E. rewrite E in HT. apply (Qlt_irrefl 0 HT). }
  split; [done|]. split; [nra|]. split; nra.
Qed.

Lemma node_sub data levels level x :
  x ∈ data_1 (node_buckets data levels level) ∨ x ∈ data_2 (node_buckets data levels level) →
  x ∈ data.
Proof.
  intros Hx. rewrite <- (node_rows data levels level). apply elem_of_app. done.
Qed.

Lemma node_forall (Pr : row → Prop) data levels level :
  Forall Pr data →
  Forall Pr (data_1 (node_buckets data levels level)) ∧
  Forall Pr (data_2 (node_buckets data levels level)).
Proof.
  rewrite !Forall_forall. intros H. split; intros x Hx; apply H, (node_sub _ levels level); auto.
Qed.

Lemma layout_leaf (d : list row) (r : region) out :
  (Ok [(d, r)] : result (list (list row * region))) = Ok out → out = [(d, r)].
Proof. by intros [= <-]. Qed.

(** One half of a node, for the row conservation: a half that is not
    painted has weight 0, so all its rows weigh 0. *)
Lemma child_rows t d (cells : list (list row * region)) :
  Forall (λ x, 0 <= r_area x) d → t == weight d →
  (0 < t → ∃ dr, concat (map fst cells) ++ dr ≡ₚ d ∧ Forall (λ x, r_area x == 0) dr) →
  (t <= 0 → cells = []) →
  ∃ dr, concat (map fst cells) ++ dr ≡ₚ d ∧ Forall (λ x, r_area x == 0) dr.
Proof.
  intros Hn Ht IH Hnil. destruct (Qlt_le_dec 0 t) as [Hp|Hp]; [by apply IH|].
  rewrite (Hnil Hp). exists d. split; [done|].
  apply weight_nonpos_zero; [done|]. rewrite <- Ht. done.
Qed.

(** One half of a node, for the areas. *)
Lemma child_area t W u d ri r (cells : list (list row * region)) :
  0 <= t → 0 < W → u * W == t → t == weight d → area ri == u * area r →
  (0 < t → qsum (map (λ c, area c.2) cells) == area ri ∧
     Forall (λ c, valid c.2 ∧ 0 < weight c.1 ∧ area c.2 * weight d == area ri * weight c.1) cells) →
  (t <= 0 → cells = []) →
  qsum (map (λ c, area c.2) cells) == u * area r ∧
  Forall (λ c, valid c.2 ∧ 0 < weight c.1 ∧ area c.2 * W == area r * weight c.1) cells.
Proof.
  intros Ht0 HW Hu Ht Ha IH Hnil. destruct (Qlt_le_dec 0 t) as [Hp|Hp].
  - destruct (IH Hp) as [Hsum Hall]. split; [by rewrite Hsum|].
    eapply Forall_impl; [exact Hall|]. intros c (Hv & Hw & Hc). split_and!; [done|done|].
    rewrite <- Ht, Ha in Hc. assert (0 < u) by nra. nra.
  - rewrite (Hnil Hp). simpl. split; [|constructor].
    assert (u == 0) as -> by nra. ring.
Qed.

(** C3. Row conservation: with non-negative weights, the painted cells
    hold every row of the table exactly once, except rows of weight 0
    that fall in a half whose total is 0 (lines 134-143 only recurse into
    a half of positive total). *)
Theorem layout_conserves_rows fuel data levels level r cells :
  Forall (λ x, 0 <= r_area x) data →
  layout fuel data levels level r = Ok cells →
  ∃ dropped, concat (map fst cells) ++ dropped ≡ₚ data ∧
             Forall (λ x, r_area x == 0) dropped.
Proof.
  intros Hn H. revert Hn.
  eapply (split_Ok_ind _ levels
    (λ data _ _ cells, Forall (λ x, 0 <= r_area x) data →
       ∃ dropped, concat (map fst cells) ++ dropped ≡ₚ data ∧
                  Forall (λ x, r_area x == 0) dropped)); [..|exact H].
  - intros. by exists [].
  - intros d lv r0 out _ _ ->%layout_leaf _. exists []. simpl. by rewrite !app_nil_r.
  - intros d lv r0 s1 s2 _ _ _ b IH1 Hs1 IH2 Hs2 Hn.
    destruct (node_forall _ d levels (group_level d levels lv) Hn) as [Hn1 Hn2].
    destruct (node_weights d levels (group_level d levels lv)) as [Hw1 Hw2].
    destruct (child_rows _ _ s1 Hn1 Hw1 (λ Ht, IH1 Ht Hn1) Hs1) as (dr1 & Hp1 & Hz1).
    destruct (child_rows _ _ s2 Hn2 Hw2 (λ Ht, IH2 Ht Hn2) Hs2) as (dr2 & Hp2 & Hz2).
    exists (dr1 ++ dr2). split; [|by apply Forall_app].
    rewrite <- (node_rows d levels (group_level d levels lv)).
    rewrite <- Hp1, <- Hp2, map_app, concat_app. solve_Permutation.
Qed.

(** C2. Area conservation and proportionality: with non-negative
    weights of positive total and a proper starting region, every painted
    cell is a proper rectangle with rows of positive weight, its area is
    the region's area times its share of the total weight, and the cell
    areas add up to the area of the region. *)
Theorem layout_areas fuel data levels level r cells :
  Forall (λ x, 0 <= r_area x) data → 0 < weight data → valid r →
  layout fuel data levels level r = Ok cells →
  qsum (map (λ c, area c.2) cells) == area r ∧
  Forall (λ c, valid c.2 ∧ 0 < weight c.1 ∧ area c.2 * weight data == area r * weight c.1) cells.
Proof.
  intros Hn HW Hv H. revert Hn HW Hv.
  eapply (split_Ok_ind _ levels
    (λ data _ r cells, Forall (λ x, 0 <= r_area x) data → 0 < weight data → valid r →
       qsum (map (λ c, area c.2) cells) == area r ∧
       Forall (λ c, valid c.2 ∧ 0 < weight c.1 ∧ area c.2 * weight data == area r * weight c.1) cells));
    [..|exact H].
  - intros lv r0 _ HW. unfold weight in HW. simpl in HW. lra.
  - intros d lv r0 out _ _ ->%layout_leaf _ HW Hv. simpl.
    split; [lra|]. constructor; [split_and!; [done|done|reflexivity]|constructor].
  - intros d lv r0 s1 s2 _ _ _ b IH1 Hs1 IH2 Hs2 Hn HW Hv.
    destruct (node_forall _ d levels (group_level d levels lv) Hn) as [Hn1 Hn2].
    destruct (node_weights d levels (group_level d levels lv)) as [Hw1 Hw2]. fold b in Hw1, Hw2, Hn1, Hn2.
    pose proof (node_total d levels (group_level d levels lv)) as HT. fold b in HT.
    pose proof (weight_nonneg _ Hn1). pose proof (weight_nonneg _ Hn2).
    destruct (first_share_facts b ltac:(lra) ltac:(lra) ltac:(lra)) as (Hs & Hs' & Hs01).
    destruct (split_region_area (first_share b) r0) as [Ha1 Ha2].
    rewrite HT in Hs, Hs'.
    destruct (child_area (tree_1_size b) (weight d) (first_share b) (data_1 b) _ r0 s1 ltac:(lra) HW Hs Hw1 Ha1
      (λ Ht : 0 < tree_1_size b, IH1 Ht Hn1 ltac:(lra) (split_region_valid (first_share b) r0 Hv ltac:(nra))) Hs1) as [Hsum1 Hall1].
    destruct (child_area (tree_2_size b) (weight d) (1 - first_share b) (data_2 b) _ r0 s2 ltac:(lra) HW Hs' Hw2 Ha2
      (λ Ht : 0 < tree_2_size b, IH2 Ht Hn2 ltac:(lra) (split_region_valid_2 (first_share b) r0 Hv ltac:(nra))) Hs2) as [Hsum2 Hall2].
    rewrite map_app, qsum_app, Hsum1, Hsum2. split; [ring|by apply Forall_app].
Qed.

Lemma group_level_shares data levels level :
  group_level data levels level = S level →
  shares_prefix (length (take level levels)) data.
Proof.
  unfold group_level. case_decide as Hone; [|lia]. intros _.
  apply single_group_shares.
  by rewrite <- (Permutation_length (group_names_perm _ _ _ (sort_index_perm data))).
Qed.

(** The rows at a call of level [level] agree on the levels above it. *)
Definition level_invariant (levels : list string) (level : nat) (data : list row) : Prop :=
  shares_prefix (length (take (level - 1) levels)) data.

Lemma level_invariant_children data levels level :
  level_invariant levels level data →
  level_invariant levels (group_level data levels level)
    (data_1 (node_buckets data levels (group_level data levels level))) ∧
  level_invariant levels (group_level data levels level)
    (data_2 (node_buckets data levels (group_level data levels level))).
Proof.
  unfold level_invariant. intros Hinv.
  assert (shares_prefix (length (take (group_level data levels level - 1) levels)) data) as Hd.
  { destruct (group_level_cases data levels level) as [E|E]; rewrite E; [done|].
    replace (S level - 1)%nat with level by lia. by apply group_level_shares. }
  split; eapply shares_prefix_sub; try exact Hd; intros x Hx; eapply node_sub; eauto.
Qed.

Lemma layout_uniform_gen fuel data levels level r cells :
  level_invariant levels level data →
  layout fuel data levels level r = Ok cells →
  Forall (λ c, length c.1 = 1%nat ∨ shares_prefix (length levels) c.1) cells.
Proof.
  intros Hinv H. revert Hinv.
  eapply (split_Ok_ind _ levels
    (λ data level _ cells, level_invariant levels level data →
       Forall (λ c, length c.1 = 1%nat ∨ shares_prefix (length levels) c.1) cells));
    [..|exact H].
  - constructor.
  - intros d lv r0 out _ Hl ->%layout_leaf Hinv. constructor; [|constructor]. simpl.
    destruct Hl as [Hl| ->]; [by left|right].
    unfold level_invariant in Hinv.
    by replace (length (take (length levels + 1 - 1) levels)) with (length levels)
      in Hinv by (rewrite length_take; lia).
  - intros d lv r0 s1 s2 _ _ _ b IH1 Hs1 IH2 Hs2 Hinv.
    destruct (level_invariant_children d levels lv Hinv) as [Hi1 Hi2].
    apply Forall_app. split.
    + destruct (Qlt_le_dec 0 (tree_1_size b)) as [Ht|Ht]; [by apply IH1|by rewrite Hs1].
    + destruct (Qlt_le_dec 0 (tree_2_size b)) as [Ht|Ht]; [by apply IH2|by rewrite Hs2].
Qed.

(** C4. Every painted cell is a leaf of the hierarchy: either a single
    row (line 84) or rows that agree on every level being painted (line
    86, reached only through the descent of lines 96-100), so that its
    label ([row[text_field].min()]) is the common value of the group. *)
Theorem layout_cells_are_groups fuel data levels r cells :
  layout fuel data levels 1 r = Ok cells →
  Forall (λ c, length c.1 = 1%nat ∨ shares_prefix (length levels) c.1) cells.
Proof.
  apply layout_uniform_gen. intros r1 r2 _ _. reflexivity.
Qed.

(** ** The splitter paints the cells of the layout *)

(** Painting a list of cells in order, stopping at the first error. *)
Definition paint_all {A} (paint_cell : list row → region → result (list A))
    (cells : list (list row * region)) : result (list A) :=
  outs ← mapM (λ c, paint_cell c.1 c.2) cells; Ok (concat outs).

Lemma mapM_app_result {X Y} (f : X → result Y) l1 l2 :
  mapM f (l1 ++ l2) = (o1 ← mapM f l1; o2 ← mapM f l2; Ok (o1 ++ o2)).
Proof.
  induction l1 as [|x l1 IH]; simpl.
  - by destruct (mapM f l2).
  - destruct (f x); simpl; [|done]. rewrite IH.
    destruct (mapM f l1); simpl; [|done]. by destruct (mapM f l2).
Qed.

Lemma paint_all_app {A} (paint_cell : list row → region → result (list A)) c1 c2 :
  paint_all paint_cell (c1 ++ c2) =
    (o1 ← paint_all paint_cell c1; o2 ← paint_all paint_cell c2; Ok (o1 ++ o2)).
Proof.
  unfold paint_all. rewrite mapM_app_result.
  destruct (mapM _ c1); simpl; [|done]. destruct (mapM _ c2); simpl; [|done].
  by rewrite concat_app.
Qed.

Lemma paint_all_single {A} (paint_cell : list row → region → result (list A)) d r :
  paint_all paint_cell [(d, r)] = paint_cell d r.
Proof. unfold paint_all. simpl. destruct (paint_cell d r); simpl; by rewrite ?app_nil_r. Qed.

(** The splitter with any painter paints the layout's cells (shared by
    the claim below and the driver). *)
Lemma split_paint_all {A} (paint_cell : list row → region → result (list A)) levels fuel :
  ∀ data level r cells,
  layout fuel data levels level r = Ok cells →
  split_into_subtrees paint_cell fuel data levels level r = paint_all paint_cell cells.
Proof.
  induction fuel as [|f IH]; intros data level r cells H; [discriminate|].
  unfold layout in H. cbn [split_into_subtrees] in H |- *.
  case_decide; [by injection H as <-|].
  case_decide; [injection H as <-; by rewrite paint_all_single|].
  case_decide; [injection H as <-; by rewrite paint_all_single|].
  case_decide; [discriminate|].
  destruct (split_region _ _) as [r1 r2].
  apply bind_Ok in H as (c1 & Hc1 & H). apply bind_Ok in H as (c2 & Hc2 & H).
  injection H as <-. rewrite paint_all_app.
  destruct (0 <?q tree_1_size _); [rewrite (IH _ _ _ _ Hc1)|injection Hc1 as <-];
    (destruct (0 <?q tree_2_size _); [rewrite (IH _ _ _ _ Hc2)|injection Hc2 as <-]); done.
Qed.

(** ** Sample data *)

(** Two departments weighing 70 and 30 (scenario B of the spec). *)
Definition scenario_B_rows : list row := [mkRow ["a"] 70 0; mkRow ["b"] 30 0].
Definition scenario_B_region : region := mkRegion 0 0 100 50 false false.

(** ** Witnesses *)

(** The cells of scenario B. *)
Definition scenario_B_cells : list (list row * region) :=
  match layout 4 scenario_B_rows ["dept"] 1 scenario_B_region with
  | Ok cells => cells
  | Err _ => []
  end.

Lemma split_terminates_witness :
  (1 <= length ["dept"] + 1)%nat ∧
  (split_measure scenario_B_rows ["dept"] 1 < 8)%nat ∧
  not_out_of_fuel (layout 8 scenario_B_rows ["dept"] 1 scenario_B_region).
Proof.
  split_and!; [simpl; lia|vm_compute; lia|].
  unfold layout. apply split_terminates; [apply _|simpl; lia|vm_compute; lia].
Defined.

Lemma layout_areas_witness :
  Forall (λ x, 0 <= r_area x) scenario_B_rows ∧ 0 < weight scenario_B_rows ∧
  valid scenario_B_region ∧
  layout 4 scenario_B_rows ["dept"] 1 scenario_B_region = Ok scenario_B_cells ∧
  (qsum (map (λ c, area c.2) scenario_B_cells) == area scenario_B_region ∧
   Forall (λ c, valid c.2 ∧ 0 < weight c.1 ∧
                area c.2 * weight scenario_B_rows == area scenario_B_region * weight c.1)
     scenario_B_cells).
Proof.
  split_and!; [repeat constructor; simpl; lra|vm_compute; reflexivity
              |split; simpl; lra|vm_compute; reflexivity| |].
  - apply (layout_areas 4 scenario_B_rows ["dept"] 1); [repeat constructor; simpl; lra
      |vm_compute; reflexivity|split; simpl; lra|vm_compute; reflexivity].
  - apply (layout_areas 4 scenario_B_rows ["dept"] 1); [repeat constructor; simpl; lra
      |vm_compute; reflexivity|split; simpl; lra|vm_compute; reflexivity].
Defined.

Lemma layout_conserves_rows_witness :
  Forall (λ x, 0 <= r_area x) scenario_B_rows ∧
  layout 4 scenario_B_rows ["dept"] 1 scenario_B_region = Ok scenario_B_cells ∧
  ∃ dropped, concat (map fst scenario_B_cells) ++ dropped ≡ₚ scenario_B_rows ∧
             Forall (λ x, r_area x == 0) dropped.
Proof.
  split_and!; [repeat constructor; simpl; lra|vm_compute; reflexivity|].
  apply (layout_conserves_rows 4 scenario_B_rows ["dept"] 1 scenario_B_region);
    [repeat constructor; simpl; lra|vm_compute; reflexivity].
Defined.

Lemma layout_cells_are_groups_witness :
  layout 4 scenario_B_rows ["dept"] 1 scenario_B_region = Ok scenario_B_cells ∧
  Forall (λ c, length c.1 = 1%nat ∨ shares_prefix (length ["dept"]) c.1) scenario_B_cells.
Proof.
  split; [vm_compute; reflexivity|].
  apply (layout_cells_are_groups 4 scenario_B_rows ["dept"] scenario_B_region).
  vm_compute; reflexivity.
Defined.

