(* ===== verification/Classifier.v ===== *)
(** * The leaf classifier: colour rules

    [src/tetris.py] lines 148-178 ([paint_cell]): the mean quality of the
    cell is compared with the colour rules of the job ([borders], built
    from the command table at lines 241-247) in list order.  A rule is a
    string: an operator character ([>], [=] or [<]) followed by a number
    parsed with Python's [float()]; an empty rule stops the search.  The
    background colour defaults to the [bg_color] of the LAST rule and the
    foreground colour to ["black"]; the first rule that holds sets the
    background and, when its [fg_color] is not empty, the foreground.

    [parse_float] models [float()] on the strings of its grammar:
    surrounding whitespace, an optional sign, then ["inf"], ["infinity"]
    or ["nan"] in any case, or digits (with single [_] separators between
    digits) with an optional fraction and an optional exponent.  Its
    values are [pyfloat]s: a rational, an infinity or a nan; the
    comparisons of the rules follow IEEE ([nan] compares false).
    Every string [float()] rejects is rejected by the model (a
    [ValueError]) and conversely.  [show_decimal] writes decimal literals;
    [parse_show_decimal] shows that [parse_float] reads them back as their
    exact value, so a rule such as [">80"] compares with 80. *)

From Stdlib Require Import Ascii Qpower.
From S2P Require Import Prelude.

Open Scope Q_scope.

(** One entry of [borders]: [{"rule": .., "bg_color": .., "fg_color": ..}]. *)
Record border := mkBorder { rule : string; bg_color : string; fg_color : string }.

(** ** [float()] on decimal literals *)

(** [str.isspace()] on a latin-1 character: tab to carriage return, the
    separators [\x1c]-[\x1f], space, [\x85] and the no-break space. *)
Definition is_py_space (c : ascii) : bool :=
  let n := nat_of_ascii c in
  bool_decide (n = 32 ∨ 9 <= n <= 13 ∨ 28 <= n <= 31 ∨ n = 133 ∨ n = 160)%nat.

Fixpoint drop_spaces (cs : list ascii) : list ascii :=
  match cs with
  | c :: cs' => if is_py_space c then drop_spaces cs' else cs
  | [] => []
  end.

(** [s.strip()] on the characters of the literal. *)
Definition strip (cs : list ascii) : list ascii := rev (drop_spaces (rev (drop_spaces cs))).

Definition digit_value (c : ascii) : option Z :=
  let n := nat_of_ascii c in
  if decide (48 <= n <= 57)%nat then Some (Z.of_nat n - 48)%Z else None.

(** The longest [digitpart] (digits, a single [_] allowed between two
    digits): its value, its number of digits and what follows. *)
Fixpoint take_digits (cs : list ascii) (acc : Z) (count : nat) : Z * nat * list ascii :=
  match cs with
  | c :: cs' =>
      match digit_value c with
      | Some d => take_digits cs' (acc * 10 + d)%Z (S count)
      | None =>
          match cs' with
          | c' :: cs'' =>
              match digit_value c' with
              | Some d' =>
                  if decide (c = "_"%char ∧ count ≠ 0%nat)
                  then take_digits cs'' (acc * 10 + d')%Z (S count)
                  else (acc, count, cs)
              | None => (acc, count, cs)
              end
          | [] => (acc, count, cs)
          end
      end
  | [] => (acc, count, [])
  end.

(** An optional sign: [-1] or [1], and what follows. *)
Definition take_sign (cs : list ascii) : Z * list ascii :=
  match cs with
  | "-"%char :: cs' => (-1, cs')%Z
  | "+"%char :: cs' => (1, cs')%Z
  | _ => (1, cs)%Z
  end.

Definition pow10 (n : Z) : Q := Qpower (10 # 1) n.

Definition parse_exponent (cs : list ascii) : option Z :=
  match cs with
  | [] => Some 0%Z
  | e :: cs' =>
      if decide (e = "e"%char ∨ e = "E"%char) then
        let '(esgn, cs'') := take_sign cs' in
        let '(ev, ne, rest) := take_digits cs'' 0 0 in
        if decide (ne = 0%nat) then None
        else match rest with [] => Some (esgn * ev)%Z | _ => None end
      else None
  end.

(** A Python float: a finite value, an infinity or a nan. *)
Inductive pyfloat :=
  | Finite (q : Q)
  | PosInf
  | NegInf
  | NaN.

Definition ascii_lower (c : ascii) : ascii :=
  let n := nat_of_ascii c in
  if decide (65 <= n <= 90)%nat then ascii_of_nat (n + 32) else c.

(** ["inf"], ["infinity"] and ["nan"], in any case. *)
Definition special_float (sgn : Z) (cs : list ascii) : option pyfloat :=
  let w := String.string_of_list_ascii (map ascii_lower cs) in
  if decide (w = "inf" ∨ w = "infinity") then Some (if decide (sgn = -1)%Z then NegInf else PosInf)
  else if decide (w = "nan") then Some NaN
  else None.

Definition parse_float (s : string) : option pyfloat :=
  let cs := strip (String.list_ascii_of_string s) in
  let '(sgn, cs) := take_sign cs in
  match special_float sgn cs with Some v => Some v | None =>
  let '(ip, ni, cs) := take_digits cs 0 0 in
  let '(fp, nf, cs) :=
    match cs with
    | "."%char :: cs' => take_digits cs' 0 0
    | _ => (0%Z, 0%nat, cs)
    end in
  if decide ((ni + nf)%nat = 0%nat) then None
  else
    match parse_exponent cs with
    | None => None
    | Some ex =>
        Some (Finite (inject_Z sgn * ((inject_Z ip + inject_Z fp / pow10 (Z.of_nat nf)) * pow10 ex)))
    end
  end.

(** ** The rule loop *)

(** Lines 160-171: [condition = rule[0]], [value = float(rule[1:])] and
    the comparison; [None] is the [ValueError] of [float()].  An operator
    other than [>], [=], [<] never matches. *)
(** [quality_val > value], [quality_val == value], [quality_val < value]
    with a float [value]. *)
Definition py_gt (q : Q) (v : pyfloat) : bool :=
  match v with Finite x => x <?q q | NegInf => true | PosInf | NaN => false end.
Definition py_eq (q : Q) (v : pyfloat) : bool :=
  match v with Finite x => q ==?q x | _ => false end.
Definition py_lt (q : Q) (v : pyfloat) : bool :=
  match v with Finite x => q <?q x | PosInf => true | NegInf | NaN => false end.

Definition rule_matches (quality_val : Q) (condition : ascii) (rest : string) : option bool :=
  match parse_float rest with
  | None => None
  | Some value =>
      Some (if decide (condition = ">"%char) then py_gt quality_val value
            else if decide (condition = "="%char) then py_eq quality_val value
            else if decide (condition = "<"%char) then py_lt quality_val value
            else false)
  end.

(** Lines 153-177: the [for limit_dict in borders] loop, from the
    colours set before it. *)
Fixpoint classify_loop (quality_val : Q) (borders : list border) (bg fg : string)
    : result (string * string) :=
  match borders with
  | [] => Ok (bg, fg)
  | b :: rest =>
      match rule b with
      | EmptyString => Ok (bg, fg)
      | String condition tail =>
          match rule_matches quality_val condition tail with
          | None => raise ValueError
          | Some true =>
              Ok (bg_color b, if decide (fg_color b = "") then fg else fg_color b)
          | Some false => classify_loop quality_val rest bg fg
          end
      end
  end.

(** Lines 151-178: [fg_color = "black"], [bg_color = borders[-1]["bg_color"]]
    ([IndexError] on no rule), then the loop. *)
Definition cell_colors (quality_val : Q) (borders : list border) : result (string * string) :=
  match last borders with
  | None => raise IndexError
  | Some lb => classify_loop quality_val borders (bg_color lb) "black"
  end.

(** ** What a rule does at a quality value *)

Definition rule_holds (q : Q) (b : border) : Prop :=
  ∃ c t, rule b = String c t ∧ rule_matches q c t = Some true.
Definition rule_fails (q : Q) (b : border) : Prop :=
  ∃ c t, rule b = String c t ∧ rule_matches q c t = Some false.
Definition rule_malformed (q : Q) (b : border) : Prop :=
  ∃ c t, rule b = String c t ∧ rule_matches q c t = None.

(** ** Decimal literals

    The thresholds of the colour rules are decimal literals such as [80]
    or [-12.5].  A literal is its sign, its integer digits and its
    fraction digits; [show_decimal] writes it the way a rule is typed. *)

Record decimal := mkDecimal { dec_neg : bool; dec_int : list nat; dec_frac : list nat }.

Definition digit_char (d : nat) : ascii := ascii_of_nat (48 + d).

Definition show_decimal (d : decimal) : string :=
  String.string_of_list_ascii
    ((if dec_neg d then ["-"%char] else []) ++ map digit_char (dec_int d) ++
     match dec_frac d with [] => [] | fs => "."%char :: map digit_char fs end).

Definition digits_value (ds : list nat) : Z := foldl (λ acc d, acc * 10 + Z.of_nat d)%Z 0%Z ds.

Definition decimal_value (d : decimal) : Q :=
  (if dec_neg d then -1 else 1) *
  (inject_Z (digits_value (dec_int d)) +
   inject_Z (digits_value (dec_frac d)) / pow10 (Z.of_nat (length (dec_frac d)))).

(** Digits below ten, and at least one of them. *)
Definition decimal_wf (d : decimal) : Prop :=
  Forall (λ x, x < 10)%nat (dec_int d ++ dec_frac d) ∧ dec_int d ++ dec_frac d ≠ [].

(** What the rule ["<op><number>"] of the spec says: the mean quality is
    greater than, equal to or less than the number. *)
Definition threshold_holds (c : ascii) (q v : Q) : Prop :=
  (c = ">"%char ∧ v < q) ∨ (c = "="%char ∧ q == v) ∨ (c = "<"%char ∧ q < v).

Lemma classify_loop_skip q pre rest bg fg :
  Forall (rule_fails q) pre →
  classify_loop q (pre ++ rest) bg fg = classify_loop q rest bg fg.
Proof.
  induction 1 as [|b pre (c & t & Hr & Hm) _ IH]; [done|].
  simpl. by rewrite Hr, Hm.
Qed.

Lemma last_app_cons {X} (pre : list X) b post : ∃ lb, last (pre ++ b :: post) = Some lb.
Proof.
  induction pre as [|x pre IH]; simpl.
  - revert b; induction post as [|y post IHp]; intros b; [eauto|]. simpl. apply IHp.
  - destruct IH as [lb Hlb]. exists lb. destruct pre; simpl in *; [|done].
    destruct post; done.
Qed.

(** The comparisons of [rule_matches] only look at the value of the
    quality, not at its representation. *)
Lemma Qlt_bool_compat a a' b b' : a == a' → b == b' → (a <?q b) = (a' <?q b').
Proof.
  intros Ha Hb. apply Bool.eq_iff_eq_true. rewrite !Qlt_bool_iff, Ha, Hb. done.
Qed.

Lemma Qeq_bool_compat a a' b b' : a == a' → b == b' → (a ==?q b) = (a' ==?q b').
Proof.
  intros Ha Hb. apply Bool.eq_iff_eq_true. rewrite !Qeq_bool_iff, Ha, Hb. done.
Qed.

#[export] Instance rule_matches_proper : Proper (Qeq ==> eq ==> eq ==> eq) rule_matches.
Proof.
  intros q q' Hq c ? <- t ? <-. unfold rule_matches.
  destruct (parse_float t) as [[v| | |]|]; [|repeat case_decide; done..|done]. f_equal.
  unfold py_gt, py_eq, py_lt. repeat case_decide;
    first [done | by apply Qlt_bool_compat | by apply Qeq_bool_compat].
Qed.

#[export] Instance classify_loop_proper : Proper (Qeq ==> eq ==> eq ==> eq ==> eq) classify_loop.
Proof.
  intros q q' Hq bs ? <- bg ? <- fg ? <-.
  induction bs as [|b bs IH]; [done|]. simpl.
  destruct (rule b) as [|c t]; [done|]. by rewrite Hq, IH.
Qed.

(** The colours of a cell depend on the value of the mean quality
    only ([Proper] for the equality of rationals). *)
#[export] Instance cell_colors_proper : Proper (Qeq ==> eq ==> eq) cell_colors.
Proof.
  intros q q' Hq bs ? <-. unfold cell_colors. destruct (last bs); [|done]. by rewrite Hq.
Qed.

(** C11. First match wins: after rules that are well formed and do not
    hold, the first rule that holds gives the background colour, and the
    foreground colour when it names one (["black"] otherwise), whatever
    the rules after it, malformed ones included. *)
Theorem classify_first_match q pre b post :
  Forall (rule_fails q) pre → rule_holds q b →
  cell_colors q (pre ++ b :: post) =
    Ok (bg_color b, if decide (fg_color b = "") then "black" else fg_color b).
Proof.
  intros Hpre (c & t & Hr & Hm). unfold cell_colors.
  destruct (last_app_cons pre b post) as [lb ->].
  rewrite classify_loop_skip by done. simpl. by rewrite Hr, Hm.
Qed.

(** C12. The default: when no rule holds before an empty rule or the end
    of the list, the background is the LAST entry's and the foreground is
    ["black"] -- the foreground colour of the default entry is never
    used. *)
Theorem classify_default q pre post lb :
  Forall (rule_fails q) pre →
  (post = [] ∨ ∃ d post', post = d :: post' ∧ rule d = "") →
  last (pre ++ post) = Some lb →
  cell_colors q (pre ++ post) = Ok (bg_color lb, "black").
Proof.
  intros Hpre Hpost Hlast. unfold cell_colors. rewrite Hlast, classify_loop_skip by done.
  destruct Hpost as [->|(d & post' & -> & Hd)]; [done|]. simpl. by rewrite Hd.
Qed.

(** C13. A malformed threshold is an error only when the search reaches
    it: a rule whose number [float()] rejects raises [ValueError] when the
    rules before it are well formed and do not hold. *)
Theorem classify_malformed q pre b post :
  Forall (rule_fails q) pre → rule_malformed q b →
  cell_colors q (pre ++ b :: post) = Err ValueError.
Proof.
  intros Hpre (c & t & Hr & Hm). unfold cell_colors.
  destruct (last_app_cons pre b post) as [lb ->].
  rewrite classify_loop_skip by done. simpl. by rewrite Hr, Hm.
Qed.

(** The rules raise [ValueError] at a malformed threshold, and the
    default colour [borders[-1]] raises [IndexError] on an empty list. *)
Lemma classify_loop_raises q bs bg fg : raises_only [ValueError] (classify_loop q bs bg fg).
Proof.
  induction bs as [|b bs IH]; simpl; [auto with tetris|].
  destruct (rule b) as [|c t]; [auto with tetris|].
  destruct (rule_matches q c t) as [[]|]; [auto with tetris|done|].
  apply raise_raises_only. set_solver.
Qed.

Lemma cell_colors_raises q bs : raises_only [IndexError; ValueError] (cell_colors q bs).
Proof.
  unfold cell_colors. destruct (last bs); [|apply raise_raises_only; set_solver].
  eapply raises_only_weaken; [|apply classify_loop_raises]. set_solver.
Qed.

Lemma cell_colors_not_out_of_fuel q bs : not_out_of_fuel (cell_colors q bs).
Proof. eapply raises_only_not_out_of_fuel; [|apply cell_colors_raises]. set_solver. Qed.

(** The rules of the spec's scenario C. *)
Lemma digit_value_char d : (d < 10)%nat → digit_value (digit_char d) = Some (Z.of_nat d).
Proof.
  intros Hd. unfold digit_value, digit_char.
  rewrite nat_ascii_embedding by lia. rewrite decide_True by lia. f_equal. lia.
Qed.

Lemma is_py_space_digit d : (d < 10)%nat → is_py_space (digit_char d) = false.
Proof.
  intros Hd. unfold is_py_space, digit_char. rewrite nat_ascii_embedding by lia.
  apply bool_decide_eq_false_2. lia.
Qed.

(** The digits of a literal are read as one number. *)
Lemma take_digits_app ds rest acc n :
  Forall (λ x, x < 10)%nat ds →
  (match rest with c :: _ => digit_value c = None ∧ c ≠ "_"%char | [] => True end) →
  take_digits (map digit_char ds ++ rest) acc n =
    (foldl (λ acc d, acc * 10 + Z.of_nat d)%Z acc ds, (n + length ds)%nat, rest).
Proof.
  revert acc n. induction ds as [|d ds IH]; intros acc n Hds Hrest.
  - rewrite Nat.add_0_r. destruct rest as [|c rest]; [done|].
    destruct Hrest as [Hc Hu]. cbn [map app take_digits]. rewrite Hc.
    destruct rest as [|c' rest]; [done|]. destruct (digit_value c'); [|done].
    rewrite decide_False; naive_solver.
  - apply Forall_cons in Hds as [Hd Hds]. cbn [map app take_digits].
    rewrite digit_value_char by done. rewrite IH by done. cbn [foldl length].
    do 2 f_equal. lia.
Qed.

Lemma drop_spaces_keep cs :
  Forall (λ c, is_py_space c = false) cs → drop_spaces cs = cs.
Proof. destruct cs as [|c cs]; [done|]. intros [Hc _]%Forall_cons. simpl. by rewrite Hc. Qed.

(** [s.strip()] leaves a literal without whitespace unchanged. *)
Lemma strip_keep cs : Forall (λ c, is_py_space c = false) cs → strip cs = cs.
Proof.
  intros H. unfold strip. rewrite (drop_spaces_keep cs), drop_spaces_keep; [apply rev_involutive|..|done].
  by apply Forall_rev.
Qed.

Lemma take_sign_other c cs :
  c ≠ "-"%char → c ≠ "+"%char → take_sign (c :: cs) = (1%Z, c :: cs).
Proof. intros H1 H2. destruct c as [[] [] [] [] [] [] [] []]; done. Qed.

Lemma digit_char_other d :
  (d < 10)%nat → digit_char d ≠ "-"%char ∧ digit_char d ≠ "+"%char ∧ digit_char d ≠ "."%char ∧
                 is_py_space (digit_char d) = false ∧
                 ascii_lower (digit_char d) ≠ "i"%char ∧ ascii_lower (digit_char d) ≠ "n"%char.
Proof.
  intros Hd. assert (ascii_lower (digit_char d) = digit_char d) as ->.
  { unfold ascii_lower, digit_char. cbv zeta. rewrite nat_ascii_embedding by lia.
    by rewrite decide_False by lia. }
  split_and!; try (by apply is_py_space_digit);
    intros E; apply (f_equal nat_of_ascii) in E; unfold digit_char in E;
    rewrite nat_ascii_embedding in E by lia; vm_compute in E; lia.
Qed.

(** A literal that does not start with [i] or [n] is not a special value. *)
Lemma special_float_head sgn c cs :
  ascii_lower c ≠ "i"%char → ascii_lower c ≠ "n"%char → special_float sgn (c :: cs) = None.
Proof.
  intros Hi Hn. unfold special_float. cbn [map String.string_of_list_ascii].
  rewrite decide_False by (intros [E|E]; inversion E; congruence).
  rewrite decide_False by (intros E; inversion E; congruence). done.
Qed.

Lemma classify_first_match_witness :
  Forall (rule_fails 10) [mkBorder ">80" "green" ""] ∧ rule_holds 10 (mkBorder "<20" "red" "") ∧
  cell_colors 10 ([mkBorder ">80" "green" ""] ++ mkBorder "<20" "red" "" :: [mkBorder "" "gray" "black"])
    = Ok ("red", if decide (fg_color (mkBorder "<20" "red" "") = "") then "black"
                 else fg_color (mkBorder "<20" "red" "")).
Proof.
  split_and!; [repeat constructor; do 2 eexists; split; reflexivity
              |do 2 eexists; split; reflexivity|].
  apply classify_first_match; [repeat constructor; do 2 eexists; split; reflexivity
                              |do 2 eexists; split; reflexivity].
Defined.

Lemma classify_default_witness :
  Forall (rule_fails 50) [mkBorder ">80" "green" ""; mkBorder "<20" "red" ""] ∧
  ([mkBorder "" "gray" "blue"] = [] ∨
   ∃ d post', [mkBorder "" "gray" "blue"] = d :: post' ∧ rule d = "") ∧
  last ([mkBorder ">80" "green" ""; mkBorder "<20" "red" ""] ++ [mkBorder "" "gray" "blue"])
    = Some (mkBorder "" "gray" "blue") ∧
  cell_colors 50 ([mkBorder ">80" "green" ""; mkBorder "<20" "red" ""] ++ [mkBorder "" "gray" "blue"])
    = Ok (bg_color (mkBorder "" "gray" "blue"), "black").
Proof.
  split_and!; [repeat constructor; do 2 eexists; split; reflexivity
              |right; do 2 eexists; split; reflexivity|reflexivity|].
  apply classify_default; [repeat constructor; do 2 eexists; split; reflexivity
                          |right; do 2 eexists; split; reflexivity|reflexivity].
Defined.

Lemma classify_malformed_witness :
  Forall (rule_fails 50) [mkBorder ">80" "green" ""] ∧ rule_malformed 50 (mkBorder ">abc" "red" "") ∧
  cell_colors 50 ([mkBorder ">80" "green" ""] ++ mkBorder ">abc" "red" "" :: [mkBorder "" "gray" ""])
    = Err ValueError.
Proof.
  split_and!; [repeat constructor; do 2 eexists; split; reflexivity
              |do 2 eexists; split; reflexivity|].
  apply classify_malformed; [repeat constructor; do 2 eexists; split; reflexivity
                            |do 2 eexists; split; reflexivity].
Defined.

(** [float()] reads every decimal literal that [show_decimal] writes (an
    optional minus sign, digits, an optional fraction; at least one digit)
    as its exact value. *)
Lemma parse_show_decimal d :
  decimal_wf d → ∃ q, parse_float (show_decimal d) = Some (Finite q) ∧ q == decimal_value d.
Proof.
  intros [Hdig Hne]. apply Forall_app in Hdig as [Hi Hf].
  unfold parse_float, show_decimal. rewrite String.list_ascii_of_string_of_list_ascii.
  set (frac_part := match dec_frac d with [] => [] | fs => "."%char :: map digit_char fs end).
  set (body := map digit_char (dec_int d) ++ frac_part).
  assert (Hsp : Forall (λ c, is_py_space c = false) body).
  { unfold body, frac_part. apply Forall_app. split.
    - apply Forall_map. eapply Forall_impl; [exact Hi|]. intros. by apply digit_char_other.
    - destruct (dec_frac d); [done|]. constructor; [done|].
      apply Forall_map. eapply Forall_impl; [exact Hf|]. intros. by apply digit_char_other. }
  rewrite strip_keep.
  2:{ apply Forall_app. split; [destruct (dec_neg d); repeat constructor|exact Hsp]. }
  assert (Hsign : take_sign ((if dec_neg d then ["-"%char] else []) ++ body) =
                  ((if dec_neg d then -1 else 1)%Z, body)).
  { destruct (dec_neg d); [done|]. rewrite app_nil_l. unfold body, frac_part.
    destruct (dec_int d) as [|i ds] eqn:Ei; cbn [map app].
    - destruct (dec_frac d) as [|f fs]; [|done]. by simpl in Hne.
    - apply Forall_cons in Hi as [Hi0 _].
      destruct (digit_char_other i Hi0) as (? & ? & _). by apply take_sign_other. }
  assert (Hspecial : ∀ sg, special_float sg body = None).
  { intros sg. unfold body, frac_part.
    destruct (dec_int d) as [|i ds] eqn:Ei; cbn [map app].
    - destruct (dec_frac d) as [|f fs]; [by simpl in Hne|].
      apply special_float_head; by vm_compute.
    - apply Forall_cons in Hi as [Hi0 _].
      destruct (digit_char_other i Hi0) as (_ & _ & _ & _ & ? & ?). by apply special_float_head. }
  rewrite Hsign. cbn beta iota. rewrite Hspecial. cbn iota. unfold body, frac_part.
  assert (Hsgn : inject_Z (if dec_neg d then -1 else 1)%Z == if dec_neg d then -1 else 1)
    by (by destruct (dec_neg d)).
  destruct (dec_frac d) as [|f fs] eqn:Efr.
  - rewrite (take_digits_app _ []) by done. cbn beta iota.
    rewrite decide_False by (rewrite app_nil_r in Hne; destruct (dec_int d); simpl; [done|lia]).
    eexists. split; [reflexivity|]. unfold decimal_value. rewrite Efr, Hsgn.
    unfold digits_value. set (sg := if dec_neg d then -1 else 1).
    set (x := inject_Z (foldl _ 0%Z (dec_int d))). change (pow10 _) with 1. cbn [foldl]. field.
  - rewrite (take_digits_app _ ("."%char :: _)) by (done || (split; [reflexivity|discriminate])).
    cbn beta iota.
    pose proof (take_digits_app (f :: fs) [] 0 0 Hf I) as Hfd. rewrite app_nil_r in Hfd.
    rewrite Hfd. cbn beta iota.
    rewrite decide_False by (simpl; lia).
    eexists. split; [reflexivity|]. unfold decimal_value. rewrite Efr, Hsgn.
    unfold digits_value. set (sg := if dec_neg d then -1 else 1). change (pow10 0) with 1.
    rewrite Nat.add_0_l. set (p := pow10 (Z.of_nat (length (f :: fs)))).
    assert (¬ p == 0) by (apply Qpower_not_0; lra). field. done.
Qed.

(** A rule whose threshold is a decimal literal matches exactly when the
    comparison it writes holds. *)
Lemma rule_matches_decimal q c d :
  decimal_wf d →
  rule_matches q c (show_decimal d) = Some (bool_decide (threshold_holds c q (decimal_value d))).
Proof.
  intros Hd. destruct (parse_show_decimal d Hd) as (x & Hp & Hx).
  unfold rule_matches. rewrite Hp. f_equal. cbn [py_gt py_eq py_lt].
  apply Bool.eq_iff_eq_true. rewrite bool_decide_eq_true. unfold threshold_holds. rewrite <- Hx.
  destruct (decide (c = ">"%char)) as [->|H1]; [rewrite Qlt_bool_iff; naive_solver|].
  destruct (decide (c = "="%char)) as [->|H2]; [rewrite Qeq_bool_iff; naive_solver|].
  destruct (decide (c = "<"%char)) as [->|H3]; [rewrite Qlt_bool_iff; naive_solver|].
  naive_solver.
Qed.

(** C31. The rules compare as they are written: a rule made of an
    operator character and a decimal literal ([">80"], ["=50"],
    ["<-12.5"]) holds exactly when the mean quality is greater than, equal
    to or less than the literal's value (never for another character);
    then it gives the background and, when it names one, the foreground,
    and otherwise the search goes on with the next rule. *)
Theorem rule_decimal_compares q c d bg fg rest bgd fgd :
  decimal_wf d →
  classify_loop q (mkBorder (String c (show_decimal d)) bg fg :: rest) bgd fgd =
    if decide (threshold_holds c q (decimal_value d))
    then Ok (bg, if decide (fg = "") then fgd else fg)
    else classify_loop q rest bgd fgd.
Proof.
  intros Hd. cbn [classify_loop rule bg_color fg_color].
  rewrite (rule_matches_decimal q c d Hd).
  destruct (decide (threshold_holds c q (decimal_value d))) as [Ht|Ht];
    [rewrite bool_decide_true by exact Ht|rewrite bool_decide_false by exact Ht]; reflexivity.
Qed.

Lemma rule_decimal_compares_witness :
  decimal_wf (mkDecimal false [8; 0]%nat []) ∧
  classify_loop 90 [mkBorder (String ">" (show_decimal (mkDecimal false [8; 0]%nat []))) "green" "";
                    mkBorder "" "gray" ""] "gray" "black" =
    if decide (threshold_holds ">" 90 (decimal_value (mkDecimal false [8; 0]%nat [])))
    then Ok ("green", if decide ("" = "") then "black" else "")
    else classify_loop 90 [mkBorder "" "gray" ""] "gray" "black".
Proof.
  assert (H : decimal_wf (mkDecimal false [8; 0]%nat [])).
  { split; [repeat constructor; lia|discriminate]. }
  split; [exact H|exact (rule_decimal_compares _ _ _ _ _ _ _ _ H)].
Defined.
