(* ===== verification/LabelFit.v ===== *)
(** * The label fitter

    [src/tetris.py] lines 185-193 ([paint_cell]): the text of a cell is
    turned by -90 degrees when the cell is taller than wide, and its font
    size is the smallest of three bounds: 90% of the cell's short side in
    the text direction ([max_point_size]), 24 points, and a tenth of the
    integer part of [14 * ratio], where [ratio] is the larger of the two
    sides divided by the number of characters of the text.

    Python's [max] and [min] return their first argument unless the
    second is strictly larger (smaller); [int()] truncates toward zero.
    [len(text)] is the number of characters of the string; the model's
    strings are byte strings, which agree for the latin-1 text the
    program reads.

    An empty text divides by zero ([len(text)] is 0, line 192): the
    width is divided first, and raises [ZeroDivisionError] when it is a
    Python number; a numpy float gives an infinity (nan for 0/0), and the
    height is divided next, again raising when it is a Python number.
    When both sides are numpy floats, [ratio] is an infinity or a nan and
    [int(14 * ratio)] raises [OverflowError] or [ValueError]
    ([empty_label_error]). *)

From S2P Require Import Prelude Region.

Open Scope Q_scope.

Definition py_max (a b : Q) : Q := if a <?q b then b else a.
Definition py_min (a b : Q) : Q := if b <?q a then b else a.

(** [int(x)] on a float: truncation toward zero. *)
Definition py_int (x : Q) : Z := Z.quot (Qnum x) (Zpos (Qden x)).

(** What [paint_cell] computes for the text: its angle, the bound
    [max_point_size] and the final [text_size]. *)
Record label_fit := mkLabelFit {
  angle : Z;
  max_point_size : Q;
  text_size : Q
}.

(** Lines 192-193 on an empty text.  With numpy sides, [w / 0] is
    [inf] or [-inf] unless [w] is 0 ([nan]); [max(a, b)] keeps [a] unless
    [b > a], which is false when either is a nan or [a] is [inf], so
    [ratio] is a nan exactly when the width is 0, and an infinity
    otherwise. *)
Definition empty_label_error (r : region) : py_error :=
  if negb (x_numpy r) then ZeroDivisionError
  else if negb (y_numpy r) then ZeroDivisionError
  else if Qeq_bool (x1 r - x0 r) 0 then ValueError
  else OverflowError.

Definition fit_label (r : region) (text : string) : result label_fit :=
  let available_width := x1 r - x0 r in
  let available_height := y1 r - y0 r in
  let is_portrait := available_width <?q available_height in
  let angle := if is_portrait then (-90)%Z else 0%Z in
  let max_point_size := (9 # 10) * (if is_portrait then available_width else available_height) in
  let text_width := String.length text in
  if decide (text_width = 0%nat) then raise (empty_label_error r)
  else
    let ratio := py_max (available_width / inject_Z (Z.of_nat text_width))
                        (available_height / inject_Z (Z.of_nat text_width)) in
    let text_size := py_min max_point_size (py_min 24 ((1 # 10) * inject_Z (py_int (14 * ratio)))) in
    Ok (mkLabelFit angle max_point_size text_size).

(** ** Lemmas *)

Lemma py_min_le_l a b : py_min a b <= a.
Proof. unfold py_min. destruct (b <?q a) eqn:E; [apply Qlt_bool_iff in E; lra|lra]. Qed.

Lemma py_min_le_r a b : py_min a b <= b.
Proof. unfold py_min. destruct (b <?q a) eqn:E; [lra|apply Qlt_bool_false in E; lra]. Qed.

Lemma py_min_ge c a b : c <= a → c <= b → c <= py_min a b.
Proof. unfold py_min. by destruct (b <?q a). Qed.

Lemma py_max_ge_l a b : a <= py_max a b.
Proof. unfold py_max. destruct (a <?q b) eqn:E; [apply Qlt_bool_iff in E; lra|lra]. Qed.

Lemma py_int_nonneg x : 0 <= x → (0 <= py_int x)%Z.
Proof.
  destruct x as [n d]. unfold Qle, py_int. simpl. intros H.
  apply Z.quot_pos; [lia|]. apply Pos2Z.is_pos.
Qed.

Lemma inject_Z_nonneg z : (0 <= z)%Z → 0 <= inject_Z z.
Proof. intros H. unfold Qle. simpl. lia. Qed.

Lemma Qdiv_nonneg a b : 0 <= a → 0 <= b → 0 <= a / b.
Proof. intros Ha Hb. apply Qmult_le_0_compat; [done|]. by apply Qinv_le_0_compat. Qed.

(** C15. Font-size bounds: on a cell of non-negative sides, the font
    size is non-negative, at most 24, at most [max_point_size], which is
    90% of the cell's shorter side; the text is turned by -90 degrees
    exactly when the cell is taller than wide. *)
Theorem fit_label_bounds r text f :
  fit_label r text = Ok f → 0 <= width r → 0 <= height r →
  0 <= text_size f ∧ text_size f <= max_point_size f ∧ text_size f <= 24 ∧
  max_point_size f == (9 # 10) * Qmin (width r) (height r) ∧
  angle f = (if width r <?q height r then (-90)%Z else 0%Z).
Proof.
  unfold fit_label, width, height. intros H Hw Hh.
  case_decide as Hn; [discriminate|]. injection H as <-. simpl.
  set (w := x1 r - x0 r) in *. set (h := y1 r - y0 r) in *.
  set (n := inject_Z (Z.of_nat (String.length text))).
  assert (0 <= (1 # 10) * inject_Z (py_int (14 * py_max (w / n) (h / n)))).
  { apply Qmult_le_0_compat; [done|]. apply inject_Z_nonneg, py_int_nonneg.
    apply Qmult_le_0_compat; [done|]. eapply Qle_trans; [|apply py_max_ge_l].
    apply Qdiv_nonneg; [done|]. apply inject_Z_nonneg. lia. }
  split_and!.
  - apply py_min_ge; [destruct (w <?q h); lra|]. apply py_min_ge; [lra|done].
  - apply py_min_le_l.
  - eapply Qle_trans; [apply py_min_le_r|apply py_min_le_l].
  - destruct (w <?q h) eqn:E; [apply Qlt_bool_iff in E|apply Qlt_bool_false in E].
    + rewrite Q.min_l; [reflexivity|lra].
    + rewrite Q.min_r; [reflexivity|lra].
  - done.
Qed.

(** C16. The only failure of the label fit is the empty label, and its
    exception depends on the kinds of the cell's sides: on a cell of
    positive width, an empty text raises [OverflowError] when both the
    width and the height are numpy floats (the cell lies under a cut
    across the width and one across the height) and [ZeroDivisionError]
    otherwise; any other text gives a fit. *)
Theorem fit_label_error r text :
  0 < width r →
  (∀ e, fit_label r text = Err e ↔
        text = "" ∧ e = if x_numpy r && y_numpy r then OverflowError else ZeroDivisionError) ∧
  (text ≠ "" → ∃ f, fit_label r text = Ok f).
Proof.
  unfold width. intros Hw. unfold fit_label.
  assert (empty_label_error r =
          if x_numpy r && y_numpy r then OverflowError else ZeroDivisionError) as He.
  { unfold empty_label_error.
    destruct (x_numpy r), (y_numpy r); simpl; try done.
    destruct (Qeq_bool _ _) eqn:E; [|done]. apply Qeq_bool_iff in E. lra. }
  destruct text as [|c t]; simpl.
  - split; [|by intros []]. intros e. rewrite <- He. split; [by intros [= <-]|by intros [_ ->]].
  - split; [|eauto]. intros e. split; [discriminate|by intros [? _]].
Qed.

Lemma fit_label_raises r text :
  raises_only [ZeroDivisionError; OverflowError; ValueError] (fit_label r text).
Proof.
  unfold fit_label. case_decide; [|auto with tetris].
  apply raise_raises_only. unfold empty_label_error. repeat case_match; set_solver.
Qed.

Lemma fit_label_not_out_of_fuel r text : not_out_of_fuel (fit_label r text).
Proof. eapply raises_only_not_out_of_fuel; [|apply fit_label_raises]. set_solver. Qed.

(** The fit of scenario D. *)
Definition scenario_D_fit : label_fit :=
  match fit_label (mkRegion 0 0 10 40 false false) "Marketing" with
  | Ok f => f
  | Err _ => mkLabelFit 0 0 0
  end.

Lemma fit_label_bounds_witness :
  fit_label (mkRegion 0 0 10 40 false false) "Marketing" = Ok scenario_D_fit ∧
  0 <= width (mkRegion 0 0 10 40 false false) ∧ 0 <= height (mkRegion 0 0 10 40 false false) ∧
  (0 <= text_size scenario_D_fit ∧ text_size scenario_D_fit <= max_point_size scenario_D_fit ∧
   text_size scenario_D_fit <= 24 ∧
   max_point_size scenario_D_fit == (9 # 10) * Qmin (width (mkRegion 0 0 10 40 false false)) (height (mkRegion 0 0 10 40 false false)) ∧
   angle scenario_D_fit =
     (if width (mkRegion 0 0 10 40 false false) <?q height (mkRegion 0 0 10 40 false false) then (-90)%Z else 0%Z)).
Proof.
  split_and!; [vm_compute; reflexivity|unfold width; simpl; lra|unfold height; simpl; lra|..];
    (apply (fit_label_bounds (mkRegion 0 0 10 40 false false) "Marketing"); [vm_compute; reflexivity|unfold width; simpl; lra|unfold height; simpl; lra]).
Defined.

(** A cell under a cut across its width and one across its height. *)
Lemma fit_label_error_witness :
  0 < width (mkRegion 0 0 10 40 true true) ∧
  (∀ e, fit_label (mkRegion 0 0 10 40 true true) "" = Err e ↔
        "" = "" ∧ e = if x_numpy (mkRegion 0 0 10 40 true true) && y_numpy (mkRegion 0 0 10 40 true true)
                      then OverflowError else ZeroDivisionError) ∧
  ("" ≠ "" → ∃ f, fit_label (mkRegion 0 0 10 40 true true) "" = Ok f).
Proof.
  assert (H : 0 < width (mkRegion 0 0 10 40 true true)) by (unfold width; simpl; lra).
  split; [exact H|exact (fit_label_error _ "" H)].
Defined.
