(* ===== verification/PaintCell.v ===== *)
(** * Painting one cell: [paint_cell]

    [src/tetris.py] lines 146-204.  The cell's colours come from the mean
    of the quality column over its rows ([Classifier.cell_colors]), its
    label is the smallest value of the text column ([row[text_field]
    .min()]), sized and turned by [LabelFit.fit_label].  The SVG output is
    modelled as the sequence of drawing instructions [paint_cell] hands to
    the external [kajsvg] canvas ([svg.plot_rect_mm], [svg.comment],
    [svg.plot_text_mm]), in the order it emits them; the canvas and its
    serialisation are outside the repository and not modelled.

    The text field is a grouping level ([item] in [tree_paint]); it is
    given by its position in the row's index. *)

From S2P Require Import Prelude Table Region Classifier LabelFit.

Open Scope Q_scope.

(** Lines 16-22: the settings [tree_paint] makes on the [svg] canvas
    before it asks for the document header: the paper, the orientation,
    the outer and inner margins in mm (the four numbers passed to
    [def_margins]), the title and the program name ([set_title]). *)
Record canvas_setup := mkCanvasSetup {
  setup_canvas : string;
  setup_orientation : string;
  setup_outer : Q * Q * Q * Q;
  setup_inner : Q * Q * Q * Q;
  setup_title : string;
  setup_program : string
}.

(** Drawing instructions, and the comments [tree_paint] adds. *)
Inductive svg_item :=
  | SvgHeader (setup : canvas_setup)             (** [svg.doc_header()] line 23 *)
  | SvgParams (levels : list string) (area quality : string) (borders : list border)
                                                 (** [svg.comment(f"Parameters: ...")] line 24 *)
  | SvgSetupNote (setup : canvas_setup)          (** the margins and canvas comments,
                                                     lines 25-26 *)
  | SvgLevel (current_level : list string)       (** [svg.comment(f"Level ...")] *)
  | SvgRect (x y w h : Q) (fill : string)        (** [svg.plot_rect_mm] *)
  | SvgCellNote (text : string) (max_point_size text_size : Q)  (** [svg.comment] line 196 *)
  | SvgText (x y : Q) (text : string) (font_size : Q) (fill : string) (angle : Z)
                                                 (** [svg.plot_text_mm] *)
  | SvgEnd.                                      (** ["</svg>"] *)

(** [float(row[quality].mean())]. *)
Definition quality_mean (data : list row) : Q :=
  qsum (map r_quality data) / inject_Z (Z.of_nat (length data)).

(** [min(a, b)] on strings: [b] if [b < a], else [a]. *)
Definition str_min (a b : string) : string := if decide (String.le a b) then a else b.

(** [row[text_field].min()]: the smallest label of the cell's rows. *)
Definition label_min (text_field : nat) (data : list row) : string :=
  match map (λ x, nth text_field (r_keys x) "") data with
  | [] => ""
  | l :: ls => foldl str_min l ls
  end.

Definition paint_cell (text_field : nat) (borders : list border) (data : list row) (r : region)
    : result (list svg_item) :=
  let quality_val := quality_mean data in
  colors ← cell_colors quality_val borders;
  let '(bg_color, fg_color) := colors in
  let rect := SvgRect (x0 r) (y0 r) (x1 r - x0 r) (y1 r - y0 r) bg_color in
  let text := label_min text_field data in
  fit ← fit_label r text;
  Ok [rect;
      SvgCellNote text (max_point_size fit) (text_size fit);
      SvgText (x0 r + (x1 r - x0 r) / 2) (y0 r + (y1 r - y0 r) / 2) text
              (text_size fit) fg_color (angle fit)].

(** The exceptions a cell can raise: the colour rules' and the label's. *)
Definition cell_errors : list py_error :=
  [IndexError; ValueError; ZeroDivisionError; OverflowError].

(** ** Lemmas *)

Lemma str_min_le_l a b : String.le (str_min a b) a.
Proof.
  unfold str_min. case_decide; [done|].
  destruct (total String.le a b); done.
Qed.

Lemma str_min_le_r a b : String.le (str_min a b) b.
Proof. unfold str_min. case_decide; done. Qed.

Lemma str_min_elem a b : str_min a b = a ∨ str_min a b = b.
Proof. unfold str_min. case_decide; auto. Qed.

(** The left fold of [str_min] is the least element of the list. *)
Lemma foldl_str_min_least acc ls :
  foldl str_min acc ls ∈ acc :: ls ∧
  ∀ y, y ∈ acc :: ls → String.le (foldl str_min acc ls) y.
Proof.
  revert acc; induction ls as [|l ls IH]; intros acc; simpl.
  - split; [by left|]. intros y ->%list_elem_of_singleton. done.
  - destruct (IH (str_min acc l)) as [Hin Hle]. split.
    + apply elem_of_cons in Hin as [->|Hin]; [|by right; right].
      destruct (str_min_elem acc l) as [->| ->]; [by left|by right; left].
    + intros y Hy. apply elem_of_cons in Hy as [->|Hy]; [|apply elem_of_cons in Hy as [->|Hy]].
      * etrans; [apply Hle; by left|apply str_min_le_l].
      * etrans; [apply Hle; by left|apply str_min_le_r].
      * apply Hle. by right.
Qed.

Lemma least_label_perm (l1 l2 : list string) :
  l1 ≡ₚ l2 →
  match l1 with [] => "" | a :: l => foldl str_min a l end =
  match l2 with [] => "" | b :: l => foldl str_min b l end.
Proof.
  intros Hm. destruct l1 as [|a l1], l2 as [|b l2]; [done| | |].
  - by apply Permutation_nil_cons in Hm.
  - symmetry in Hm. by apply Permutation_nil_cons in Hm.
  - destruct (foldl_str_min_least a l1) as [Ha Hla], (foldl_str_min_least b l2) as [Hb Hlb].
    apply (anti_symm String.le).
    + apply Hla. rewrite Hm. done.
    + apply Hlb. rewrite <- Hm. done.
Qed.

Lemma label_min_perm tf d1 d2 : d1 ≡ₚ d2 → label_min tf d1 = label_min tf d2.
Proof. intros Hp. apply least_label_perm. by apply Permutation_map. Qed.

Lemma quality_mean_perm d1 d2 : d1 ≡ₚ d2 → quality_mean d1 == quality_mean d2.
Proof.
  intros Hp. unfold quality_mean. rewrite (Permutation_length Hp).
  rewrite (qsum_perm (map r_quality d1) (map r_quality d2)); [reflexivity|].
  by apply Permutation_map.
Qed.

(** C14. Painting a cell does not depend on the order of its rows: the
    mean quality, and so the colours, and the smallest label are the same
    for any permutation of the rows (the spec's "classification depends
    only on the mean"). *)
Theorem paint_cell_perm tf borders d1 d2 r :
  d1 ≡ₚ d2 → paint_cell tf borders d1 r = paint_cell tf borders d2 r.
Proof.
  intros Hp. unfold paint_cell.
  rewrite (cell_colors_proper _ _ (quality_mean_perm _ _ Hp) borders borders eq_refl).
  by rewrite (label_min_perm tf _ _ Hp).
Qed.

Lemma paint_cell_raises tf bs d r : raises_only cell_errors (paint_cell tf bs d r).
Proof.
  unfold paint_cell, cell_errors.
  apply bind_raises_only; [eapply raises_only_weaken; [|apply cell_colors_raises]; set_solver|].
  intros [bg fg] _.
  apply bind_raises_only; [eapply raises_only_weaken; [|apply fit_label_raises]; set_solver|].
  auto with tetris.
Qed.

Lemma paint_cell_not_out_of_fuel tf bs d r : not_out_of_fuel (paint_cell tf bs d r).
Proof. eapply raises_only_not_out_of_fuel; [|apply paint_cell_raises]. unfold cell_errors. set_solver. Qed.

Lemma paint_cell_perm_witness :
  [mkRow ["a"] 1 10; mkRow ["b"] 1 90] ≡ₚ [mkRow ["b"] 1 90; mkRow ["a"] 1 10] ∧
  paint_cell 0 [mkBorder ">40" "green" ""; mkBorder "" "gray" ""]
    [mkRow ["a"] 1 10; mkRow ["b"] 1 90] (mkRegion 0 0 10 10 false false) =
  paint_cell 0 [mkBorder ">40" "green" ""; mkBorder "" "gray" ""]
    [mkRow ["b"] 1 90; mkRow ["a"] 1 10] (mkRegion 0 0 10 10 false false).
Proof.
  split; [apply perm_swap|].
  apply paint_cell_perm. apply perm_swap.
Defined.
