(* ===== verification/Tiling.v ===== *)
(** * The treemap contract and the tiling of the region

    The abstract contract of a slice-and-dice treemap ([treemap]): a set of
    rows is drawn as one cell, or left out when it weighs nothing, or split
    in two parts with the region cut by a guillotine cut
    ([Region.guillotine]) at the first part's share of the weight.  The
    splitter of [tetris.py] (lines 74-144, [Splitter.layout]) refines it,
    and returns on every input from level 1 ([layout_refines_treemap]); the
    choices the code makes -- which groups go to which part (the greedy
    buckets), which way to cut (the aspect ratio) and when to stop (a
    single row, or the level past the last) -- are invisible to the
    contract.

    Every treemap of a well-formed region tiles it ([treemap_tiles]): its
    cells lie in the region and their interiors are apart.  With the area
    theorem [Splitter.layout_areas] the painted cells cover the region up
    to their borders ([layout_tiling]). *)

From S2P Require Import Prelude Table Greedy Region Splitter.

Open Scope Q_scope.

(** The cells lie in [r] and their interiors are pairwise apart. *)
Definition tiles (r : region) (cells : list (list row * region)) : Prop :=
  Forall (λ c, subregion c.2 r) cells ∧
  ForallOrdPairs (λ c c', disjoint_interiors c.2 c'.2) cells.

Lemma tiles_nil r : tiles r [].
Proof. split; constructor. Qed.

Lemma tiles_leaf d r : tiles r [(d, r)].
Proof. split; [constructor; [cbn [snd]; reflexivity|constructor]|repeat constructor]. Qed.

(** A node of non-negative rows: both buckets weigh at least zero, they
    hold non-negative rows, and when they weigh more than zero together
    the share of the first is in [0, 1]. *)
Lemma node_share d levels lv :
  Forall (λ x, 0 <= r_area x) d →
  let b := node_buckets d levels lv in
  0 <= tree_1_size b ∧ 0 <= tree_2_size b ∧
  (0 < tree_1_size b + tree_2_size b → 0 <= first_share b <= 1) ∧
  Forall (λ x, 0 <= r_area x) (data_1 b) ∧ Forall (λ x, 0 <= r_area x) (data_2 b).
Proof.
  intros Hn b. destruct (node_forall _ d levels lv Hn) as [Hn1 Hn2].
  destruct (node_weights d levels lv) as [Hw1 Hw2]. fold b in Hw1, Hw2, Hn1, Hn2.
  pose proof (weight_nonneg _ Hn1). pose proof (weight_nonneg _ Hn2).
  split_and!; [lra|lra| |done|done].
  intros HT. apply (first_share_facts b); lra.
Qed.

(** Tilings of the two parts of a guillotine cut tile the region. *)
Lemma tiles_cut s r r1 r2 c1 c2 :
  0 <= s <= 1 → well_formed r → guillotine s r r1 r2 →
  tiles r1 c1 → tiles r2 c2 → tiles r (c1 ++ c2).
Proof.
  intros Hs Hwf Hg [Hsub1 Hp1] [Hsub2 Hp2].
  destruct (guillotine_sub s r r1 r2 Hs Hwf Hg) as ([Hr1 _] & [Hr2 _] & Hap). split.
  - apply Forall_app. split; (eapply Forall_impl; [done|]); intros c Hc; (etrans; [exact Hc|done]).
  - apply ForallOrdPairs_app; [done|done|].
    apply Forall_forall. intros c1' Hc1. apply Forall_forall. intros c2' Hc2 p [Hi1 Hi2].
    rewrite Forall_forall in Hsub1, Hsub2.
    apply (Hap p). split.
    + exact (subregion_interior _ _ p (Hsub1 c1' Hc1) Hi1).
    + exact (subregion_interior _ _ p (Hsub2 c2' Hc2) Hi2).
Qed.

(** ** The contract of a treemap

    [treemap r d cells]: [cells] is a slice-and-dice treemap of the rows
    [d] in the region [r].  A non-empty set of rows may be drawn as one
    cell; rows of total weight zero may be left out; otherwise the rows
    are split into two parts and the region is cut by a guillotine cut at
    the first part's share of the weight, each part drawn as a treemap of
    its piece.  The contract says nothing of how the parts or the cut
    direction are chosen. *)
Inductive treemap : region → list row → list (list row * region) → Prop :=
| tm_cell r d : d ≠ [] → treemap r d [(d, r)]
| tm_void r d : weight d == 0 → treemap r d []
| tm_cut r d d1 d2 s r1 r2 c1 c2 :
    d1 ++ d2 ≡ₚ d → 0 <= s <= 1 → s * weight d == weight d1 →
    guillotine s r r1 r2 → treemap r1 d1 c1 → treemap r2 d2 c2 →
    treemap r d (c1 ++ c2).

(** Every treemap of a well-formed region tiles it. *)
Lemma treemap_tiles r d cells : well_formed r → treemap r d cells → tiles r cells.
Proof.
  intros Hwf Ht. revert Hwf. induction Ht as [r d|r d|r d d1 d2 s r1 r2 c1 c2 _ Hs _ Hg _ IH1 _ IH2];
    intros Hwf; [apply tiles_leaf|apply tiles_nil|].
  destruct (guillotine_sub s r r1 r2 Hs Hwf Hg) as ([_ Hwf1] & [_ Hwf2] & _).
  apply (tiles_cut s r r1 r2); auto.
Qed.

(** A node of non-negative rows cuts at a share in [0, 1] that is the first
    bucket's share of the weight -- also when the node weighs nothing, where
    the share is [0 / 0], [0] in the model. *)
Lemma node_cut d levels lv :
  Forall (λ x, 0 <= r_area x) d →
  let b := node_buckets d levels lv in
  0 <= first_share b <= 1 ∧ first_share b * weight d == weight (data_1 b).
Proof.
  intros Hn b. destruct (node_share d levels lv Hn) as (H1 & H2 & Hs & _ & _).
  pose proof (node_total d levels lv) as Htot. destruct (node_weights d levels lv) as [W1 _].
  fold b in H1, H2, Hs, Htot, W1. rewrite <- W1, <- Htot.
  destruct (Qlt_le_dec 0 (tree_1_size b + tree_2_size b)) as [HT|HT].
  - destruct (first_share_facts b H1 H2 HT) as (E & _ & Hs'). split; [done|]. by rewrite E.
  - assert (tree_1_size b == 0) as Z1 by lra. assert (tree_1_size b + tree_2_size b == 0) as Z by lra.
    assert (first_share b == 0) as F by (unfold first_share; rewrite Z1; unfold Qdiv; ring).
    rewrite F, Z1. split; [lra|ring].
Qed.

(** The unpainted half of a node of non-negative rows is a void treemap. *)
Lemma half_void r t d :
  Forall (λ x, 0 <= r_area x) d → t == weight d → t <= 0 → treemap r d [].
Proof. intros Hn Ht Hle. pose proof (weight_nonneg d Hn). constructor. lra. Qed.

(** The splitter's result is a treemap of its rows (partial correctness
    of [layout] against the contract). *)
Lemma layout_treemap fuel data levels level r cells :
  Forall (λ x, 0 <= r_area x) data →
  layout fuel data levels level r = Ok cells → treemap r data cells.
Proof.
  intros Hn H. revert Hn.
  eapply (split_Ok_ind _ levels
    (λ data _ r cells, Forall (λ x, 0 <= r_area x) data → treemap r data cells)); [..|exact H].
  - intros. constructor. done.
  - intros d lv r0 out Hne _ ->%layout_leaf _. by constructor.
  - intros d lv r0 s1 s2 _ _ _ b IH1 Hs1 IH2 Hs2 Hn.
    destruct (node_forall _ d levels (group_level d levels lv) Hn) as [Hn1 Hn2].
    destruct (node_weights d levels (group_level d levels lv)) as [W1 W2].
    destruct (node_cut d levels (group_level d levels lv) Hn) as [Hs Hw].
    fold b in Hn1, Hn2, W1, W2, Hs, Hw.
    apply (tm_cut r0 d (data_1 b) (data_2 b) (first_share b)
      (split_region (first_share b) r0).1 (split_region (first_share b) r0).2);
      [apply node_rows|done|done|apply split_region_guillotine| |].
    + destruct (Qlt_le_dec 0 (tree_1_size b)); [auto|rewrite Hs1 by done; by apply (half_void _ (tree_1_size b))].
    + destruct (Qlt_le_dec 0 (tree_2_size b)); [auto|rewrite Hs2 by done; by apply (half_void _ (tree_2_size b))].
Qed.

(** From level 1 on a non-empty level list, the splitter with [layout]'s
    painter raises nothing but a fuel exhaustion. *)
Lemma layout_error_is_fuel fuel data levels level r e :
  (1 <= level)%nat → levels ≠ [] →
  layout fuel data levels level r = Err e → e = OutOfFuel.
Proof.
  intros Hl Hne H. apply (split_raises _ [] fuel data levels level r) in H; [set_solver|..|done|done].
  intros d r'. auto with tetris.
Qed.

(** C5. The treemap is a tiling: with non-negative weights and a
    well-formed region, every cell the splitter paints lies in the region
    and the interiors of any two cells are apart. *)
Theorem layout_tiling fuel data levels level r cells :
  Forall (λ x, 0 <= r_area x) data → well_formed r →
  layout fuel data levels level r = Ok cells →
  tiles r cells.
Proof.
  intros Hn Hwf H. apply (treemap_tiles r data); [done|]. by eapply layout_treemap.
Qed.

(** C6. Refinement of the treemap contract, with termination: from level
    1 on a non-empty level list, with non-negative weights and more fuel
    than [split_measure], the splitter returns cells, and they are a
    slice-and-dice treemap of the rows in the region: each node's rows are
    split in two parts and its region cut by a guillotine cut at the first
    part's share of the weight, every leaf a non-empty set of rows drawn as
    one cell, every dropped part of weight zero. *)
Theorem layout_refines_treemap fuel data levels level r :
  Forall (λ x, 0 <= r_area x) data → levels ≠ [] → (1 <= level <= length levels + 1)%nat →
  (split_measure data levels level < fuel)%nat →
  ∃ cells, layout fuel data levels level r = Ok cells ∧ treemap r data cells.
Proof.
  intros Hn Hne Hl Hm.
  destruct (layout fuel data levels level r) as [cells|e] eqn:E.
  - exists cells. split; [done|]. by eapply layout_treemap.
  - exfalso. pose proof (layout_error_is_fuel fuel data levels level r e ltac:(lia) Hne E) as ->.
    by apply (split_fuel_enough _ fuel data levels level r ltac:(lia) Hm).
Qed.

Lemma layout_tiling_witness :
  Forall (λ x, 0 <= r_area x) scenario_B_rows ∧ well_formed scenario_B_region ∧
  layout 4 scenario_B_rows ["dept"] 1 scenario_B_region = Ok scenario_B_cells ∧
  tiles scenario_B_region scenario_B_cells.
Proof.
  assert (Hn : Forall (λ x, 0 <= r_area x) scenario_B_rows) by (repeat constructor; simpl; lra).
  assert (Hwf : well_formed scenario_B_region) by (split; simpl; lra).
  assert (H : layout 4 scenario_B_rows ["dept"] 1 scenario_B_region = Ok scenario_B_cells)
    by (vm_compute; reflexivity).
  split_and!; [exact Hn|exact Hwf|exact H|].
  exact (layout_tiling 4 scenario_B_rows ["dept"] 1 scenario_B_region _ Hn Hwf H).
Defined.

Lemma layout_refines_treemap_witness :
  ∃ cells, layout 8 scenario_B_rows ["dept"] 1 scenario_B_region = Ok cells ∧
    treemap scenario_B_region scenario_B_rows cells.
Proof.
  apply layout_refines_treemap; [repeat constructor; simpl; lra|done|simpl; lia|vm_compute; lia].
Defined.
