(* ===== verification/Driver.v ===== *)
(** * The diagram driver: [tree_paint] and the command table

    [src/tetris.py] lines 15-72 ([tree_paint]) and the pure parts of the
    command loop (lines 230-272).  [tree_paint] sets up the canvas (paper,
    orientation, margins, a title naming the input sheet: [canvas_of])
    and starts the document with its header and a comment recording the
    job's parameters ([doc_header], lines 16-27).  It checks that the area,
    quality and level columns exist (lines 43-56; a missing column skips
    the diagram, which returns [""]), then paints one diagram row per
    prefix of the levels (lines 58-70): the row for [levels[0:k]] is the
    region [(5, 5 + 73 (k-1), 205, 73 + 73 (k-1))], the text field is the
    [k]-th level, and the rows are painted by [split_into_subtrees] from
    level 1.  The fuel given to the splitter is one more than its
    [split_measure], which [Splitter.split_terminates] shows is enough.

    The shape of the document ([doc_wf]: header, parameters, one level comment per
    prefix of the levels followed by whole cell blocks, [</svg>]) and the
    bands of the diagram rows ([rows_placed]: each row's rectangles lie in
    its band and are pairwise apart, being the cells of a treemap of the
    band, [Tiling]) are proved of every drawing.
    The levels cell of the command table is parsed here (line 237); the
    rest of the command loop is in [Commands]. *)

From Stdlib Require Import Ascii.
From S2P Require Import Prelude Table Region Greedy Splitter Classifier LabelFit PaintCell Tiling.

Open Scope Q_scope.

(** Lines 29-37. *)
Definition margin : Q := 5.
Definition row_height : Q := 68.

(** The region of the diagram row whose top is [y0]; its coordinates
    are Python numbers (lines 33-37, 69-70). *)
Definition row_region (y0 : Q) : region := mkRegion margin y0 205 (y0 + row_height) false false.

Definition split_fuel (data : list row) (current_level : list string) : nat :=
  S (split_measure data current_level 1).

(** Lines 59-70: the loop over [levels], [current_level] growing by one
    level per diagram row. *)
Fixpoint level_rows (data : list row) (borders : list border)
    (current_level todo : list string) (y0 : Q) : result (list svg_item) :=
  match todo with
  | [] => Ok []
  | item :: todo' =>
      let current_level' := current_level ++ [item] in
      s ← split_into_subtrees (paint_cell (length current_level) borders)
            (split_fuel data current_level') data current_level' 1 (row_region y0);
      rest ← level_rows data borders current_level' todo' (y0 + (margin + row_height));
      Ok (SvgLevel current_level' :: s ++ rest)
  end.

(** Lines 16-22: the canvas settings, titled with the input sheet. *)
Definition canvas_of (input_sheet : string) : canvas_setup :=
  mkCanvasSetup "A4" "portrait" (15, 13, 15, 8) (30, 19, 21, 14)
    ("Tetris Tree / Voronoi Diagram for " +:+ input_sheet) "tetris.py".

(** Lines 23-27: the first items of the document. *)
Definition doc_header (input_sheet : string) (levels : list string) (area quality : string)
    (borders : list border) : list svg_item :=
  [SvgHeader (canvas_of input_sheet); SvgParams levels area quality borders;
   SvgSetupNote (canvas_of input_sheet)].

(** Lines 15-72; [None] is the skipped diagram ([return ""], lines 42-56).
    The header is built before the column checks, but a skipped diagram
    discards it. *)
Definition tree_paint (input_sheet : string) (columns levels : list string)
    (area quality : string) (borders : list border) (data : list row)
    : result (option (list svg_item)) :=
  if decide (area ∈ columns ∧ quality ∈ columns ∧ Forall (λ f, f ∈ columns) levels) then
    s ← level_rows data borders [] levels margin;
    Ok (Some (doc_header input_sheet levels area quality borders ++ s ++ [SvgEnd]))
  else Ok None.

(** ** The command table *)

(** [s.replace(" ", "")]. *)
Fixpoint remove_spaces (s : string) : string :=
  match s with
  | EmptyString => EmptyString
  | String c s' => if decide (c = " "%char) then remove_spaces s' else String c (remove_spaces s')
  end.

(** [s.split(sep)]: always at least one piece. *)
Fixpoint split_on (sep : ascii) (s : string) : list string :=
  match s with
  | EmptyString => [EmptyString]
  | String c s' =>
      match split_on sep s' with
      | [] => [String c EmptyString]
      | w :: ws => if decide (c = sep) then EmptyString :: w :: ws else String c w :: ws
      end
  end.

(** [sep.join(ws)]. *)
Fixpoint join_with (sep : ascii) (ws : list string) : string :=
  match ws with
  | [] => EmptyString
  | [w] => w
  | w :: ws' => String.append w (String sep (join_with sep ws'))
  end.

(** Line 237: [levelstr.replace(" ", "").split(",")]. *)
Definition parse_levels (levelstr : string) : list string :=
  split_on ","%char (remove_spaces levelstr).

(** ** The shape of the document *)

(** The three instructions [paint_cell] emits for one cell: the filled
    rectangle, the comment with the label's sizes, the label. *)
Definition cell_block (b : list svg_item) : Prop :=
  ∃ x y w h fill text mps ts tx ty fs fg a,
    b = [SvgRect x y w h fill; SvgCellNote text mps ts; SvgText tx ty text fs fg a].

(** The diagram rows still to draw after [cur]: one level comment per
    prefix of the levels, followed by the blocks of its cells. *)
Inductive rows_wf : list string → list string → list svg_item → Prop :=
  | rows_wf_nil cur : rows_wf cur [] []
  | rows_wf_cons cur item todo cells rest :
      Forall cell_block cells → rows_wf (cur ++ [item]) todo rest →
      rows_wf cur (item :: todo) (SvgLevel (cur ++ [item]) :: concat cells ++ rest).

(** A whole document: the header, the parameters comment naming
    [levels], the notes on the same canvas settings, the diagram rows of
    [levels], [</svg>]. *)
Definition doc_wf (levels : list string) (doc : list svg_item) : Prop :=
  ∃ setup area quality borders s,
    doc = SvgHeader setup :: SvgParams levels area quality borders :: SvgSetupNote setup ::
      s ++ [SvgEnd] ∧
    rows_wf [] levels s.

(** The rectangle an instruction draws, if any, and the rectangles of a
    sequence of instructions. *)
Definition rect_of (it : svg_item) : option region :=
  match it with SvgRect x y w h _ => Some (mkRegion x y (x + w) (y + h) false false) | _ => None end.

Definition rects (out : list svg_item) : list region := omap rect_of out.

(** The diagram rows from the one whose top is [y0]: the rectangles of
    each row lie in its band and no two of them overlap, and the next row
    starts [margin + height] lower (lines 69-70). *)
Inductive rows_placed : Q → list string → list svg_item → Prop :=
  | rows_placed_nil y0 : rows_placed y0 [] []
  | rows_placed_cons y0 l item todo out rest :
      Forall (λ c, subregion c (row_region y0)) (rects out) →
      ForallOrdPairs disjoint_interiors (rects out) →
      rows_placed (y0 + (margin + row_height)) todo rest →
      rows_placed y0 (item :: todo) (SvgLevel l :: out ++ rest).

(** ** Theorems *)

(** [paint_cell] implements the splitter's painter interface. *)
#[export] Instance paint_cell_painter tf borders : Painter (paint_cell tf borders).
Proof. split. intros d r. apply paint_cell_not_out_of_fuel. Qed.

Lemma level_rows_not_out_of_fuel data borders todo : ∀ current_level y0,
  not_out_of_fuel (level_rows data borders current_level todo y0).
Proof.
  induction todo as [|item todo IH]; intros current_level y0; cbn [level_rows];
    [apply Ok_not_out_of_fuel|].
  apply bind_not_out_of_fuel.
  - apply split_fuel_enough; [apply _|lia|unfold split_fuel; lia].
  - intros s _. apply bind_not_out_of_fuel; [apply IH|intros; apply Ok_not_out_of_fuel].
Qed.

(** The diagram rows raise what the cells raise, or run out of fuel. *)
Lemma level_rows_raises data borders todo : ∀ current_level y0,
  raises_only (OutOfFuel :: cell_errors) (level_rows data borders current_level todo y0).
Proof.
  induction todo as [|item todo IH]; intros current_level y0; cbn [level_rows]; [auto with tetris|].
  apply bind_raises_only; [|intros s _; apply bind_raises_only; [apply IH|auto with tetris]].
  apply split_raises; [intros; apply paint_cell_raises|lia|by destruct current_level].
Qed.

(** [tree_paint] never exhausts its fuel (shared by the termination claim
    and the liveness of the command loop). *)
Lemma tree_paint_total input_sheet columns levels area quality borders data :
  not_out_of_fuel (tree_paint input_sheet columns levels area quality borders data).
Proof.
  unfold tree_paint. case_decide; [|apply Ok_not_out_of_fuel].
  apply bind_not_out_of_fuel; [apply level_rows_not_out_of_fuel|].
  intros. apply Ok_not_out_of_fuel.
Qed.
#[export] Hint Resolve tree_paint_total : tetris.

(** The exceptions of the driver are the cells' (shared by the claim
    below and the command loop). *)
Lemma tree_paint_raises input_sheet columns levels area quality borders data :
  raises_only cell_errors (tree_paint input_sheet columns levels area quality borders data).
Proof.
  apply raises_only_fuel; [|apply tree_paint_total].
  unfold tree_paint. case_decide; [|auto with tetris].
  apply bind_raises_only; [apply level_rows_raises|auto with tetris].
Qed.

(** C17. The driver always terminates, and only a cell can make it fail:
    for every table, level list and rule list, [tree_paint] returns a
    diagram or a skip, or raises one of the exceptions of [paint_cell] --
    [IndexError] (no colour rule), [ValueError] (a malformed threshold,
    or a nan label ratio), [ZeroDivisionError] or [OverflowError] (an
    empty label).  It never runs out of fuel (the fuel it gives the
    splitter is enough), and never raises the splitter's own error, the
    [ValueError] of [groupby([])] (line 97, [NoGroupKeys]). *)
Theorem tree_paint_terminates input_sheet columns levels area quality borders data :
  raises_only cell_errors (tree_paint input_sheet columns levels area quality borders data).
Proof. apply tree_paint_raises. Qed.

Lemma split_on_cons sep s : ∃ w ws, split_on sep s = w :: ws.
Proof.
  induction s as [|c s (w & ws & IH)]; simpl; [eauto|]. rewrite IH.
  case_decide; eauto.
Qed.

Lemma join_with_cons sep c w ws :
  join_with sep (String c w :: ws) = String c (join_with sep (w :: ws)).
Proof. by destruct ws. Qed.

Lemma join_split sep s : join_with sep (split_on sep s) = s.
Proof.
  induction s as [|c s IHs]; [done|]. cbn [split_on].
  destruct (split_on_cons sep s) as (w & ws & Hs). rewrite Hs in IHs |- *.
  case_decide as Hc.
  - change (join_with sep (EmptyString :: w :: ws)) with (String sep (join_with sep (w :: ws))).
    by rewrite IHs, Hc.
  - by rewrite join_with_cons, IHs.
Qed.

(** The characters of a string. *)
Definition chars (s : string) : list ascii := String.list_ascii_of_string s.

Lemma split_on_chars sep s :
  Forall (λ w, ∀ x, x ∈ chars w → x ≠ sep ∧ x ∈ chars s) (split_on sep s).
Proof.
  induction s as [|a s IHs]; cbn [split_on].
  - constructor; [|constructor]. intros x Hx. by apply not_elem_of_nil in Hx.
  - destruct (split_on_cons sep s) as (w & ws & Hs). rewrite Hs in IHs |- *.
    apply Forall_cons in IHs as [Hw Hws].
    assert (Forall (λ w', ∀ x, x ∈ chars w' → x ≠ sep ∧ x ∈ chars (String a s)) ws) as Hws'.
    { eapply Forall_impl; [exact Hws|]. intros w' H x Hx.
      destruct (H x Hx). split; [done|]. simpl. by right. }
    case_decide as Ha.
    + constructor; [intros x Hx; by apply not_elem_of_nil in Hx|].
      constructor; [|done]. intros x Hx. destruct (Hw x Hx). split; [done|]. simpl. by right.
    + constructor; [|done]. intros x Hx. simpl in Hx.
      apply elem_of_cons in Hx as [->|Hx]; [split; [done|by left]|].
      destruct (Hw x Hx). split; [done|]. simpl. by right.
Qed.

Lemma remove_spaces_chars s x : x ∈ chars (remove_spaces s) → x ≠ " "%char.
Proof.
  induction s as [|a s IHs]; cbn [remove_spaces]; [intros Hx; by apply not_elem_of_nil in Hx|].
  case_decide; [done|]. simpl. intros [->|Hx]%elem_of_cons; auto.
Qed.

(** C30. Parsing the levels cell: the level names joined back with
    commas give the cell without its spaces, and no level name contains a
    comma or a space ([levelstr.replace(" ", "").split(",")]). *)
Theorem parse_levels_roundtrip levelstr :
  join_with ","%char (parse_levels levelstr) = remove_spaces levelstr ∧
  Forall (λ w, ∀ x, x ∈ chars w → x ≠ ","%char ∧ x ≠ " "%char) (parse_levels levelstr).
Proof.
  unfold parse_levels. split; [apply join_split|].
  eapply Forall_impl; [apply split_on_chars|]. intros w H x Hx.
  destruct (H x Hx) as [? Hs]. split; [done|]. by apply remove_spaces_chars in Hs.
Qed.

Lemma paint_cell_no_rules tf d r : paint_cell tf [] d r = Err IndexError.
Proof. reflexivity. Qed.

(** C20. An empty rule list is not rejected up front: when the columns
    exist and the table weighs more than zero, [tree_paint] starts
    drawing and raises [IndexError] at [borders[-1]] (line 152) in the
    first cell it paints. *)
Theorem tree_paint_no_rules input_sheet columns levels area quality data :
  area ∈ columns → quality ∈ columns → Forall (λ f, f ∈ columns) levels →
  levels ≠ [] → 0 < weight data →
  tree_paint input_sheet columns levels area quality [] data = Err IndexError.
Proof.
  intros Ha Hq Hl Hne Hw. unfold tree_paint. rewrite decide_True by done.
  destruct levels as [|item levels]; [done|]. cbn [level_rows].
  rewrite (split_positive_paints _ IndexError); [done|apply paint_cell_no_rules|simpl; lia|done|].
  unfold split_fuel. lia.
Qed.

Lemma tree_paint_no_rules_witness :
  "Area" ∈ ["Dept"; "Area"; "Q"] ∧ "Q" ∈ ["Dept"; "Area"; "Q"] ∧
  Forall (λ f, f ∈ ["Dept"; "Area"; "Q"]) ["Dept"] ∧ ["Dept"] ≠ [] ∧
  0 < weight [mkRow ["A"] 70 90; mkRow ["B"] 30 10] ∧
  tree_paint "Org" ["Dept"; "Area"; "Q"] ["Dept"] "Area" "Q" []
    [mkRow ["A"] 70 90; mkRow ["B"] 30 10] = Err IndexError.
Proof.
  assert (Ha : "Area" ∈ ["Dept"; "Area"; "Q"]) by (vm_compute; set_solver).
  assert (Hq : "Q" ∈ ["Dept"; "Area"; "Q"]) by set_solver.
  assert (Hl : Forall (λ f, f ∈ ["Dept"; "Area"; "Q"]) ["Dept"]) by (repeat constructor).
  assert (Hw : 0 < weight [mkRow ["A"] 70 90; mkRow ["B"] 30 10]) by (unfold weight; simpl; lra).
  split_and!; [done..|].
  exact (tree_paint_no_rules _ _ _ _ _ _ Ha Hq Hl ltac:(discriminate) Hw).
Defined.

Lemma paint_cell_block tf borders d r out :
  paint_cell tf borders d r = Ok out → cell_block out.
Proof.
  unfold paint_cell. intros H. inv_bind. destruct x as [bg fg]. inv_bind. subst.
  unfold cell_block. eauto 20.
Qed.

(** The splitter with [paint_cell] emits whole cell blocks. *)
Lemma split_blocks tf borders fuel data levels level r out :
  split_into_subtrees (paint_cell tf borders) fuel data levels level r = Ok out →
  ∃ cells, out = concat cells ∧ Forall cell_block cells.
Proof.
  revert data level r out. apply (split_Ok_ind _ levels).
  - intros. by exists [].
  - intros d lv r0 out _ _ Hp. exists [out]. split; [simpl; by rewrite app_nil_r|].
    repeat constructor. by eapply paint_cell_block.
  - intros d lv r0 s1 s2 _ _ _ b IH1 Hs1 IH2 Hs2.
    set (Pb := λ out : list svg_item, ∃ cells, out = concat cells ∧ Forall cell_block cells).
    assert (Pb []) as Hnil by (by exists []).
    pose proof (half_cases Pb _ s1 Hnil IH1 Hs1) as H1.
    pose proof (half_cases Pb _ s2 Hnil IH2 Hs2) as H2.
    destruct H1 as (c1 & -> & Hc1), H2 as (c2 & -> & Hc2).
    exists (c1 ++ c2). rewrite concat_app. split; [done|by apply Forall_app].
Qed.

Lemma level_rows_wf data borders todo : ∀ cur y0 s,
  level_rows data borders cur todo y0 = Ok s → rows_wf cur todo s.
Proof.
  induction todo as [|item todo IH]; intros cur y0 s H; cbn [level_rows] in H.
  - injection H as <-. constructor.
  - apply bind_Ok in H as (out & Hout & H). apply bind_Ok in H as (rest & Hrest & [= <-]).
    destruct (split_blocks _ _ _ _ _ _ _ _ Hout) as (cells & -> & Hc).
    constructor; [done|]. by eapply IH.
Qed.

(** A drawn diagram is the header, the diagram rows of the level loop and
    [</svg>]. *)
Lemma tree_paint_Some input_sheet columns levels area quality borders data doc :
  tree_paint input_sheet columns levels area quality borders data = Ok (Some doc) →
  ∃ s, doc = doc_header input_sheet levels area quality borders ++ s ++ [SvgEnd] ∧
    level_rows data borders [] levels margin = Ok s.
Proof.
  unfold tree_paint. case_decide; [|done]. intros Hd.
  apply bind_Ok in Hd as (s & Hs & [= <-]). eauto.
Qed.

(** C18. The document is well formed: whenever [tree_paint] draws a
    diagram, it is the header, then for each prefix [levels[0:k]] of the
    levels in order its level comment followed by whole cell blocks
    (rectangle, comment, label), then [</svg>]. *)
Theorem tree_paint_doc_wf input_sheet columns levels area quality borders data doc :
  tree_paint input_sheet columns levels area quality borders data = Ok (Some doc) →
  doc_wf levels doc.
Proof.
  intros (s & -> & Hs)%tree_paint_Some. do 5 eexists. split; [done|]. by eapply level_rows_wf.
Qed.

Lemma tree_paint_doc_wf_witness :
  match tree_paint "Org" ["Dept"; "Team"; "Area"; "Q"] ["Dept"; "Team"] "Area" "Q"
          [mkBorder ">80" "green" ""; mkBorder "" "gray" ""]
          [mkRow ["A"; "x"] 70 90; mkRow ["A"; "y"] 20 50; mkRow ["B"; "z"] 10 10] with
  | Ok (Some doc) => doc_wf ["Dept"; "Team"] doc
  | _ => False
  end.
Proof.
  destruct (tree_paint _ _ _ _ _ _ _) as [[doc|]|e] eqn:E.
  - exact (tree_paint_doc_wf _ _ _ _ _ _ _ doc E).
  - vm_compute in E. discriminate.
  - vm_compute in E. discriminate.
Defined.

(** A cell draws one rectangle: its region, up to the representation of
    the coordinates ([x0 + (x1 - x0)] for [x1]). *)
Lemma paint_cell_rects tf borders d r out :
  paint_cell tf borders d r = Ok out → ∃ r', rects out = [r'] ∧ region_equiv r' r.
Proof.
  unfold paint_cell. intros H. inv_bind. destruct x as [bg fg]. inv_bind. subst.
  eexists. split; [reflexivity|]. unfold region_equiv. simpl. split_and!; ring.
Qed.

(** The rectangles of painted cells are the cells' regions, in order. *)
Lemma paint_all_rects tf borders cells out :
  paint_all (paint_cell tf borders) cells = Ok out →
  Forall2 (λ r' c, region_equiv r' c.2) (rects out) cells.
Proof.
  unfold paint_all. intros H. apply bind_Ok in H as (outs & Houts & [= <-]).
  revert outs Houts. induction cells as [|c cells IH]; intros outs H; cbn [mapM] in H.
  - injection H as <-. constructor.
  - apply bind_Ok in H as (o & Ho & H). apply bind_Ok in H as (os & Hos & [= <-]).
    destruct (paint_cell_rects _ _ _ _ _ Ho) as (r' & Hr & He).
    unfold rects in *. rewrite concat_cons, omap_app, Hr. constructor; [done|]. by apply IH.
Qed.

(** The rectangles one diagram row draws tile its band: they are the
    regions of the layout's cells, which tile it. *)
Lemma split_rects_tile tf borders data cur y0 out :
  Forall (λ x, 0 <= r_area x) data → cur ≠ [] →
  split_into_subtrees (paint_cell tf borders) (split_fuel data cur) data cur 1 (row_region y0)
    = Ok out →
  Forall (λ c, subregion c (row_region y0)) (rects out) ∧
  ForallOrdPairs disjoint_interiors (rects out).
Proof.
  intros Hn Hne H.
  destruct (layout (split_fuel data cur) data cur 1 (row_region y0)) as [cells|e] eqn:Hl.
  2:{ exfalso. apply (layout_error_is_fuel _ _ _ _ _ e) in Hl as He; [subst e|lia|done].
      exact (split_fuel_enough (λ d r', Ok [(d, r')]) (split_fuel data cur) data cur 1
        (row_region y0) ltac:(lia) ltac:(unfold split_fuel; lia) Hl). }
  rewrite (split_paint_all _ cur _ _ _ _ cells Hl) in H. apply paint_all_rects in H.
  destruct (treemap_tiles (row_region y0) data cells) as [Hsub Hap];
    [unfold well_formed, row_region, margin, row_height; simpl; lra|by eapply layout_treemap|].
  split.
  - eapply Forall2_Forall_l; [exact H|]. eapply Forall_impl; [exact Hsub|].
    intros c Hc r' Hr. by rewrite Hr.
  - eapply ForallOrdPairs_transport; [|exact H|exact Hap].
    intros a a' b b' Ha Ha' Hb. by rewrite Ha, Ha'.
Qed.

Lemma level_rows_placed data borders todo : ∀ cur y0 s,
  Forall (λ x, 0 <= r_area x) data →
  level_rows data borders cur todo y0 = Ok s → rows_placed y0 todo s.
Proof.
  induction todo as [|item todo IH]; intros cur y0 s Hn H; cbn [level_rows] in H.
  - injection H as <-. constructor.
  - apply bind_Ok in H as (out & Hout & H). apply bind_Ok in H as (rest & Hrest & [= <-]).
    destruct (split_rects_tile _ _ _ (cur ++ [item]) _ _ Hn ltac:(by destruct cur) Hout).
    constructor; [done|done|by eapply IH].
Qed.

(** C19. The diagram rows are stacked and each is a tiling: with
    non-negative weights, every rectangle [tree_paint] draws for the
    [k]-th prefix of the levels lies in the band of the [k]-th diagram row
    (top [5 + 73 k], height 68, from x = 5 to 205), no two rectangles of
    one diagram row overlap, and the bands of two different rows do not
    overlap. *)
Theorem tree_paint_rows_stacked input_sheet columns levels area quality borders data doc :
  Forall (λ x, 0 <= r_area x) data →
  tree_paint input_sheet columns levels area quality borders data = Ok (Some doc) →
  (∃ s, doc = doc_header input_sheet levels area quality borders ++ s ++ [SvgEnd] ∧
     rows_placed margin levels s) ∧
  ∀ y (k : nat), (0 < k)%nat →
    disjoint_interiors (row_region y)
      (row_region (y + inject_Z (Z.of_nat k) * (margin + row_height))).
Proof.
  intros Hn (s & -> & Hs)%tree_paint_Some. split.
  - exists s. split; [done|]. by eapply level_rows_placed.
  - intros y k Hk [px py]. unfold interior, row_region, margin, row_height. simpl.
    assert (1 <= inject_Z (Z.of_nat k)) by (unfold Qle; simpl; lia). nra.
Qed.

Lemma tree_paint_rows_stacked_witness :
  Forall (λ x, 0 <= r_area x) [mkRow ["A"; "x"] 70 90; mkRow ["A"; "y"] 20 50; mkRow ["B"; "z"] 10 10] ∧
  match tree_paint "Org" ["Dept"; "Team"; "Area"; "Q"] ["Dept"; "Team"] "Area" "Q"
          [mkBorder ">80" "green" ""; mkBorder "" "gray" ""]
          [mkRow ["A"; "x"] 70 90; mkRow ["A"; "y"] 20 50; mkRow ["B"; "z"] 10 10] with
  | Ok (Some doc) =>
      (∃ s, doc = doc_header "Org" ["Dept"; "Team"] "Area" "Q"
                    [mkBorder ">80" "green" ""; mkBorder "" "gray" ""] ++ s ++ [SvgEnd] ∧
         rows_placed margin ["Dept"; "Team"] s) ∧
      ∀ y (k : nat), (0 < k)%nat →
        disjoint_interiors (row_region y)
          (row_region (y + inject_Z (Z.of_nat k) * (margin + row_height)))
  | _ => False
  end.
Proof.
  assert (Hn : Forall (λ x, 0 <= r_area x)
    [mkRow ["A"; "x"] 70 90; mkRow ["A"; "y"] 20 50; mkRow ["B"; "z"] 10 10])
    by (repeat constructor; simpl; lra).
  split; [exact Hn|].
  destruct (tree_paint _ _ _ _ _ _ _) as [[doc|]|e] eqn:E.
  - exact (tree_paint_rows_stacked _ _ _ _ _ _ _ doc Hn E).
  - vm_compute in E. discriminate.
  - vm_compute in E. discriminate.
Defined.
