(* ===== verification/Commands.v ===== *)
(** * The command loop: the script body of [src/tetris.py] (lines 206-278)

    The script picks the workbook ([sys.argv[1]] or ["tetris.xlsx"]),
    exits when the file or its [Commands] sheet is missing, and then runs
    one job per row of the [Commands] sheet:

    - a row whose [active] cell is ["#"] is skipped (lines 231-234);
    - the levels, area, quality, colour sheet and up to six colour rules
      are read from the row (lines 235-247);
    - a missing colour sheet or input sheet skips the row (lines 251-254,
      267-270);
    - the colour sheet becomes the colour table [_colors] of the SVG
      object (lines 256-264);
    - [tree_paint] draws the diagram, which is saved when it is not empty
      (lines 272-278).

    A sheet row is a Python dict from column names to cells after
    [replace(np.nan, '')], modelled as a [gmap string string]: [row[col]]
    on a missing column raises [KeyError].  The workbook gives the names of
    its sheets, the rows of each sheet, and for the input sheets the
    column names and the frame [df[levels + [area, quality]]
    .set_index(levels)] that [tree_paint] builds (lines 39-40, 61-64).
    Files written by [lib.save_as] are a store from file names to
    contents: a second job writing the same file overwrites the first.
    An exception is not caught anywhere: it ends the script, and the files
    saved before it stay written. *)

From S2P Require Import Prelude Table Region Greedy Splitter Classifier LabelFit PaintCell Driver.

Open Scope Q_scope.

(** A row of a sheet, [nan] cells replaced by [""]. *)
Abbreviation sheet_row := (gmap string string).

(** [row[col]]. *)
Definition get (row : sheet_row) (col : string) : result string :=
  match row !! col with Some v => Ok v | None => raise KeyError end.

(** [str(i)] for [i] in [range(1, 7)]. *)
Definition digit (i : nat) : string := String (Ascii.ascii_of_nat (48 + i)) EmptyString.

(** Lines 243-247: the [i]-th rule, kept when its background is set. *)
Definition border_of_row (row : sheet_row) (i : nat) : result (option border) :=
  rule ← get row ("rule" +:+ digit i);
  bg_color ← get row ("bg_color" +:+ digit i);
  fg_color ← get row ("fg_color" +:+ digit i);
  Ok (if decide (bg_color ≠ "") then Some (mkBorder rule bg_color fg_color) else None).

(** Lines 241-247: [borders]. *)
Definition borders_of_command (row : sheet_row) : result (list border) :=
  bs ← mapM (border_of_row row) (seq 1 6);
  Ok (omap id bs).

(** Lines 257-263: [_colors[c1] = hex; _colors[c2] = hex] for every row
    of the colour sheet, in order. *)
Fixpoint add_colors (colors : gmap string string) (rows : list sheet_row)
    : result (gmap string string) :=
  match rows with
  | [] => Ok colors
  | r :: rs =>
      c1 ← get r "color";
      c2 ← get r "pf_color";
      hex ← get r "hex";
      add_colors (<[c2 := hex]> (<[c1 := hex]> colors)) rs
  end.

Definition color_table (rows : list sheet_row) : result (gmap string string) :=
  add_colors ∅ rows.

(** An input sheet: [df.columns] and the frame [tree_paint] paints for
    given levels, area and quality columns. *)
Record input_frame := mkInputFrame {
  df_columns : list string;
  df_rows : list string → string → string → list row
}.

Record workbook := mkWorkbook {
  sheet_names : list string;
  sheet_rows : string → list sheet_row;
  input_sheets : string → input_frame
}.

(** What the loop did with one row of [Commands]. *)
Inductive job_outcome :=
  | JobCommented
  | JobNoColorSheet (color_sheet : string)
  | JobNoInputSheet (input_sheet : string)
  | JobNoDiagram
  | JobSaved (output_svgfile : string).

(** The content of a saved file: the colour table of the [kajsvg.SVG]
    object and the drawing. *)
Record svg_file := mkSvgFile {
  file_colors : gmap string string;
  file_body : list svg_item
}.

(** Lines 231-278: one iteration of the loop. *)
Definition run_job (wb : workbook) (row : sheet_row)
    : result (job_outcome * option (string * svg_file)) :=
  active ← get row "active";
  input_sheet ← get row "input_sheet";
  if decide (active = "#") then Ok (JobCommented, None) else
  output ← get row "output_svgfile";
  let output_svgfile := output +:+ ".svg" in
  levelstr ← get row "levels";
  let levels := parse_levels levelstr in
  area ← get row "area";
  quality ← get row "quality";
  color_sheet ← get row "color_sheet";
  borders ← borders_of_command row;
  if decide (color_sheet ∉ sheet_names wb) then Ok (JobNoColorSheet color_sheet, None) else
  colors ← color_table (sheet_rows wb color_sheet);
  if decide (input_sheet ∉ sheet_names wb) then Ok (JobNoInputSheet input_sheet, None) else
  let df := input_sheets wb input_sheet in
  svg_str ← tree_paint input_sheet (df_columns df) levels area quality borders
              (df_rows df levels area quality);
  match svg_str with
  | None => Ok (JobNoDiagram, None)
  | Some body => Ok (JobSaved output_svgfile, Some (output_svgfile, mkSvgFile colors body))
  end.

(** The state of the loop: the outcome of every row so far and the files
    written. *)
Record loop_state := mkLoopState {
  outcomes : list job_outcome;
  files : gmap string svg_file
}.

Definition init_state : loop_state := mkLoopState [] ∅.

(** Line 278: [lib.save_as] overwrites. *)
Definition record_job (o : job_outcome) (f : option (string * svg_file)) (st : loop_state)
    : loop_state :=
  mkLoopState (outcomes st ++ [o])
    (match f with Some (name, c) => <[name := c]> (files st) | None => files st end).

(** Line 230: the loop over the rows; an exception ends it. *)
Fixpoint run_jobs (wb : workbook) (rows : list sheet_row) (st : loop_state)
    : loop_state * option py_error :=
  match rows with
  | [] => (st, None)
  | row :: rows' =>
      match run_job wb row with
      | Ok (o, f) => run_jobs wb rows' (record_job o f st)
      | Err e => (st, Some e)
      end
  end.

(** How the script ends. *)
Inductive script_end :=
  | NoInputFile (input_spreadsheet : string)
  | NoCommandsSheet (input_spreadsheet : string)
  | Finished (st : loop_state)
  | Crashed (st : loop_state) (e : py_error).

(** Lines 207-211: [sys.argv[1]] when given. *)
Definition input_spreadsheet_of (argv : list string) : string :=
  match argv with _ :: a :: _ => a | _ => "tetris.xlsx" end.

(** Lines 206-230: [argv] and the files present ([None]: no such file). *)
Definition main (argv : list string) (workbooks : string → option workbook) : script_end :=
  let input_spreadsheet := input_spreadsheet_of argv in
  match workbooks input_spreadsheet with
  | None => NoInputFile input_spreadsheet
  | Some wb =>
      if decide ("Commands" ∉ sheet_names wb) then NoCommandsSheet input_spreadsheet
      else
        match run_jobs wb (sheet_rows wb "Commands") init_state with
        | (st, None) => Finished st
        | (st, Some e) => Crashed st e
        end
  end.

(** ** Reference definitions *)

(** The columns of the [i]-th colour rule. *)
Definition rule_columns (i : nat) : list string :=
  ["rule" +:+ digit i; "bg_color" +:+ digit i; "fg_color" +:+ digit i].

Definition has_columns (row : sheet_row) (cols : list string) : Prop :=
  Forall (λ c, is_Some (row !! c)) cols.

#[export] Instance has_columns_dec row cols : Decision (has_columns row cols).
Proof. unfold has_columns. apply _. Defined.

(** The [i]-th rule triple of a row. *)
Definition rule_triple (row : sheet_row) (i : nat) : border :=
  mkBorder (row !!! ("rule" +:+ digit i)) (row !!! ("bg_color" +:+ digit i))
    (row !!! ("fg_color" +:+ digit i)).

Definition color_columns : list string := ["color"; "pf_color"; "hex"].

(** The writes [_colors[c1] = hex; _colors[c2] = hex] of the colour
    sheet, in order. *)
Definition color_pairs (rows : list sheet_row) : list (string * string) :=
  concat (map (λ r, [(r !!! "color", r !!! "hex"); (r !!! "pf_color", r !!! "hex")]) rows).

(** The file a row writes when it is run. *)
Definition job_file (wb : workbook) (row : sheet_row) : option (string * svg_file) :=
  match run_job wb row with Ok (_, f) => f | Err _ => None end.

(** The loop as a step relation: a step runs one row that does not
    raise; a row that raises ends the script. *)
Inductive loop_step (wb : workbook) : list sheet_row * loop_state → list sheet_row * loop_state → Prop :=
  | loop_step_job row rows st o f :
      run_job wb row = Ok (o, f) → loop_step wb (row :: rows, st) (rows, record_job o f st).

Inductive loop_crash (wb : workbook) : list sheet_row * loop_state → py_error → Prop :=
  | loop_crash_job row rows st e :
      run_job wb row = Err e → loop_crash wb (row :: rows, st) e.

(** ** A sample workbook

    One job drawing the [Data] sheet by [Dept, Team] with the rules
    [>80 green] and the default [gray], a commented-out row, and a row
    without its [output_svgfile] column. *)

Definition rule_cells (i : nat) (rule bg fg : string) : list (string * string) :=
  [("rule" +:+ digit i, rule); ("bg_color" +:+ digit i, bg); ("fg_color" +:+ digit i, fg)].

Definition sample_job : sheet_row :=
  list_to_map ([("active", ""); ("input_sheet", "Data"); ("output_svgfile", "out");
                ("levels", "Dept, Team"); ("area", "Area"); ("quality", "Q");
                ("color_sheet", "Colors")] ++
               rule_cells 1%nat ">80" "green" "" ++ rule_cells 2%nat "" "gray" "" ++
               concat (map (λ i, rule_cells i "" "" "") [3; 4; 5; 6]%nat)).

Definition commented_job : sheet_row := list_to_map [("active", "#"); ("input_sheet", "Old")].

Definition broken_job : sheet_row := list_to_map [("active", ""); ("input_sheet", "Data")].

Definition sample_wb : workbook :=
  mkWorkbook ["Commands"; "Colors"; "Data"]
    (λ s, if decide (s = "Colors")
          then [list_to_map [("color", "green"); ("pf_color", "g"); ("hex", "#00ff00")]]
          else [sample_job; commented_job])
    (λ _, mkInputFrame ["Dept"; "Team"; "Area"; "Q"]
            (λ _ _ _, [mkRow ["A"; "x"] 70 90; mkRow ["B"; "y"] 30 10])).

(** The file the sample job writes. *)
Definition sample_file : svg_file :=
  match job_file sample_wb sample_job with Some (_, c) => c | None => mkSvgFile ∅ [] end.

(** ** Theorems *)

Lemma get_spec row col :
  get row col = if decide (is_Some (row !! col)) then Ok (row !!! col) else raise KeyError.
Proof.
  unfold get. destruct (row !! col) as [v|] eqn:E.
  - rewrite decide_True by eauto. by rewrite (lookup_total_correct _ _ _ E).
  - rewrite decide_False; [done|]. by intros [? ?].
Qed.

(** Three cell reads in a row: [KeyError] unless the row has the three
    columns. *)
Lemma get3_spec {B} row c1 c2 c3 (k : string → string → string → result B) :
  (x ← get row c1; y ← get row c2; z ← get row c3; k x y z) =
    if decide (has_columns row [c1; c2; c3])
    then k (row !!! c1) (row !!! c2) (row !!! c3) else raise KeyError.
Proof.
  unfold has_columns, get.
  destruct (row !! c1) as [x|] eqn:E1; destruct (row !! c2) as [y|] eqn:E2;
  destruct (row !! c3) as [z|] eqn:E3; simpl;
  (destruct (decide (Forall _ _)) as [Hc|Hc];
   [|rewrite !Forall_cons, E1, E2, E3 in Hc; naive_solver]);
  rewrite !Forall_cons, E1, E2, E3 in Hc; try naive_solver.
  by rewrite (lookup_total_correct _ _ _ E1), (lookup_total_correct _ _ _ E2),
    (lookup_total_correct _ _ _ E3).
Qed.

Lemma border_of_row_spec row i :
  border_of_row row i =
    if decide (has_columns row (rule_columns i))
    then Ok (if decide (bg_color (rule_triple row i) ≠ "") then Some (rule_triple row i) else None)
    else raise KeyError.
Proof. apply get3_spec. Qed.

(** C29. The colour rules of a command row: [KeyError] unless the row
    has the eighteen columns [rule1..6], [bg_color1..6], [fg_color1..6];
    otherwise the triples of [i = 1..6] in order, those with an empty
    background left out. *)
Theorem borders_of_command_spec row :
  borders_of_command row =
    if decide (Forall (λ i, has_columns row (rule_columns i)) (seq 1 6))
    then Ok (filter (λ b, bg_color b ≠ "") (map (rule_triple row) (seq 1 6)))
    else raise KeyError.
Proof.
  unfold borders_of_command.
  rewrite (mapM_guarded _ (λ i, has_columns row (rule_columns i))
    (λ i, if decide (bg_color (rule_triple row i) ≠ "") then Some (rule_triple row i) else None) KeyError)
    by (intros; apply border_of_row_spec).
  case_decide; [|done]. rewrite bind_ret. f_equal.
  apply (@omap_keep _ _ (λ b, bg_color b ≠ "") (λ b, not_dec (decide_rel (=) (bg_color b) ""))).
Qed.

Lemma add_colors_spec acc rows :
  add_colors acc rows =
    if decide (Forall (λ r, has_columns r color_columns) rows)
    then Ok (insert_all acc (color_pairs rows)) else raise KeyError.
Proof.
  revert acc. induction rows as [|r rows IH]; intros acc; [by rewrite decide_True|].
  cbn [add_colors]. rewrite get3_spec, IH. unfold color_columns.
  destruct (decide (has_columns r _)), (decide (Forall _ rows)), (decide (Forall _ (r :: rows)));
    rewrite ?Forall_cons in *; naive_solver.
Qed.

(** C28. The colour table equals the reference dict: when every row of
    the colour sheet has the [color], [pf_color] and [hex] columns, a
    colour name maps to the [hex] of the last row that names it in
    either column ([pf_color] after [color] within a row); otherwise the
    loop raises [KeyError]. *)
Theorem color_table_last_wins rows :
  match color_table rows with
  | Ok m => Forall (λ r, has_columns r color_columns) rows ∧
            ∀ c, m !! c = assoc_find c (reverse (color_pairs rows))
  | Err e => e = KeyError ∧ ¬ Forall (λ r, has_columns r color_columns) rows
  end.
Proof.
  unfold color_table. rewrite add_colors_spec. case_decide; [|done].
  split; [done|]. intros c. rewrite insert_all_lookup, lookup_empty.
  by destruct (assoc_find _ _).
Qed.

Lemma run_jobs_app wb rows1 rows2 st :
  run_jobs wb (rows1 ++ rows2) st =
    match run_jobs wb rows1 st with
    | (st1, None) => run_jobs wb rows2 st1
    | (st1, Some e) => (st1, Some e)
    end.
Proof.
  revert st. induction rows1 as [|row rows1 IH]; intros st; [done|]. simpl.
  destruct (run_job wb row) as [[o f]|e]; [apply IH|done].
Qed.

(** C23. An exception in one job ends the whole script: the jobs before
    it keep their outcomes and written files, and no later row is run
    (the code catches nothing around [tree_paint] or the row reads). *)
Theorem run_jobs_abort wb rows1 row rows2 st st1 e :
  run_jobs wb rows1 st = (st1, None) → run_job wb row = Err e →
  run_jobs wb (rows1 ++ row :: rows2) st = (st1, Some e).
Proof. intros H1 He. rewrite run_jobs_app, H1. simpl. by rewrite He. Qed.

Lemma rtc_loop_step_run wb p q :
  rtc (loop_step wb) p q → run_jobs wb p.1 p.2 = run_jobs wb q.1 q.2.
Proof. induction 1 as [|p q r [row rows st o f Hj] _ IH]; [done|]. simpl. by rewrite Hj. Qed.

(** The loop function's run is a run of the step relation, ending with
    every row consumed or at the row that raised. *)
Lemma run_jobs_reach wb rows st st' r :
  run_jobs wb rows st = (st', r) →
  ∃ rows', rtc (loop_step wb) (rows, st) (rows', st') ∧
    match r with None => rows' = [] | Some e => loop_crash wb (rows', st') e end.
Proof.
  revert st. induction rows as [|row rows IH]; intros st; simpl.
  - intros [= -> <-]. exists []. split; [apply rtc_refl|done].
  - destruct (run_job wb row) as [[o f]|e] eqn:Hj.
    + intros (rows' & Hs & Hr)%IH. exists rows'. split; [|done].
      eapply rtc_l; [by constructor|done].
    + intros [= -> <-]. exists (row :: rows). split; [apply rtc_refl|by constructor].
Qed.

(** C22. The loop function and the step relation agree: [run_jobs] ends
    in a state exactly when the state is reached by steps that each run
    one row, and it reports an exception exactly when the next row
    raises it (no exception: all rows are consumed). *)
Theorem run_jobs_steps wb rows st st' r :
  run_jobs wb rows st = (st', r) ↔
  ∃ rows', rtc (loop_step wb) (rows, st) (rows', st') ∧
    match r with None => rows' = [] | Some e => loop_crash wb (rows', st') e end.
Proof.
  split; [apply run_jobs_reach|].
  intros (rows' & Hs & Hr). apply rtc_loop_step_run in Hs. simpl in Hs. rewrite Hs.
  destruct r as [e|]; [|by subst].
  inversion Hr as [row rows'' st'' e' Hj]; subst. simpl. by rewrite Hj.
Qed.

Lemma record_job_files wb row o f st :
  run_job wb row = Ok (o, f) →
  files (record_job o f st) = insert_all (files st) (option_list (job_file wb row)).
Proof. intros Hj. unfold job_file. rewrite Hj. by destruct f as [[n c]|]. Qed.

Lemma loop_reach wb rows0 p :
  rtc (loop_step wb) (rows0, init_state) p →
  ∃ done, rows0 = done ++ p.1 ∧ length (outcomes p.2) = length done ∧
    files p.2 = insert_all ∅ (omap (job_file wb) done).
Proof.
  revert p. apply rtc_ind_r.
  - by exists [].
  - intros p q _ Hstep IH. destruct IH as (done & Hrows & Hlen & Hfiles).
    destruct Hstep as [row rows st o f Hj]. cbn [fst snd] in *.
    exists (done ++ [row]). split_and!.
    + by rewrite Hrows, <- app_assoc.
    + cbn [record_job outcomes]. rewrite !length_app. simpl. lia.
    + rewrite (record_job_files wb row), Hfiles, omap_app, insert_all_app by done.
      simpl. by destruct (job_file wb row).
Qed.

(** C24. The files written by the loop: in every state the loop reaches,
    the rows consumed so far each have one outcome, and each file name
    holds the content written by the last consumed row that saves to it
    ([lib.save_as] overwrites; nothing else writes). *)
Theorem loop_files_last_writer wb rows0 rows st :
  rtc (loop_step wb) (rows0, init_state) (rows, st) →
  ∃ done, rows0 = done ++ rows ∧ length (outcomes st) = length done ∧
    ∀ name, files st !! name = assoc_find name (reverse (omap (job_file wb) done)).
Proof.
  intros (done & Hrows & Hlen & Hfiles)%loop_reach. cbn [fst snd] in *.
  exists done. split_and!; [done..|].
  intros name. by rewrite Hfiles, insert_all_empty_lookup.
Qed.

(** Run a [result] computation hypothesis [H : m ≫= k = Ok _] or
    [H : (if decide P then _ else _) = Ok _] forward, one read or guard at
    a time. *)
Ltac run_forward H :=
  repeat match type of H with
  | (?m ≫= _) = Ok _ =>
      let E := fresh "E" in destruct m eqn:E; [simpl in H|discriminate H]
  | (if decide ?P then _ else _) = _ =>
      let Hd := fresh "Hd" in destruct (decide P) as [Hd|Hd]; simpl in H
  end.

(** C26. Only a row that is not commented out, whose colour sheet and
    input sheet exist and whose diagram is not skipped writes a file: its
    name is the [output_svgfile] cell followed by [.svg], its colour
    table is the colour sheet's, and its body is a whole SVG document
    whose header is the canvas titled with the row's input sheet, and
    whose last item is [</svg>]. *)
Theorem job_file_spec wb row name c :
  job_file wb row = Some (name, c) →
  get row "active" ≠ Ok "#" ∧
  (∃ o, get row "output_svgfile" = Ok o ∧ name = o +:+ ".svg") ∧
  (∃ cs, get row "color_sheet" = Ok cs ∧ cs ∈ sheet_names wb ∧
         color_table (sheet_rows wb cs) = Ok (file_colors c)) ∧
  ∃ sh, get row "input_sheet" = Ok sh ∧ sh ∈ sheet_names wb ∧
    ∃ s, file_body c = SvgHeader (canvas_of sh) :: s ++ [SvgEnd].
Proof.
  unfold job_file. destruct (run_job wb row) as [[o f]|] eqn:Hj; [|done]. intros ->.
  unfold run_job in Hj. run_forward Hj; try discriminate.
  destruct a8 as [body|]; [|discriminate]. injection Hj as <- <- <-.
  apply dec_stable in Hd0, Hd1. simpl.
  match goal with H : tree_paint _ _ _ _ _ _ _ = Ok (Some _) |- _ =>
    apply tree_paint_Some in H as (s & -> & _) end.
  split_and!; [congruence|eauto..]. exists a0. split_and!; [done|done|].
  by exists (SvgParams (parse_levels a2) a3 a4 a6 :: SvgSetupNote (canvas_of a0) :: s).
Qed.

(** ** The exceptions of a job

    A job raises [KeyError] (a missing cell of the row or of a colour
    sheet) or what the diagram raises (its cells' exceptions); never a
    fuel exhaustion. *)
Definition job_errors : list py_error := KeyError :: cell_errors.

Lemma get_raises es row col : KeyError ∈ es → raises_only es (get row col).
Proof. intros. rewrite get_spec. case_decide; auto with tetris. Qed.

Lemma color_table_raises es rows : KeyError ∈ es → raises_only es (color_table rows).
Proof. intros. unfold color_table. rewrite add_colors_spec. case_decide; auto with tetris. Qed.

Lemma tree_paint_raises_in es input_sheet columns levels area quality borders data :
  cell_errors ⊆ es →
  raises_only es (tree_paint input_sheet columns levels area quality borders data).
Proof. intros Hs. eapply raises_only_weaken; [exact Hs|apply tree_paint_raises]. Qed.

#[export] Hint Resolve get_raises color_table_raises tree_paint_raises_in : tetris.

Ltac solve_raises :=
  repeat first
    [ solve [eauto with tetris]
    | apply bind_raises_only; [|intros ? ?]
    | case_decide
    | case_match ].

Lemma borders_of_command_raises es row : KeyError ∈ es → raises_only es (borders_of_command row).
Proof. intros. unfold borders_of_command, border_of_row. solve_raises. Qed.

#[export] Hint Resolve borders_of_command_raises : tetris.

Lemma run_job_raises wb row : raises_only job_errors (run_job wb row).
Proof. unfold run_job, job_errors. solve_raises. Qed.

(** C25. Liveness of the loop: from any configuration the loop reaches
    a final one -- every row consumed, or a row that raises a Python
    exception ([KeyError], or [IndexError], [ValueError],
    [ZeroDivisionError] or [OverflowError] from a cell; never a fuel
    exhaustion of the model, never the [groupby([])] error) -- by steps
    that each give one row its outcome, and no step leaves a final
    configuration.  The input sheets are those of the model: their area
    and quality columns hold numbers. *)
Theorem loop_eventually_final wb rows st :
  ∃ rows' st', rtc (loop_step wb) (rows, st) (rows', st') ∧
    (rows' = [] ∨ ∃ e, e ∈ job_errors ∧ loop_crash wb (rows', st') e) ∧
    (∀ q, ¬ loop_step wb (rows', st') q) ∧
    (length (outcomes st') + length rows' = length (outcomes st) + length rows)%nat.
Proof.
  revert st. induction rows as [|row rows IH]; intros st.
  - exists [], st. split_and!; [apply rtc_refl|by left|by inversion 1|done].
  - destruct (run_job wb row) as [[o f]|e] eqn:Hj.
    + destruct (IH (record_job o f st)) as (rows' & st' & Hs & Hend & Hstop & Hlen).
      exists rows', st'. split_and!; [|done|done|].
      * eapply rtc_l; [by constructor|done].
      * rewrite Hlen. cbn [record_job outcomes length]. rewrite length_app. simpl. lia.
    + exists (row :: rows), st. split_and!; [apply rtc_refl| | |done].
      * right. exists e. split; [by apply (run_job_raises wb row)|by constructor].
      * intros q Hq. inversion Hq; congruence.
Qed.

(** ** What the saved files hold *)

(** A file a job saves is a well-formed diagram of the job's levels. *)
Lemma job_file_diagram wb row name c :
  job_file wb row = Some (name, c) →
  ∃ levelstr, get row "levels" = Ok levelstr ∧ doc_wf (parse_levels levelstr) (file_body c).
Proof.
  unfold job_file. destruct (run_job wb row) as [[o f]|] eqn:Hj; [|done]. intros ->.
  unfold run_job in Hj. run_forward Hj; try discriminate.
  destruct a8 as [body|]; [|discriminate]. injection Hj as <- <- <-.
  eexists. split; [reflexivity|]. simpl.
  match goal with H : tree_paint _ _ _ _ _ _ _ = Ok (Some _) |- _ =>
    apply tree_paint_Some in H as (s & -> & Hs) end.
  do 4 eexists. exists s. split; [reflexivity|]. by eapply level_rows_wf.
Qed.

(** C27. Composition of the loop, the job and the driver: in every state
    the loop reaches from the table [rows0], a file of the store was
    written by a row of the table whose job names that file, and its body
    is a well-formed diagram (header, one block per prefix of the levels,
    [</svg>]) of the levels that row's [levels] cell lists. *)
Theorem loop_files_are_diagrams wb rows0 rows st name c :
  rtc (loop_step wb) (rows0, init_state) (rows, st) →
  files st !! name = Some c →
  ∃ row levelstr, row ∈ rows0 ∧ job_file wb row = Some (name, c) ∧
    get row "levels" = Ok levelstr ∧ doc_wf (parse_levels levelstr) (file_body c).
Proof.
  intros (done & Hrows & _ & Hfiles)%loop_reach Hc. cbn [fst snd] in *.
  rewrite Hfiles in Hc. apply insert_all_empty_elem, list_elem_of_omap in Hc as (row & Hrow & Hj).
  destruct (job_file_diagram wb row name c Hj) as (levelstr & Hl & Hwf).
  exists row, levelstr. split_and!; [|done..]. rewrite Hrows. apply elem_of_app. by left.
Qed.

(** ** The whole script *)

(** C21. What the script does, by the way it ends.  Without the input file
    ([sys.argv[1]], or [tetris.xlsx]) or its [Commands] sheet it stops
    before any job.  Otherwise it runs the loop over the rows of
    [Commands]: when it finishes, every row has its outcome and each
    output file holds the last job that wrote it; when it crashes, the
    exception is a [KeyError] or one a cell raises ([IndexError],
    [ValueError], [ZeroDivisionError], [OverflowError]), raised by a row
    after which no row runs, every row before it has its outcome and the
    files are those rows' last writes.  As in [loop_eventually_final],
    the input sheets have numeric area and quality columns. *)
Theorem main_spec argv workbooks :
  let f := input_spreadsheet_of argv in
  match main argv workbooks with
  | NoInputFile f' => f' = f ∧ workbooks f = None
  | NoCommandsSheet f' => f' = f ∧ ∃ wb, workbooks f = Some wb ∧ "Commands" ∉ sheet_names wb
  | Finished st => ∃ wb, workbooks f = Some wb ∧ "Commands" ∈ sheet_names wb ∧
      length (outcomes st) = length (sheet_rows wb "Commands") ∧
      ∀ name, files st !! name =
        assoc_find name (reverse (omap (job_file wb) (sheet_rows wb "Commands")))
  | Crashed st e => e ∈ job_errors ∧ ∃ wb done row rest,
      workbooks f = Some wb ∧ "Commands" ∈ sheet_names wb ∧
      sheet_rows wb "Commands" = done ++ row :: rest ∧ run_job wb row = Err e ∧
      length (outcomes st) = length done ∧
      ∀ name, files st !! name = assoc_find name (reverse (omap (job_file wb) done))
  end.
Proof.
  intros f. unfold main. fold f. destruct (workbooks f) as [wb|] eqn:Ewb; [|done].
  case_decide as Hc; [eauto|].
  destruct (run_jobs wb (sheet_rows wb "Commands") init_state) as [st [e|]] eqn:E;
    apply run_jobs_reach in E as (rows' & (done & Hrows & Hlen & Hfiles)%loop_reach & Hr);
    cbn [fst snd] in *.
  - inversion Hr as [row rest st'' e' Hj]; subst rows'.
    split; [by apply (run_job_raises wb row)|].
    exists wb, done, row, rest. split_and!; [done..|]. intros name. by rewrite Hfiles, insert_all_empty_lookup.
  - subst rows'. rewrite app_nil_r in Hrows. subst done.
    exists wb. split_and!; [done..|]. intros name. by rewrite Hfiles, insert_all_empty_lookup.
Qed.

(** ** Witnesses *)

Lemma run_jobs_abort_witness :
  run_jobs sample_wb [sample_job] init_state =
    (record_job (JobSaved "out.svg") (Some ("out.svg", sample_file)) init_state, None) ∧
  run_job sample_wb broken_job = Err KeyError ∧
  run_jobs sample_wb ([sample_job] ++ broken_job :: [sample_job]) init_state =
    (record_job (JobSaved "out.svg") (Some ("out.svg", sample_file)) init_state, Some KeyError).
Proof.
  assert (H1 : run_jobs sample_wb [sample_job] init_state =
    (record_job (JobSaved "out.svg") (Some ("out.svg", sample_file)) init_state, None))
    by (vm_compute; reflexivity).
  assert (H2 : run_job sample_wb broken_job = Err KeyError) by (vm_compute; reflexivity).
  split_and!; [exact H1|exact H2|exact (run_jobs_abort _ _ _ _ _ _ _ H1 H2)].
Defined.

Lemma loop_files_last_writer_witness :
  rtc (loop_step sample_wb) ([sample_job; commented_job], init_state)
    ([commented_job], record_job (JobSaved "out.svg") (Some ("out.svg", sample_file)) init_state) ∧
  ∃ done, [sample_job; commented_job] = done ++ [commented_job] ∧
    length (outcomes (record_job (JobSaved "out.svg") (Some ("out.svg", sample_file)) init_state)) =
      length done ∧
    ∀ name, files (record_job (JobSaved "out.svg") (Some ("out.svg", sample_file)) init_state) !! name =
      assoc_find name (reverse (omap (job_file sample_wb) done)).
Proof.
  assert (H : rtc (loop_step sample_wb) ([sample_job; commented_job], init_state)
    ([commented_job], record_job (JobSaved "out.svg") (Some ("out.svg", sample_file)) init_state)).
  { eapply rtc_l; [apply loop_step_job; vm_compute; reflexivity|apply rtc_refl]. }
  split; [exact H|exact (loop_files_last_writer _ _ _ _ H)].
Defined.

Lemma job_file_spec_witness :
  job_file sample_wb sample_job = Some ("out.svg", sample_file) ∧
  get sample_job "active" ≠ Ok "#" ∧
  (∃ o, get sample_job "output_svgfile" = Ok o ∧ "out.svg" = o +:+ ".svg") ∧
  (∃ cs, get sample_job "color_sheet" = Ok cs ∧ cs ∈ sheet_names sample_wb ∧
         color_table (sheet_rows sample_wb cs) = Ok (file_colors sample_file)) ∧
  ∃ sh, get sample_job "input_sheet" = Ok sh ∧ sh ∈ sheet_names sample_wb ∧
    ∃ s, file_body sample_file = SvgHeader (canvas_of sh) :: s ++ [SvgEnd].
Proof.
  assert (H : job_file sample_wb sample_job = Some ("out.svg", sample_file))
    by (vm_compute; reflexivity).
  split; [exact H|exact (job_file_spec _ _ _ _ H)].
Defined.

Lemma loop_files_are_diagrams_witness :
  rtc (loop_step sample_wb) ([sample_job; commented_job], init_state)
    ([commented_job], record_job (JobSaved "out.svg") (Some ("out.svg", sample_file)) init_state) ∧
  files (record_job (JobSaved "out.svg") (Some ("out.svg", sample_file)) init_state) !! "out.svg"
    = Some sample_file ∧
  ∃ row levelstr, row ∈ [sample_job; commented_job] ∧
    job_file sample_wb row = Some ("out.svg", sample_file) ∧
    get row "levels" = Ok levelstr ∧ doc_wf (parse_levels levelstr) (file_body sample_file).
Proof.
  assert (H : rtc (loop_step sample_wb) ([sample_job; commented_job], init_state)
    ([commented_job], record_job (JobSaved "out.svg") (Some ("out.svg", sample_file)) init_state)).
  { eapply rtc_l; [apply loop_step_job; vm_compute; reflexivity|apply rtc_refl]. }
  assert (Hf : files (record_job (JobSaved "out.svg") (Some ("out.svg", sample_file)) init_state)
    !! "out.svg" = Some sample_file) by (vm_compute; reflexivity).
  split_and!; [exact H|exact Hf|exact (loop_files_are_diagrams _ _ _ _ _ _ H Hf)].
Defined.
